(** * A ppzkSNARK for USCS: the generator, prover and verifiers of
    [uscs_ppzksnark_basic_policy] (basic_policy.hpp), embedded shallowly.

    The C++ policy is a template over [CurveType]; here it is a development
    over a [Curve] interface.  Randomness, assertion failure, undefined
    behaviour of out-of-range vector accesses and the calls made to the
    pairing library are explicit: every algorithm is a computation in the
    monad [M] over a [world] holding the sampler state and the log of
    pairing-library calls.  Where a statement is about the caller's
    constraint-system object, the generator is run on a reference into a
    store of objects ([generator_by_reference]). *)

From Stdlib Require Import List ZArith Zpow_facts Lia Bool.
Import ListNotations.
Local Open Scope Z_scope.

Set Implicit Arguments.

(** ** Build configuration

    The source is conditioned on three preprocessor symbols: [NDEBUG]
    (whether [assert] is compiled out), [USE_MIXED_ADDITION] and
    [MULTICORE] (with the thread count the OpenMP runtime reports). *)

Record build : Type := {
  NDEBUG : bool;
  USE_MIXED_ADDITION : bool;
  MULTICORE : option Z
}.

(** ** [std::size_t] and [std::vector]

    Sizes are 64-bit unsigned integers: arithmetic wraps around. *)

Definition size_t := Z.
Definition size_max : Z := 2 ^ 64.
Definition wrap (z : Z) : size_t := z mod size_max.
Definition size_add (a b : size_t) : size_t := wrap (a + b).
Definition size_sub (a b : size_t) : size_t := wrap (a - b).

(** [v.size()] *)
Definition vsize {A} (v : list A) : size_t := Z.of_nat (length v).

(** [v[i]]: defined only inside the vector. *)
Definition vec_at {A} (v : list A) (i : size_t) : option A :=
  if (0 <=? i) && (i <? vsize v) then nth_error v (Z.to_nat i) else None.

(** The iterator range [[v.begin() + a, v.begin() + b)]: defined only when
    both iterators lie inside [[begin, end]] and are ordered. *)
Definition vec_range {A} (v : list A) (a b : size_t) : option (list A) :=
  if (0 <=? a) && (a <=? b) && (b <=? vsize v)
  then Some (firstn (Z.to_nat (b - a)) (skipn (Z.to_nat a) v))
  else None.

(** ** The algebraic interface consumed by the policy *)

(** A group type [CurveType::g1_type] / [g2_type] with scalars in [F]. *)
Record group_type (F : Type) : Type := {
  value_type :> Type;
  g_zero : value_type;
  g_one : value_type;
  g_add : value_type -> value_type -> value_type;
  g_mul : F -> value_type -> value_type;
  g_is_well_formed : value_type -> bool;
  g_to_special : value_type -> value_type;
  g_value_bits : size_t;
  get_exp_window_size : size_t -> size_t
}.

Arguments g_zero {F g}.
Arguments g_one {F g}.
Arguments g_add {F g}.
Arguments g_mul {F g}.
Arguments g_is_well_formed {F g}.
Arguments g_to_special {F g}.

Class Curve : Type := {
  (** [scalar_field_type::value_type] and its sampler *)
  Fr : Type;
  fr_zero : Fr;
  fr_mul : Fr -> Fr -> Fr;
  fr_is_zero : Fr -> bool;
  fr_value_bits : size_t;
  Rng : Type;
  random_element : Rng -> Fr * Rng;
  (** the two source groups *)
  g1_type : group_type Fr;
  g2_type : group_type Fr;
  (** the pairing policy; [gt_type] and [Fqk_type] are one type in the
      source, which stores Miller-loop values in [gt_type] fields *)
  G1_precomp : Type;
  G2_precomp : Type;
  gt_type : Type;
  gt_one : gt_type;
  gt_mul : gt_type -> gt_type -> gt_type;
  unitary_inversed : gt_type -> gt_type;
  gt_eq_dec : forall a b : gt_type, {a = b} + {a <> b};
  precompute_g1 : g1_type -> G1_precomp;
  precompute_g2 : g2_type -> G2_precomp;
  miller_loop : G1_precomp -> G2_precomp -> gt_type;
  final_exponentiation : gt_type -> gt_type
}.

(** ** Effects *)

Inductive failure : Type :=
| AssertionFailed
| UndefinedBehaviour.

Inductive outcome (A : Type) : Type :=
| Ret (a : A)
| Fail (f : failure).

Arguments Fail {A} f.

(** Calls into the pairing library and the proof's well-formedness check. *)
Inductive event : Type :=
| EvWellFormed
| EvPrecomputeG1
| EvPrecomputeG2
| EvMillerLoop
| EvFinalExponentiation.

Definition event_eq_dec (e e' : event) : {e = e'} + {e <> e'}.
Proof. decide equality. Defined.

Section Effects.

Context {C : Curve}.

Record world : Type := {
  rng : Rng;
  trace : list event
}.

Definition M (A : Type) : Type := world -> outcome A * world.

Definition ret {A} (a : A) : M A := fun w => (Ret a, w).

Definition bind {A A'} (m : M A) (k : A -> M A') : M A' :=
  fun w => match m w with
           | (Ret a, w') => k a w'
           | (Fail f, w') => (Fail f, w')
           end.

Definition fail {A} (f : failure) : M A := fun w => (Fail f, w).

(** [assert(c)]: aborts when [c] is false, unless compiled out.  The
    condition is a computation: with [NDEBUG] it is not evaluated. *)
Definition assert_ (B : build) (c : M bool) : M unit :=
  if NDEBUG B then ret tt
  else bind c (fun b => if b then ret tt else fail AssertionFailed).

(** A partial vector operation: outside its domain the behaviour is
    undefined. *)
Definition defined {A} (o : option A) : M A :=
  match o with
  | Some a => ret a
  | None => fail UndefinedBehaviour
  end.

Definition emit (e : event) : M unit :=
  fun w => (Ret tt, {| rng := rng w; trace := trace w ++ [e] |}).

(** [algebra::random_element<scalar_field_type>()] *)
Definition draw : M Fr :=
  fun w => let (x, r) := random_element (rng w) in
           (Ret x, {| rng := r; trace := trace w |}).

(** [for (std::size_t i = 0; i < n; ++i) body(i)] *)
Fixpoint for_loop (count : nat) (i : size_t) (body : size_t -> M unit) : M unit :=
  match count with
  | O => ret tt
  | S count' => bind (body i) (fun _ => for_loop count' (i + 1) body)
  end.

(** The pairing policy, each call recorded. *)
Definition pp_precompute_g1 (P : g1_type) : M G1_precomp :=
  bind (emit EvPrecomputeG1) (fun _ => ret (precompute_g1 P)).

Definition pp_precompute_g2 (Q : g2_type) : M G2_precomp :=
  bind (emit EvPrecomputeG2) (fun _ => ret (precompute_g2 Q)).

Definition pp_miller_loop (p : G1_precomp) (q : G2_precomp) : M gt_type :=
  bind (emit EvMillerLoop) (fun _ => ret (miller_loop p q)).

Definition pp_final_exponentiation (f : gt_type) : M gt_type :=
  bind (emit EvFinalExponentiation) (fun _ => ret (final_exponentiation f)).

End Effects.

Notation "x <- m ;; k" := (bind m (fun x => k))
  (at level 61, m at next level, right associativity).
Notation "m ;;; k" := (bind m (fun _ => k))
  (at level 61, right associativity).

(** ** The multi-exponentiation library *)

Section Multiexp.

Context {C : Curve}.
Variable G : group_type Fr.

(** Modelled from the spec: the window tables of algebra/multiexp are not
    among the sources.  A window table holds precomputed multiples of one
    base; what the policy observes of it is the base it was built for. *)
Record window_table : Type := {
  wt_scalar_bits : size_t;
  wt_window : size_t;
  wt_base : G
}.

Definition get_window_table (scalar_bits window : size_t) (g : G) : window_table :=
  {| wt_scalar_bits := scalar_bits; wt_window := window; wt_base := g |}.

(** Modelled from the spec: [batch_exp(T, v)] is the vector of the
    multiples [v_i * base]. *)
Definition batch_exp (scalar_bits window : size_t) (table : window_table)
    (v : list Fr) : list G :=
  map (fun s => g_mul s (wt_base table)) v.

(** Modelled from the spec: [batch_exp_with_coeff], the coefficient being
    applied elementwise to the scalars. *)
Definition batch_exp_with_coeff (scalar_bits window : size_t)
    (table : window_table) (coeff : Fr) (v : list Fr) : list G :=
  map (fun s => g_mul (fr_mul coeff s) (wt_base table)) v.

(** Modelled from the spec: [batch_to_special] normalises every element
    of a vector to the special representation. *)
Definition batch_to_special (v : list G) : list G := map g_to_special v.

(** Modelled from the spec: [multiexp] over a range of points and a range
    of scalars is the sum of the products [s_i * P_i]; the chunk count
    only distributes the work. *)
Definition multiexp (points : list G) (scalars : list Fr) (chunks : size_t) : G :=
  fold_right (fun ps acc => g_add (g_mul (snd ps) (fst ps)) acc) g_zero
    (combine points scalars).

Definition multiexp_with_mixed_addition := multiexp.

(** *** Accumulation vectors *)

(** Modelled from the spec: accumulation_vector.hpp is not among the
    sources.  An accumulation vector is a base element [first] and a
    sparse vector [rest] of elements indexed by input position. *)
Record accumulation_vector : Type := {
  first : G;
  rest : list (size_t * G)
}.

(** [accumulation_vector(first, v)]: a dense [v] occupies positions
    [0 .. |v|). *)
Definition make_accumulation_vector (base : G) (v : list G) : accumulation_vector :=
  {| first := base;
     rest := combine (map Z.of_nat (seq 0 (length v))) v |}.

(** how many sparse positions are represented *)
Definition domain_size (av : accumulation_vector) : size_t := vsize (rest av).

Definition is_fully_accumulated (av : accumulation_vector) : bool :=
  match rest av with
  | [] => true
  | _ :: _ => false
  end.

(** The entries whose position falls in [[offset, offset + |scalars|)] are
    multiplied by their scalar and summed; the others are kept. *)
Fixpoint accumulate (scalars : list Fr) (offset : size_t)
    (entries : list (size_t * G)) : G * list (size_t * G) :=
  match entries with
  | [] => (g_zero, [])
  | (p, v) :: entries' =>
      let (sum, kept) := accumulate scalars offset entries' in
      match vec_at scalars (p - offset) with
      | Some s => (g_add (g_mul s v) sum, kept)
      | None => (sum, (p, v) :: kept)
      end
  end.

Definition accumulate_chunk (av : accumulation_vector) (scalars : list Fr)
    (offset : size_t) : accumulation_vector :=
  let (sum, kept) := accumulate scalars offset (rest av) in
  {| first := g_add (first av) sum; rest := kept |}.

End Multiexp.

Arguments first {C G} a.
Arguments rest {C G} a.
Arguments wt_base {C G} w.

(** ** The USCS-to-SSP reduction *)

Section Reduction.

Context {C : Curve}.

(** [ssp_instance_evaluation], as the generator reads it. *)
Record ssp_instance_evaluation : Type := {
  Vt : list Fr;
  Ht : list Fr;
  Zt : Fr;
  inst_num_variables : size_t;
  inst_num_inputs : size_t;
  inst_degree : size_t
}.

(** [ssp_witness], as the prover reads it. *)
Record ssp_witness : Type := {
  wit_d : Fr;
  coefficients_for_Vs : list Fr;
  coefficients_for_H : list Fr;
  wit_num_variables : size_t;
  wit_num_inputs : size_t;
  wit_degree : size_t
}.

(** The constraint systems and the two maps of reductions/uscs_to_ssp.hpp
    are not among the sources: the policy is parameterised by them. *)
Class Reduction : Type := {
  constraint_system : Type;
  is_satisfied : constraint_system -> list Fr -> list Fr -> bool;
  instance_map_with_evaluation : constraint_system -> Fr -> ssp_instance_evaluation;
  witness_map : constraint_system -> list Fr -> list Fr -> Fr -> ssp_witness
}.

End Reduction.

(** ** The policy *)

Section Policy.

Context {C : Curve} {R : Reduction}.
Variable B : build.

Definition primary_input := list Fr.
Definition auxiliary_input := list Fr.

(** *** Keys and proofs *)

Record proving_key : Type := {
  V_g1_query : list g1_type;
  alpha_V_g1_query : list g1_type;
  H_g1_query : list g1_type;
  V_g2_query : list g2_type;
  cs : constraint_system
}.

Record verification_key : Type := {
  tilde_g2 : g2_type;
  alpha_tilde_g2 : g2_type;
  Z_g2 : g2_type;
  encoded_IC_query : accumulation_vector g1_type
}.

Record processed_verification_key : Type := {
  pp_G1_one_precomp : G1_precomp;
  pp_G2_one_precomp : G2_precomp;
  vk_tilde_g2_precomp : G2_precomp;
  vk_alpha_tilde_g2_precomp : G2_precomp;
  vk_Z_g2_precomp : G2_precomp;
  pairing_of_g1_and_g2 : gt_type;
  pvk_encoded_IC_query : accumulation_vector g1_type
}.

Record keypair : Type := {
  pk : proving_key;
  vk : verification_key
}.

Record proof : Type := {
  V_g1 : g1_type;
  alpha_V_g1 : g1_type;
  H_g1 : g1_type;
  V_g2 : g2_type
}.

(** [proof::proof()]: an invalid proof with valid curve points. *)
Definition default_proof : proof :=
  {| V_g1 := g_one; alpha_V_g1 := g_one; H_g1 := g_one; V_g2 := g_one |}.

(** [proof::is_well_formed] *)
Definition is_well_formed (pi : proof) : bool :=
  g_is_well_formed (V_g1 pi) && g_is_well_formed (alpha_V_g1 pi) &&
  g_is_well_formed (H_g1 pi) && g_is_well_formed (V_g2 pi).

(** *** Generator *)

(** The [#ifdef USE_MIXED_ADDITION] normalisation of a query. *)
Definition to_special_if_mixed (G : group_type Fr) (v : list G) : list G :=
  if USE_MIXED_ADDITION B then batch_to_special G v else v.

Definition generator (cs0 : constraint_system) : M keypair :=
  (* draw random element at which the SSP is evaluated *)
  t <- draw ;;
  (* perform USCS-to-SSP reduction *)
  let ssp_inst := instance_map_with_evaluation cs0 t in
  (* construct various tables of field elements *)
  let Vt_table := Vt ssp_inst in
  let Ht_table := Ht ssp_inst in
  let Vt_table := Vt_table ++ [Zt ssp_inst] in
  Xt_table <- defined (vec_range Vt_table 0 (inst_num_inputs ssp_inst + 1)) ;;
  Vt_table_minus_Xt_table <-
    defined (vec_range Vt_table (inst_num_inputs ssp_inst + 1) (vsize Vt_table)) ;;
  (* sanity checks *)
  assert_ B (ret (vsize Vt_table =? size_add (inst_num_variables ssp_inst) 2)) ;;;
  assert_ B (ret (vsize Ht_table =? size_add (inst_degree ssp_inst) 1)) ;;;
  assert_ B (ret (vsize Xt_table =? size_add (inst_num_inputs ssp_inst) 1)) ;;;
  assert_ B (ret (vsize Vt_table_minus_Xt_table =?
                  size_sub (size_sub (size_add (inst_num_variables ssp_inst) 2)
                                     (inst_num_inputs ssp_inst)) 1)) ;;;
  for_loop (Z.to_nat (size_add (inst_num_inputs ssp_inst) 1)) 0
    (fun i => assert_ B (x <- defined (vec_at Xt_table i) ;;
                         ret (negb (fr_is_zero x)))) ;;;
  alpha <- draw ;;
  let g1_exp_count :=
    size_add (size_add (vsize Vt_table) (vsize Vt_table_minus_Xt_table))
             (vsize Ht_table) in
  let g2_exp_count := vsize Vt_table_minus_Xt_table in
  let g1_window := get_exp_window_size g1_type g1_exp_count in
  let g2_window := get_exp_window_size g2_type g2_exp_count in
  let g1_table := get_window_table g1_type fr_value_bits g1_window g_one in
  let g2_table := get_window_table g2_type fr_value_bits g2_window g_one in
  let V_g1_query :=
    to_special_if_mixed g1_type
      (batch_exp fr_value_bits g1_window g1_table Vt_table_minus_Xt_table) in
  let alpha_V_g1_query :=
    to_special_if_mixed g1_type
      (batch_exp_with_coeff fr_value_bits g1_window g1_table alpha
         Vt_table_minus_Xt_table) in
  let H_g1_query :=
    to_special_if_mixed g1_type
      (batch_exp fr_value_bits g1_window g1_table Ht_table) in
  let V_g2_query :=
    to_special_if_mixed g2_type
      (batch_exp fr_value_bits g2_window g2_table Vt_table) in
  tilde <- draw ;;
  let tilde_g2 : g2_type := g_mul tilde g_one in
  let alpha_tilde_g2 : g2_type := g_mul (fr_mul alpha tilde) g_one in
  let Z_g2 : g2_type := g_mul (Zt ssp_inst) g_one in
  Xt_0 <- defined (vec_at Xt_table 0) ;;
  let encoded_IC_base : g1_type := g_mul Xt_0 g_one in
  Xt_tail <- defined (vec_range Xt_table 1 (vsize Xt_table)) ;;
  let encoded_IC_values :=
    batch_exp fr_value_bits g1_window g1_table Xt_tail in
  let encoded_IC_query :=
    make_accumulation_vector g1_type encoded_IC_base encoded_IC_values in
  let vk := {| tilde_g2 := tilde_g2; alpha_tilde_g2 := alpha_tilde_g2;
               Z_g2 := Z_g2; encoded_IC_query := encoded_IC_query |} in
  let cs_copy := cs0 in
  let pk := {| V_g1_query := V_g1_query; alpha_V_g1_query := alpha_V_g1_query;
               H_g1_query := H_g1_query; V_g2_query := V_g2_query;
               cs := cs_copy |} in
  (* pk.print_size(); vk.print_size(): diagnostics only *)
  ret {| pk := pk; vk := vk |}.

(** *** Prover *)

(** [MULTICORE] selects the chunk count of the multi-exponentiations. *)
Definition chunks : size_t :=
  match MULTICORE B with
  | Some omp_max_threads => omp_max_threads
  | None => 1
  end.

Definition prover (pk0 : proving_key) (primary_input0 : primary_input)
    (auxiliary_input0 : auxiliary_input) : M proof :=
  d <- draw ;;
  let ssp_wit := witness_map (cs pk0) primary_input0 auxiliary_input0 d in
  let num_variables := wit_num_variables ssp_wit in
  let num_inputs := wit_num_inputs ssp_wit in
  let degree := wit_degree ssp_wit in
  (* sanity checks *)
  assert_ B (ret (is_satisfied (cs pk0) primary_input0 auxiliary_input0)) ;;;
  assert_ B (ret (vsize (V_g1_query pk0) =?
                  size_sub (size_sub (size_add num_variables 2) num_inputs) 1)) ;;;
  assert_ B (ret (vsize (alpha_V_g1_query pk0) =?
                  size_sub (size_sub (size_add num_variables 2) num_inputs) 1)) ;;;
  assert_ B (ret (vsize (H_g1_query pk0) =? size_add degree 1)) ;;;
  assert_ B (ret (vsize (V_g2_query pk0) =? size_add num_variables 2)) ;;;
  V_g1_last <-
    defined (vec_at (V_g1_query pk0) (size_sub (vsize (V_g1_query pk0)) 1)) ;;
  let V_g1 : g1_type := g_mul (wit_d ssp_wit) V_g1_last in
  alpha_V_g1_last <-
    defined (vec_at (alpha_V_g1_query pk0)
                    (size_sub (vsize (alpha_V_g1_query pk0)) 1)) ;;
  let alpha_V_g1 : g1_type := g_mul (wit_d ssp_wit) alpha_V_g1_last in
  let H_g1 : g1_type := g_zero in
  V_g2_0 <- defined (vec_at (V_g2_query pk0) 0) ;;
  V_g2_last <-
    defined (vec_at (V_g2_query pk0) (size_sub (vsize (V_g2_query pk0)) 1)) ;;
  let V_g2 : g2_type := g_add V_g2_0 (g_mul (wit_d ssp_wit) V_g2_last) in
  (* V_g1 *)
  points <-
    defined (vec_range (V_g1_query pk0) 0 (size_sub num_variables num_inputs)) ;;
  scalars <-
    defined (vec_range (coefficients_for_Vs ssp_wit) num_inputs num_variables) ;;
  let V_g1 :=
    g_add V_g1 (multiexp_with_mixed_addition g1_type points scalars chunks) in
  (* alpha_V_g1 *)
  points <-
    defined (vec_range (alpha_V_g1_query pk0) 0
                       (size_sub num_variables num_inputs)) ;;
  scalars <-
    defined (vec_range (coefficients_for_Vs ssp_wit) num_inputs num_variables) ;;
  let alpha_V_g1 :=
    g_add alpha_V_g1
          (multiexp_with_mixed_addition g1_type points scalars chunks) in
  (* H_g1 *)
  points <- defined (vec_range (H_g1_query pk0) 0 (degree + 1)) ;;
  scalars <- defined (vec_range (coefficients_for_H ssp_wit) 0 (degree + 1)) ;;
  let H_g1 := g_add H_g1 (multiexp g1_type points scalars chunks) in
  (* V_g2 *)
  points <- defined (vec_range (V_g2_query pk0) 1 (num_variables + 1)) ;;
  scalars <- defined (vec_range (coefficients_for_Vs ssp_wit) 0 num_variables) ;;
  let V_g2 := g_add V_g2 (multiexp g2_type points scalars chunks) in
  let prf := {| V_g1 := V_g1; alpha_V_g1 := alpha_V_g1; H_g1 := H_g1;
                V_g2 := V_g2 |} in
  ret prf.

(** *** Verifiers *)

Definition verifier_process_vk (vk0 : verification_key)
    : M processed_verification_key :=
  pp_G1_one_precomp <- pp_precompute_g1 g_one ;;
  pp_G2_one_precomp <- pp_precompute_g2 g_one ;;
  vk_tilde_g2_precomp <- pp_precompute_g2 (tilde_g2 vk0) ;;
  vk_alpha_tilde_g2_precomp <- pp_precompute_g2 (alpha_tilde_g2 vk0) ;;
  vk_Z_g2_precomp <- pp_precompute_g2 (Z_g2 vk0) ;;
  pairing_of_g1_and_g2 <- pp_miller_loop pp_G1_one_precomp pp_G2_one_precomp ;;
  ret {| pp_G1_one_precomp := pp_G1_one_precomp;
         pp_G2_one_precomp := pp_G2_one_precomp;
         vk_tilde_g2_precomp := vk_tilde_g2_precomp;
         vk_alpha_tilde_g2_precomp := vk_alpha_tilde_g2_precomp;
         vk_Z_g2_precomp := vk_Z_g2_precomp;
         pairing_of_g1_and_g2 := pairing_of_g1_and_g2;
         pvk_encoded_IC_query := encoded_IC_query vk0 |}.

(** [proof.is_well_formed()], the call recorded. *)
Definition check_well_formed (pi : proof) : M bool :=
  emit EvWellFormed ;;; ret (is_well_formed pi).

(** [if (X != gt_type::one()) result = false;] *)
Definition unless_one (X : gt_type) (result : bool) : bool :=
  if gt_eq_dec X gt_one then result else false.

Definition online_verifier_weak_IC (pvk : processed_verification_key)
    (primary_input0 : primary_input) (pi : proof) : M bool :=
  assert_ B (ret (vsize primary_input0 <=?
                  domain_size (pvk_encoded_IC_query pvk))) ;;;
  let accumulated_IC :=
    accumulate_chunk (pvk_encoded_IC_query pvk) primary_input0 0 in
  assert_ B (ret (is_fully_accumulated accumulated_IC)) ;;;
  let acc := first accumulated_IC in
  let result := true in
  well_formed <- check_well_formed pi ;;
  let result := if negb well_formed then false else result in
  (* equation V *)
  proof_V_g1_with_acc_precomp <- pp_precompute_g1 (g_add (V_g1 pi) acc) ;;
  proof_V_g2_precomp <- pp_precompute_g2 (V_g2 pi) ;;
  V_1 <- pp_miller_loop proof_V_g1_with_acc_precomp (pp_G2_one_precomp pvk) ;;
  V_2 <- pp_miller_loop (pp_G1_one_precomp pvk) proof_V_g2_precomp ;;
  V <- pp_final_exponentiation (gt_mul V_1 (unitary_inversed V_2)) ;;
  let result := unless_one V result in
  (* equation SSP *)
  proof_H_g1_precomp <- pp_precompute_g1 (H_g1 pi) ;;
  SSP_1 <- pp_miller_loop proof_V_g1_with_acc_precomp proof_V_g2_precomp ;;
  SSP_2 <- pp_miller_loop proof_H_g1_precomp (vk_Z_g2_precomp pvk) ;;
  SSP <- pp_final_exponentiation
           (gt_mul (gt_mul (unitary_inversed SSP_1) SSP_2)
                   (pairing_of_g1_and_g2 pvk)) ;;
  let result := unless_one SSP result in
  (* equation alpha *)
  proof_V_g1_precomp <- pp_precompute_g1 (V_g1 pi) ;;
  proof_alpha_V_g1_precomp <- pp_precompute_g1 (alpha_V_g1 pi) ;;
  alpha_V_1 <- pp_miller_loop proof_V_g1_precomp (vk_alpha_tilde_g2_precomp pvk) ;;
  alpha_V_2 <- pp_miller_loop proof_alpha_V_g1_precomp (vk_tilde_g2_precomp pvk) ;;
  alpha_V <- pp_final_exponentiation
               (gt_mul alpha_V_1 (unitary_inversed alpha_V_2)) ;;
  let result := unless_one alpha_V result in
  ret result.

Definition verifier_weak_IC (vk0 : verification_key)
    (primary_input0 : primary_input) (pi : proof) : M bool :=
  pvk <- verifier_process_vk vk0 ;;
  result <- online_verifier_weak_IC pvk primary_input0 pi ;;
  ret result.

Definition online_verifier_strong_IC (pvk : processed_verification_key)
    (primary_input0 : primary_input) (pi : proof) : M bool :=
  let result := true in
  if negb (domain_size (pvk_encoded_IC_query pvk) =? vsize primary_input0)
  then
    let result := false in
    ret result
  else
    result <- online_verifier_weak_IC pvk primary_input0 pi ;;
    ret result.

Definition verifier_strong_IC (vk0 : verification_key)
    (primary_input0 : primary_input) (pi : proof) : M bool :=
  pvk <- verifier_process_vk vk0 ;;
  result <- online_verifier_strong_IC pvk primary_input0 pi ;;
  ret result.

End Policy.

(** ** The constraint system as an object of the caller

    [generator] takes its argument by [const] reference, copies it into
    the local [cs_copy] and moves the copy into the proving key.  To tell
    the caller's object from the copy, the constraint systems are kept in
    a store of objects and the generator is given a reference. *)

Section References.

Context {C : Curve} {R : Reduction}.
Variable B : build.

(** An object of type [constraint_system]: holding a value, or moved
    from (valid, its value unspecified). *)
Inductive cs_object : Type :=
| Holding (c : constraint_system)
| MovedFrom.

(** The [constraint_system] objects alive in the caller's frames and in
    the function's own, the newest last; a reference is a position. *)
Definition store : Type := list cs_object.
Definition reference : Type := nat.

(** Computations on the store and the world. *)
Definition MS (A : Type) : Type := store -> M (A * store).

Definition retS {A} (a : A) : MS A := fun s => ret (a, s).

Definition bindS {A A'} (m : MS A) (k : A -> MS A') : MS A' :=
  fun s => bind (m s) (fun r => k (fst r) (snd r)).

(** A computation that does not touch the objects. *)
Definition liftS {A} (m : M A) : MS A :=
  fun s => bind m (fun a => ret (a, s)).

(** Reading the value of an object through a reference.  The value of a
    moved-from object is unspecified: no program here relies on one, and
    the model stops there. *)
Definition read (l : reference) : MS constraint_system :=
  fun s => match nth_error s l with
           | Some (Holding c) => ret (c, s)
           | _ => fail UndefinedBehaviour
           end.

(** [constraint_system x = y;]: the copy constructor makes a new local
    object holding the value of [y]. *)
Definition copy_construct (l : reference) : MS reference :=
  bindS (read l) (fun c s => ret (length s, s ++ [Holding c])).

(** Replacing the object at a position. *)
Fixpoint put (l : reference) (o : cs_object) (s : store) : store :=
  match s, l with
  | [], _ => []
  | _ :: s', O => o :: s'
  | o' :: s', S l' => o' :: put l' o s'
  end.

(** [std::move(x)] into a member constructed from it: the member takes
    the value and [x] is left moved from. *)
Definition move_from (l : reference) : MS constraint_system :=
  fun s => match nth_error s l with
           | Some (Holding c) => ret (c, put l MovedFrom s)
           | _ => fail UndefinedBehaviour
           end.

(** The newest local goes out of scope. *)
Definition end_of_scope : MS unit := fun s => ret (tt, removelast s).

End References.

Notation "x <~ m ;; k" := (bindS m (fun x => k))
  (at level 61, m at next level, right associativity).
Notation "m ;;~ k" := (bindS m (fun _ => k))
  (at level 61, right associativity).

Section GeneratorByReference.

Context {C : Curve} {R : Reduction}.
Variable B : build.

(** [generator(const constraint_system &cs)], the statements of
    [generator] with the objects they touch. *)
Definition generator_by_reference (cs : reference) : MS keypair :=
  (* draw random element at which the SSP is evaluated *)
  t <~ liftS draw ;;
  (* perform USCS-to-SSP reduction: reads the caller's object *)
  cs_value <~ read cs ;;
  let ssp_inst := instance_map_with_evaluation cs_value t in
  (* construct various tables of field elements *)
  let Vt_table := Vt ssp_inst in
  let Ht_table := Ht ssp_inst in
  let Vt_table := Vt_table ++ [Zt ssp_inst] in
  Xt_table <~
    liftS (defined (vec_range Vt_table 0 (inst_num_inputs ssp_inst + 1))) ;;
  Vt_table_minus_Xt_table <~
    liftS (defined (vec_range Vt_table (inst_num_inputs ssp_inst + 1)
                              (vsize Vt_table))) ;;
  (* sanity checks *)
  liftS (assert_ B (ret (vsize Vt_table =?
                         size_add (inst_num_variables ssp_inst) 2))) ;;~
  liftS (assert_ B (ret (vsize Ht_table =? size_add (inst_degree ssp_inst) 1))) ;;~
  liftS (assert_ B (ret (vsize Xt_table =?
                         size_add (inst_num_inputs ssp_inst) 1))) ;;~
  liftS (assert_ B (ret (vsize Vt_table_minus_Xt_table =?
                         size_sub (size_sub (size_add (inst_num_variables ssp_inst) 2)
                                            (inst_num_inputs ssp_inst)) 1))) ;;~
  liftS (for_loop (Z.to_nat (size_add (inst_num_inputs ssp_inst) 1)) 0
           (fun i => assert_ B (x <- defined (vec_at Xt_table i) ;;
                                ret (negb (fr_is_zero x))))) ;;~
  alpha <~ liftS draw ;;
  let g1_exp_count :=
    size_add (size_add (vsize Vt_table) (vsize Vt_table_minus_Xt_table))
             (vsize Ht_table) in
  let g2_exp_count := vsize Vt_table_minus_Xt_table in
  let g1_window := get_exp_window_size g1_type g1_exp_count in
  let g2_window := get_exp_window_size g2_type g2_exp_count in
  let g1_table := get_window_table g1_type fr_value_bits g1_window g_one in
  let g2_table := get_window_table g2_type fr_value_bits g2_window g_one in
  let V_g1_query :=
    to_special_if_mixed B g1_type
      (batch_exp fr_value_bits g1_window g1_table Vt_table_minus_Xt_table) in
  let alpha_V_g1_query :=
    to_special_if_mixed B g1_type
      (batch_exp_with_coeff fr_value_bits g1_window g1_table alpha
         Vt_table_minus_Xt_table) in
  let H_g1_query :=
    to_special_if_mixed B g1_type
      (batch_exp fr_value_bits g1_window g1_table Ht_table) in
  let V_g2_query :=
    to_special_if_mixed B g2_type
      (batch_exp fr_value_bits g2_window g2_table Vt_table) in
  tilde <~ liftS draw ;;
  let tilde_g2 : g2_type := g_mul tilde g_one in
  let alpha_tilde_g2 : g2_type := g_mul (fr_mul alpha tilde) g_one in
  let Z_g2 : g2_type := g_mul (Zt ssp_inst) g_one in
  Xt_0 <~ liftS (defined (vec_at Xt_table 0)) ;;
  let encoded_IC_base : g1_type := g_mul Xt_0 g_one in
  Xt_tail <~ liftS (defined (vec_range Xt_table 1 (vsize Xt_table))) ;;
  let encoded_IC_values :=
    batch_exp fr_value_bits g1_window g1_table Xt_tail in
  let encoded_IC_query :=
    make_accumulation_vector g1_type encoded_IC_base encoded_IC_values in
  let vk := {| tilde_g2 := tilde_g2; alpha_tilde_g2 := alpha_tilde_g2;
               Z_g2 := Z_g2; encoded_IC_query := encoded_IC_query |} in
  (* constraint_system cs_copy = cs; *)
  cs_copy <~ copy_construct cs ;;
  (* proving_key(..., std::move(cs_copy)): the member [cs] of the key is
     constructed from the copy *)
  pk_cs <~ move_from cs_copy ;;
  let pk := {| V_g1_query := V_g1_query; alpha_V_g1_query := alpha_V_g1_query;
               H_g1_query := H_g1_query; V_g2_query := V_g2_query;
               cs := pk_cs |} in
  (* return keypair(std::move(pk), std::move(vk)); cs_copy goes out of
     scope *)
  end_of_scope ;;~
  retS {| pk := pk; vk := vk |}.

End GeneratorByReference.

(** ** Size accounting of keys and proofs *)

Section Accounting.

Context {C : Curve} {R : Reduction}.

Definition size_mul (a b : size_t) : size_t := wrap (a * b).

(** [proving_key::G1_size] *)
Definition pk_G1_size (pk0 : proving_key) : size_t :=
  size_add (size_add (vsize (V_g1_query pk0)) (vsize (alpha_V_g1_query pk0)))
           (vsize (H_g1_query pk0)).

(** [proving_key::G2_size] *)
Definition pk_G2_size (pk0 : proving_key) : size_t := vsize (V_g2_query pk0).

(** [proving_key::G1_sparse_size] *)
Definition pk_G1_sparse_size (pk0 : proving_key) : size_t := pk_G1_size pk0.

(** [proving_key::G2_sparse_size] *)
Definition pk_G2_sparse_size (pk0 : proving_key) : size_t := pk_G2_size pk0.

(** [proving_key::size_in_bits] *)
Definition pk_size_in_bits (pk0 : proving_key) : size_t :=
  size_add (size_mul (g_value_bits g1_type) (pk_G1_size pk0))
           (size_mul (g_value_bits g2_type) (pk_G2_size pk0)).

(** [verification_key::G2_size] *)
Definition vk_G2_size (vk0 : verification_key) : size_t := 3.

(** [proof::G1_size] *)
Definition proof_G1_size (pi : proof) : size_t := 3.

(** [proof::G2_size] *)
Definition proof_G2_size (pi : proof) : size_t := 1.

(** [proof::size_in_bits] *)
Definition proof_size_in_bits (pi : proof) : size_t :=
  size_add (size_mul (proof_G1_size pi) (g_value_bits g1_type))
           (size_mul (proof_G2_size pi) (g_value_bits g2_type)).

End Accounting.

(** ** Specifications

    The notions the statements below are phrased in. *)

Section Specification.

Context {C : Curve} {R : Reduction}.

(** The three pairing equations of the online verifier, each a product of
    Miller loops followed by one final exponentiation. *)
Definition accumulated_input (pvk : processed_verification_key)
    (x : primary_input) : g1_type :=
  first (accumulate_chunk (pvk_encoded_IC_query pvk) x 0).

Definition equation_V (pvk : processed_verification_key) (x : primary_input)
    (pi : proof) : gt_type :=
  final_exponentiation
    (gt_mul
       (miller_loop (precompute_g1 (g_add (V_g1 pi) (accumulated_input pvk x)))
                    (pp_G2_one_precomp pvk))
       (unitary_inversed
          (miller_loop (pp_G1_one_precomp pvk) (precompute_g2 (V_g2 pi))))).

Definition equation_SSP (pvk : processed_verification_key) (x : primary_input)
    (pi : proof) : gt_type :=
  final_exponentiation
    (gt_mul
       (gt_mul
          (unitary_inversed
             (miller_loop
                (precompute_g1 (g_add (V_g1 pi) (accumulated_input pvk x)))
                (precompute_g2 (V_g2 pi))))
          (miller_loop (precompute_g1 (H_g1 pi)) (vk_Z_g2_precomp pvk)))
       (pairing_of_g1_and_g2 pvk)).

Definition equation_alpha (pvk : processed_verification_key) (pi : proof)
    : gt_type :=
  final_exponentiation
    (gt_mul
       (miller_loop (precompute_g1 (V_g1 pi)) (vk_alpha_tilde_g2_precomp pvk))
       (unitary_inversed
          (miller_loop (precompute_g1 (alpha_V_g1 pi))
                       (vk_tilde_g2_precomp pvk)))).

Definition accepting (pvk : processed_verification_key) (x : primary_input)
    (pi : proof) : Prop :=
  is_well_formed pi = true /\
  equation_V pvk x pi = gt_one /\
  equation_SSP pvk x pi = gt_one /\
  equation_alpha pvk pi = gt_one.

(** What one run of the online weak-IC verifier asks of the pairing
    library: the well-formedness check, then the three equations. *)
Definition weak_IC_calls : list event :=
  [EvWellFormed;
   EvPrecomputeG1; EvPrecomputeG2; EvMillerLoop; EvMillerLoop;
   EvFinalExponentiation;
   EvPrecomputeG1; EvMillerLoop; EvMillerLoop; EvFinalExponentiation;
   EvPrecomputeG1; EvPrecomputeG1; EvMillerLoop; EvMillerLoop;
   EvFinalExponentiation].

(** The assertions of the online weak-IC verifier. *)
Definition weak_IC_assertions (pvk : processed_verification_key)
    (x : primary_input) : bool :=
  (vsize x <=? domain_size (pvk_encoded_IC_query pvk)) &&
  is_fully_accumulated (accumulate_chunk (pvk_encoded_IC_query pvk) x 0).

Definition after (w : world) (calls : list event) : world :=
  {| rng := rng w; trace := trace w ++ calls |}.

(** The verdict computed by the body of the verifier. *)
Definition weak_IC_verdict (pvk : processed_verification_key)
    (x : primary_input) (pi : proof) : bool :=
  unless_one (equation_alpha pvk pi)
    (unless_one (equation_SSP pvk x pi)
       (unless_one (equation_V pvk x pi)
          (if negb (is_well_formed pi) then false else true))).

(** The trapdoor a run of the generator draws from the sampler, and the
    world the run leaves behind. *)
Definition drawn_t (w : world) : Fr := fst (random_element (rng w)).

Definition drawn_alpha (w : world) : Fr :=
  fst (random_element (snd (random_element (rng w)))).

Definition drawn_tilde (w : world) : Fr :=
  fst (random_element (snd (random_element (snd (random_element (rng w)))))).

Definition after_generator (w : world) : world :=
  {| rng := snd (random_element
                   (snd (random_element (snd (random_element (rng w))))));
     trace := trace w |}.

(** The generator's table [Vt_table], once [Zt] has been appended. *)
Definition Vt_table_of (inst : ssp_instance_evaluation) : list Fr :=
  Vt inst ++ [Zt inst].

(** What the generator's loop asserts of the entry [i] of [Xt_table]. *)
Definition nonzero_at (v : list Fr) (i : size_t) : bool :=
  match vec_at v i with
  | Some x => negb (fr_is_zero x)
  | None => false
  end.

(** The sanity checks of the generator on its tables. *)
Definition generator_assertions (inst : ssp_instance_evaluation)
    (Xt_table Vt_table_minus_Xt_table : list Fr) : bool :=
  (vsize (Vt_table_of inst) =? size_add (inst_num_variables inst) 2) &&
  (vsize (Ht inst) =? size_add (inst_degree inst) 1) &&
  (vsize Xt_table =? size_add (inst_num_inputs inst) 1) &&
  (vsize Vt_table_minus_Xt_table =?
   size_sub (size_sub (size_add (inst_num_variables inst) 2)
                      (inst_num_inputs inst)) 1) &&
  forallb (fun i => nonzero_at Xt_table (Z.of_nat i))
          (seq 0 (Z.to_nat (size_add (inst_num_inputs inst) 1))).

(** The keys assembled from the trapdoor [(t, alpha, tilde)], by the
    encodings of section 4.2: every query is the vector of the multiples of
    a generator by a slice of [Vt_table] or by [Ht]. *)
Definition encode (B : build) (G : group_type Fr) (v : list Fr) : list G :=
  let multiples := map (fun s => g_mul s (g_one : G)) v in
  if USE_MIXED_ADDITION B then map g_to_special multiples else multiples.

Definition generator_keypair (B : build) (cs0 : constraint_system)
    (inst : ssp_instance_evaluation) (alpha tilde : Fr)
    (Xt_0 : Fr) (Xt_tail Vt_table_minus_Xt_table : list Fr) : keypair :=
  {| pk := {| V_g1_query := encode B g1_type Vt_table_minus_Xt_table;
              alpha_V_g1_query :=
                encode B g1_type (map (fr_mul alpha) Vt_table_minus_Xt_table);
              H_g1_query := encode B g1_type (Ht inst);
              V_g2_query := encode B g2_type (Vt_table_of inst);
              cs := cs0 |};
     vk := {| tilde_g2 := g_mul tilde g_one;
              alpha_tilde_g2 := g_mul (fr_mul alpha tilde) g_one;
              Z_g2 := g_mul (Zt inst) g_one;
              encoded_IC_query :=
                make_accumulation_vector g1_type (g_mul Xt_0 g_one)
                  (map (fun s => g_mul s g_one) Xt_tail) |} |}.

(** The shape of an instance evaluation that the generator's sanity
    checks require: [Vt] holds [V_i(t)] for [i] in [[0, num_variables]],
    [Ht] the powers of [t] up to the degree. *)
Record well_shaped_instance (inst : ssp_instance_evaluation) : Prop := {
  inst_inputs_nonneg : 0 <= inst_num_inputs inst;
  inst_inputs_le_variables : inst_num_inputs inst <= inst_num_variables inst;
  inst_variables_bound : inst_num_variables inst + 2 < size_max;
  inst_degree_nonneg : 0 <= inst_degree inst;
  inst_degree_bound : inst_degree inst + 1 < size_max;
  inst_Vt_length : vsize (Vt inst) = inst_num_variables inst + 1;
  inst_Ht_length : vsize (Ht inst) = inst_degree inst + 1
}.

(** [V_i(t)] is non-zero for every [i] in [[0, num_inputs]]. *)
Definition inputs_nonzero (inst : ssp_instance_evaluation) : Prop :=
  forall i, 0 <= i <= inst_num_inputs inst -> nonzero_at (Vt inst) i = true.

(** The sizes the prover asserts of its proving key. *)
Definition prover_size_assertions (pk0 : proving_key) (wit : ssp_witness) : bool :=
  (vsize (V_g1_query pk0) =?
   size_sub (size_sub (size_add (wit_num_variables wit) 2)
                      (wit_num_inputs wit)) 1) &&
  (vsize (alpha_V_g1_query pk0) =?
   size_sub (size_sub (size_add (wit_num_variables wit) 2)
                      (wit_num_inputs wit)) 1) &&
  (vsize (H_g1_query pk0) =? size_add (wit_degree wit) 1) &&
  (vsize (V_g2_query pk0) =? size_add (wit_num_variables wit) 2).

(** [f 0 + (f 1 + ... (f (n - 1) + 0))] *)
Fixpoint g_sum (G : group_type Fr) (n : nat) (f : nat -> G) : G :=
  match n with
  | O => g_zero
  | S n' => g_add (f O) (g_sum G n' (fun j => f (S j)))
  end.

(** [MSM(points[a .. a + n), scalars[b .. b + n))]: the sum of the
    products [scalars[b + j] * points[a + j]]. *)
Definition MSM (G : group_type Fr) (points : list G) (a : nat)
    (scalars : list Fr) (b : nat) (n : nat) : G :=
  g_sum G n (fun j => g_mul (nth (b + j) scalars fr_zero)
                            (nth (a + j) points g_zero)).

(** [v[last]] *)
Definition last_of (G : group_type Fr) (v : list G) : G :=
  nth (length v - 1) v g_zero.

(** The proof of section 4.3, for the blinding scalar [d] and the
    witness [wit]. *)
Definition prover_proof (pk0 : proving_key) (d : Fr) (wit : ssp_witness) : proof :=
  let num_variables := Z.to_nat (wit_num_variables wit) in
  let num_inputs := Z.to_nat (wit_num_inputs wit) in
  let degree := Z.to_nat (wit_degree wit) in
  {| V_g1 :=
       g_add (g_mul d (last_of g1_type (V_g1_query pk0)))
             (MSM g1_type (V_g1_query pk0) 0
                  (coefficients_for_Vs wit) num_inputs
                  (num_variables - num_inputs));
     alpha_V_g1 :=
       g_add (g_mul d (last_of g1_type (alpha_V_g1_query pk0)))
             (MSM g1_type (alpha_V_g1_query pk0) 0
                  (coefficients_for_Vs wit) num_inputs
                  (num_variables - num_inputs));
     H_g1 :=
       MSM g1_type (H_g1_query pk0) 0 (coefficients_for_H wit) 0 (degree + 1);
     V_g2 :=
       g_add (g_add (nth 0 (V_g2_query pk0) g_zero)
                    (g_mul d (last_of g2_type (V_g2_query pk0))))
             (MSM g2_type (V_g2_query pk0) 1
                  (coefficients_for_Vs wit) 0 num_variables) |}.

(** The shapes of a proving key and of a witness for it: the sizes the
    prover asserts, and coefficient vectors long enough for the ranges it
    reads. *)
Record prover_shapes (pk0 : proving_key) (wit : ssp_witness) : Prop := {
  wit_inputs_nonneg : 0 <= wit_num_inputs wit;
  wit_inputs_le_variables : wit_num_inputs wit <= wit_num_variables wit;
  wit_variables_bound : wit_num_variables wit + 2 < size_max;
  wit_degree_nonneg : 0 <= wit_degree wit;
  wit_degree_bound : wit_degree wit + 1 < size_max;
  V_g1_query_length :
    vsize (V_g1_query pk0) = wit_num_variables wit - wit_num_inputs wit + 1;
  alpha_V_g1_query_length :
    vsize (alpha_V_g1_query pk0) =
    wit_num_variables wit - wit_num_inputs wit + 1;
  H_g1_query_length : vsize (H_g1_query pk0) = wit_degree wit + 1;
  V_g2_query_length : vsize (V_g2_query pk0) = wit_num_variables wit + 2;
  coefficients_for_Vs_length :
    wit_num_variables wit <= vsize (coefficients_for_Vs wit);
  coefficients_for_H_length :
    wit_degree wit + 1 <= vsize (coefficients_for_H wit)
}.

(** The processed form of a verification key. *)
Definition processed (vk0 : verification_key) : processed_verification_key :=
  {| pp_G1_one_precomp := precompute_g1 g_one;
     pp_G2_one_precomp := precompute_g2 g_one;
     vk_tilde_g2_precomp := precompute_g2 (tilde_g2 vk0);
     vk_alpha_tilde_g2_precomp := precompute_g2 (alpha_tilde_g2 vk0);
     vk_Z_g2_precomp := precompute_g2 (Z_g2 vk0);
     pairing_of_g1_and_g2 :=
       miller_loop (precompute_g1 g_one) (precompute_g2 g_one);
     pvk_encoded_IC_query := encoded_IC_query vk0 |}.

(** The build that differs from [B] only in that [assert] is compiled out. *)
Definition without_assertions (B : build) : build :=
  {| NDEBUG := true;
     USE_MIXED_ADDITION := USE_MIXED_ADDITION B;
     MULTICORE := MULTICORE B |}.

(** An element as a query stores it: normalised under
    [USE_MIXED_ADDITION]. *)
Definition special_if_mixed (B : build) (G : group_type Fr) (P : G) : G :=
  if USE_MIXED_ADDITION B then g_to_special P else P.

(** The world after one draw of the sampler: what a run of the prover
    leaves behind, and a run of the generator that stops before its second
    draw. *)
Definition after_prover (w : world) : world :=
  {| rng := snd (random_element (rng w)); trace := trace w |}.

(** The satisfaction and size checks of the prover. *)
Definition prover_assertions (pk0 : proving_key) (x : primary_input)
    (y : auxiliary_input) (wit : ssp_witness) : bool :=
  is_satisfied (cs pk0) x y && prover_size_assertions pk0 wit.

(** The vector accesses of the prover and the proof computed from them;
    [None] when an access falls outside its vector. *)
Definition option_bind {A A'} (o : option A) (k : A -> option A') : option A' :=
  match o with
  | Some a => k a
  | None => None
  end.

Definition prover_computation (B : build) (pk0 : proving_key)
    (wit : ssp_witness) : option proof :=
  let num_variables := wit_num_variables wit in
  let num_inputs := wit_num_inputs wit in
  let degree := wit_degree wit in
  option_bind (vec_at (V_g1_query pk0) (size_sub (vsize (V_g1_query pk0)) 1))
    (fun V_g1_last =>
  option_bind (vec_at (alpha_V_g1_query pk0)
                      (size_sub (vsize (alpha_V_g1_query pk0)) 1))
    (fun alpha_V_g1_last =>
  option_bind (vec_at (V_g2_query pk0) 0) (fun V_g2_0 =>
  option_bind (vec_at (V_g2_query pk0) (size_sub (vsize (V_g2_query pk0)) 1))
    (fun V_g2_last =>
  option_bind (vec_range (V_g1_query pk0) 0 (size_sub num_variables num_inputs))
    (fun points1 =>
  option_bind (vec_range (coefficients_for_Vs wit) num_inputs num_variables)
    (fun scalars1 =>
  option_bind (vec_range (alpha_V_g1_query pk0) 0
                         (size_sub num_variables num_inputs))
    (fun points2 =>
  option_bind (vec_range (coefficients_for_Vs wit) num_inputs num_variables)
    (fun scalars2 =>
  option_bind (vec_range (H_g1_query pk0) 0 (degree + 1)) (fun points3 =>
  option_bind (vec_range (coefficients_for_H wit) 0 (degree + 1))
    (fun scalars3 =>
  option_bind (vec_range (V_g2_query pk0) 1 (num_variables + 1)) (fun points4 =>
  option_bind (vec_range (coefficients_for_Vs wit) 0 num_variables)
    (fun scalars4 =>
  Some {| V_g1 := g_add (g_mul (wit_d wit) V_g1_last)
                        (multiexp g1_type points1 scalars1 (chunks B));
          alpha_V_g1 := g_add (g_mul (wit_d wit) alpha_V_g1_last)
                              (multiexp g1_type points2 scalars2 (chunks B));
          H_g1 := g_add g_zero (multiexp g1_type points3 scalars3 (chunks B));
          V_g2 := g_add (g_add V_g2_0 (g_mul (wit_d wit) V_g2_last))
                        (multiexp g2_type points4 scalars4 (chunks B)) |})))))))))))).

(** What processing a verification key asks of the pairing library. *)
Definition process_vk_calls : list event :=
  [EvPrecomputeG1; EvPrecomputeG2; EvPrecomputeG2; EvPrecomputeG2;
   EvPrecomputeG2; EvMillerLoop].

End Specification.

(** ** Laws of the algebraic interface

    What the statements that depend on the algebra assume of the curve:
    the identity and the zero scalar of [G1], the generators being well
    formed, and the pairing of the [G1] generator telling the multiples of
    the [G2] generator apart. *)

Class CurveLaws (C : Curve) : Prop := {
  g1_add_zero_l : forall P : g1_type, g_add g_zero P = P;
  g1_mul_zero : forall P : g1_type, g_mul fr_zero P = g_zero;
  g1_one_well_formed : g_is_well_formed (g_one : g1_type) = true;
  g2_one_well_formed : g_is_well_formed (g_one : g2_type) = true;
  pairing_generator_injective :
    forall a b : Fr,
      final_exponentiation
        (gt_mul
           (miller_loop (precompute_g1 g_one) (precompute_g2 (g_mul a g_one)))
           (unitary_inversed
              (miller_loop (precompute_g1 g_one)
                           (precompute_g2 (g_mul b g_one))))) = gt_one ->
      g_mul a (g_one : g2_type) = g_mul b g_one
}.

(** What the statements on the pairing equations assume of the target
    group beside [CurveLaws]: [GT] is a commutative monoid on the image of
    the final exponentiation, which is multiplicative; an element either is
    inverted by [unitary_inversed] up to the final exponentiation or
    annihilates every product (the zero of the field); and the pairing with
    the [G1] generator is one on no multiple of the [G2] generator but the
    identity. *)
Class PairingLaws (C : Curve) : Prop := {
  final_exponentiation_mul :
    forall a b : gt_type,
      final_exponentiation (gt_mul a b) =
      gt_mul (final_exponentiation a) (final_exponentiation b);
  gt_mul_assoc :
    forall a b c : gt_type, gt_mul a (gt_mul b c) = gt_mul (gt_mul a b) c;
  gt_mul_comm : forall a b : gt_type, gt_mul a b = gt_mul b a;
  gt_mul_one_l :
    forall a : gt_type,
      gt_mul gt_one (final_exponentiation a) = final_exponentiation a;
  unitary_inversed_or_zero :
    forall a : gt_type,
      gt_mul (final_exponentiation (unitary_inversed a))
             (final_exponentiation a) = gt_one \/
      (forall b : gt_type, final_exponentiation (gt_mul a b) <> gt_one);
  pairing_generator_nondegenerate :
    forall a : Fr,
      final_exponentiation
        (miller_loop (precompute_g1 g_one) (precompute_g2 (g_mul a g_one))) =
      gt_one ->
      g_mul a (g_one : g2_type) = g_zero
}.

(** ** A small instance

    The interface instantiated at the groups [G1 = G2 = Z/17] (additive,
    generator [1]) with a pairing into the subgroup of order 17 of the
    units of [Z/103], factored as the Miller loop [5 ^ (a * b)] and the
    final exponentiation [x ^ ((103 - 1) / 17)].  Integers outside
    [[0, 17)] stand for points that are not well formed. *)

Module Toy.

Definition r : Z := 17.
Definition q : Z := 103.

Definition point_add (a b : Z) : Z :=
  if b =? 0 then a else if a =? 0 then b else (a + b) mod r.

Definition point_mul (s a : Z) : Z := (s * a) mod r.

Definition point_is_well_formed (a : Z) : bool := (0 <=? a) && (a <? r).

Definition toy_group : group_type Z :=
  {| value_type := Z;
     g_zero := 0;
     g_one := 1;
     g_add := point_add;
     g_mul := point_mul;
     g_is_well_formed := point_is_well_formed;
     g_to_special := fun a => a;
     g_value_bits := 5;
     get_exp_window_size := fun _ => 1 |}.

Definition toy_miller_loop (a b : Z) : Z :=
  if point_is_well_formed a && point_is_well_formed b
  then 5 ^ (a * b) mod q
  else 0.

(** The sampler reads a tape of field elements. *)
Definition toy_random_element (tape : list Z) : Z * list Z :=
  match tape with
  | [] => (0, [])
  | x :: tape' => (x mod r, tape')
  end.

#[export] Instance toy_curve : Curve :=
  {| Fr := Z;
     fr_zero := 0;
     fr_mul := fun a b => (a * b) mod r;
     fr_is_zero := fun a => a mod r =? 0;
     fr_value_bits := 5;
     Rng := list Z;
     random_element := toy_random_element;
     g1_type := toy_group;
     g2_type := toy_group;
     G1_precomp := Z;
     G2_precomp := Z;
     gt_type := Z;
     gt_one := 1;
     gt_mul := fun a b => (a * b) mod q;
     unitary_inversed := fun a => a ^ (q - 2) mod q;
     gt_eq_dec := Z.eq_dec;
     precompute_g1 := fun a => a;
     precompute_g2 := fun a => a;
     miller_loop := toy_miller_loop;
     final_exponentiation := fun a => a ^ ((q - 1) / r) mod q |}.

(** The pairing of the generator of [G1] with an element of [G2],
    divided by its pairing with another. *)
Definition toy_pairing_quotient (u v : Z) : Z :=
  final_exponentiation
    (gt_mul (miller_loop (precompute_g1 g_one) (precompute_g2 u))
            (unitary_inversed
               (miller_loop (precompute_g1 g_one) (precompute_g2 v)))).

(** *** The reduction over [Z/17] *)

(** A USCS constraint system: every constraint is the coefficient vector
    of a linear form over [(1, x_1 .. x_num_inputs, y_1 ..)]. *)
Record toy_constraint_system : Type := {
  num_inputs : Z;
  num_variables : Z;
  constraints : list (list Z)
}.

Definition dot (c a : list Z) : Z :=
  fold_right (fun ca s => (fst ca * snd ca + s) mod r) 0 (combine c a).

Definition toy_is_satisfied (cs0 : toy_constraint_system) (x y : list Z) : bool :=
  (vsize x =? num_inputs cs0) && (vsize (x ++ y) =? num_variables cs0) &&
  forallb (fun c => (dot c (1 :: x ++ y)) ^ 2 mod r =? 1) (constraints cs0).

(** The evaluation domain: the smallest subgroup of the units of [Z/17]
    whose order is a power of two and at least [num_constraints + 1]. *)
Definition domain_order (cs0 : toy_constraint_system) : Z :=
  let m := vsize (constraints cs0) + 1 in
  if m <=? 1 then 1 else if m <=? 2 then 2 else if m <=? 4 then 4
  else if m <=? 8 then 8 else 16.

Definition domain_root (n : Z) : Z :=
  if n =? 1 then 1 else if n =? 2 then 16 else if n =? 4 then 4
  else if n =? 8 then 2 else 3.

Definition inverse (a : Z) : Z := a ^ (r - 2) mod r.

Definition indices (n : Z) : list Z := map Z.of_nat (seq 0 (Z.to_nat n)).

(** The unused points of the domain carry the constraint [1 ^ 2 = 1]. *)
Definition padded_constraints (cs0 : toy_constraint_system) : list (list Z) :=
  constraints cs0 ++
  repeat [1] (Z.to_nat (domain_order cs0) - length (constraints cs0)).

(** The coefficients of [V_i]: the polynomial of degree below the domain
    order that takes, at the [k]-th root of unity, the [i]-th coefficient
    of the [k]-th constraint. *)
Definition V_poly (cs0 : toy_constraint_system) (i : Z) : list Z :=
  let n := domain_order cs0 in
  let w := inverse (domain_root n) in
  map (fun j =>
         (inverse n *
          fold_right (fun kc s => (nth (Z.to_nat i) (snd kc) 0 * w ^ (fst kc * j) + s) mod r)
                     0 (combine (indices n) (padded_constraints cs0))) mod r)
      (indices n).

Definition poly_eval (p : list Z) (t : Z) : Z :=
  fold_right (fun c s => (c + t * s) mod r) 0 p.

(** Modelled from the spec: the instance map of the reduction.  [Vt] holds
    [V_i(t)] for [i] in [[0, num_variables]], the length the generator's
    sanity check requires.  The map is meant for non-empty systems with
    [num_inputs <= num_variables], the ones the spec's reduction accepts;
    its [InvalidShape] failure on the others is not modelled, and no
    statement applies the map to one. *)
Definition toy_instance_map (cs0 : toy_constraint_system) (t : Z)
    : ssp_instance_evaluation :=
  let n := domain_order cs0 in
  {| Vt := map (fun i => poly_eval (V_poly cs0 i) t) (indices (num_variables cs0 + 1));
     Ht := map (fun k => t ^ k mod r) (indices (n + 1));
     Zt := (t ^ n - 1) mod r;
     inst_num_variables := num_variables cs0;
     inst_num_inputs := num_inputs cs0;
     inst_degree := n |}.

Fixpoint poly_add (p p' : list Z) : list Z :=
  match p, p' with
  | [], _ => p'
  | _, [] => p
  | c :: p0, c' :: p0' => (c + c') mod r :: poly_add p0 p0'
  end.

Definition poly_scale (s : Z) (p : list Z) : list Z :=
  map (fun c => (s * c) mod r) p.

Fixpoint poly_mul (p p' : list Z) : list Z :=
  match p with
  | [] => []
  | c :: p0 => poly_add (poly_scale c p') (0 :: poly_mul p0 p')
  end.

(** Modelled from the spec: the witness map of the reduction.  With
    [P0 = V_0 + sum a_i V_i] and [Z = X^n - 1], the quotient of
    [(P0 + d Z)^2 - 1] by [Z] is [(P0^2 - 1) / Z + 2 d P0 + d^2 Z]. *)
Definition toy_witness_map (cs0 : toy_constraint_system) (x y : list Z) (d : Z)
    : ssp_witness :=
  let n := domain_order cs0 in
  let a := x ++ y in
  let P0 :=
    fold_right (fun ia p => poly_add (poly_scale (snd ia) (V_poly cs0 (fst ia))) p)
               (V_poly cs0 0)
               (combine (map (Z.add 1) (indices (num_variables cs0))) a) in
  let square_minus_one := poly_add (poly_mul P0 P0) [r - 1] in
  let Zpoly := poly_add [r - 1] (map (fun _ => 0) (indices n) ++ [1]) in
  let quotient := skipn (Z.to_nat n) square_minus_one in
  {| wit_d := d mod r;
     coefficients_for_Vs := a;
     coefficients_for_H :=
       poly_add (poly_add quotient (poly_scale (2 * d) P0))
                (poly_scale (d * d) Zpoly);
     wit_num_variables := num_variables cs0;
     wit_num_inputs := num_inputs cs0;
     wit_degree := n |}.

#[export] Instance toy_reduction : Reduction :=
  {| constraint_system := toy_constraint_system;
     is_satisfied := toy_is_satisfied;
     instance_map_with_evaluation := toy_instance_map;
     witness_map := toy_witness_map |}.

(** *** Builds and sample inputs *)

Definition debug_build : build :=
  {| NDEBUG := false; USE_MIXED_ADDITION := false; MULTICORE := None |}.

Definition release_build : build :=
  {| NDEBUG := true; USE_MIXED_ADDITION := true; MULTICORE := Some 4 |}.

Definition start (tape : list Z) : world := {| rng := tape; trace := [] |}.

(** Two constraints over one input and one auxiliary variable:
    [(2 + x1)^2 = 1] and [(x1 + 2 y1)^2 = 1]. *)
Definition cs2 : toy_constraint_system :=
  {| num_inputs := 1; num_variables := 2;
     constraints := [[2; 1; 0]; [0; 1; 2]] |}.

(** Two constraints over two inputs and one auxiliary variable:
    [(2 + x1 + x2)^2 = 1] and [(x2 + y1)^2 = 1]. *)
Definition cs3 : toy_constraint_system :=
  {| num_inputs := 2; num_variables := 3;
     constraints := [[2; 1; 1; 0]; [0; 0; 1; 1]] |}.

Definition encoded_IC3 : accumulation_vector g1_type :=
  @Build_accumulation_vector toy_curve toy_group 6 [(0, 10); (1, 15)].

(** The keys the generator derives for [cs3] from the trapdoor
    [t = 3], [alpha = 2], [tilde = 4]. *)
Definition keypair3 : keypair :=
  {| pk := {| V_g1_query := [5; 12];
              alpha_V_g1_query := [10; 7];
              H_g1_query := [1; 3; 9; 10; 13];
              V_g2_query := [6; 10; 15; 5; 12];
              cs := cs3 |};
     vk := {| tilde_g2 := 4;
              alpha_tilde_g2 := 8;
              Z_g2 := 12;
              encoded_IC_query := encoded_IC3 |} |}.

Definition pvk3 : processed_verification_key :=
  {| pp_G1_one_precomp := 1;
     pp_G2_one_precomp := 1;
     vk_tilde_g2_precomp := 4;
     vk_alpha_tilde_g2_precomp := 8;
     vk_Z_g2_precomp := 12;
     pairing_of_g1_and_g2 := 5;
     pvk_encoded_IC_query := encoded_IC3 |}.

(** The proof the prover derives under [keypair3] for the inputs
    [x = (14, 0)], [y = (16)] with the blinding scalar [d = 9]. *)
Definition proof3 : proof :=
  {| V_g1 := 1; alpha_V_g1 := 2; H_g1 := 10; V_g2 := 11 |}.

(** The keys the generator derives for [cs3] from the trapdoor
    [t = 3], [alpha = 1], [tilde = 4]: [alpha_tilde_g2] and [tilde_g2]
    coincide, [Z_g2] is not the identity. *)
Definition keypair3_alpha_one : keypair :=
  {| pk := {| V_g1_query := [5; 12];
              alpha_V_g1_query := [5; 12];
              H_g1_query := [1; 3; 9; 10; 13];
              V_g2_query := [6; 10; 15; 5; 12];
              cs := cs3 |};
     vk := {| tilde_g2 := 4;
              alpha_tilde_g2 := 4;
              Z_g2 := 12;
              encoded_IC_query := encoded_IC3 |} |}.

(** A store of the caller: two constraint systems, the second the
    argument of the generator. *)
Definition caller_store : store := [Holding cs2; Holding cs3].

(** A degenerate trapdoor: [t = 1] is a root of the vanishing polynomial
    and [alpha = 1].  The keys the generator derives from it for [cs2]. *)
Definition degenerate_keypair : keypair :=
  {| pk := {| V_g1_query := [0; 0];
              alpha_V_g1_query := [0; 0];
              H_g1_query := [1; 1; 1; 1; 1];
              V_g2_query := [2; 1; 0; 0];
              cs := cs2 |};
     vk := {| tilde_g2 := 4;
              alpha_tilde_g2 := 4;
              Z_g2 := 0;
              encoded_IC_query :=
                @Build_accumulation_vector toy_curve toy_group 2 [(0, 1)] |} |}.

(** An instance map whose [Vt] carries one more entry, for the dummy
    variable, than the generator's sanity check allows. *)
Definition padded_instance_map (cs0 : toy_constraint_system) (t : Z)
    : ssp_instance_evaluation :=
  let inst := toy_instance_map cs0 t in
  {| Vt := Vt inst ++ [Zt inst];
     Ht := Ht inst;
     Zt := Zt inst;
     inst_num_variables := inst_num_variables inst;
     inst_num_inputs := inst_num_inputs inst;
     inst_degree := inst_degree inst |}.

Definition padded_reduction : Reduction :=
  {| constraint_system := toy_constraint_system;
     is_satisfied := toy_is_satisfied;
     instance_map_with_evaluation := padded_instance_map;
     witness_map := toy_witness_map |}.

(** Two constraints over two inputs and one auxiliary variable in which
    the second input does not occur: [(2 + x1)^2 = 1] and
    [(x1 + y1)^2 = 1].  [V_2] is the zero polynomial. *)
Definition cs_unused_input : toy_constraint_system :=
  {| num_inputs := 2; num_variables := 3;
     constraints := [[2; 1; 0; 0]; [0; 1; 0; 1]] |}.

(** [proof3] with a first component outside the group. *)
Definition malformed_proof : proof :=
  {| V_g1 := 17; alpha_V_g1 := 2; H_g1 := 10; V_g2 := 11 |}.

End Toy.

Unset Implicit Arguments.

(** ** Runs in the monad *)

Section Runs.

Context {C : Curve}.

Lemma bind_run {A A'} (m : M A) (k : A -> M A') w a w' :
  m w = (Ret a, w') -> bind m k w = k a w'.
Proof. unfold bind. now intros ->. Qed.

Lemma bind_fail {A A'} (m : M A) (k : A -> M A') w f w' :
  m w = (Fail f, w') -> bind m k w = (Fail f, w').
Proof. unfold bind. now intros ->. Qed.

Lemma bind_ret_r {A} (m : M A) w : bind m (fun a => ret a) w = m w.
Proof. unfold bind. destruct (m w) as [[a|f] w']; reflexivity. Qed.

Lemma bind_inv {A A'} (m : M A) (k : A -> M A') w b w' :
  bind m k w = (Ret b, w') ->
  exists a w1, m w = (Ret a, w1) /\ k a w1 = (Ret b, w').
Proof.
  unfold bind. destruct (m w) as [[a|f] w1]; intros H.
  - now exists a, w1.
  - discriminate.
Qed.

Lemma ret_inv {A} (a b : A) (w w' : world) :
  ret a w = (Ret b, w') -> a = b /\ w' = w.
Proof. unfold ret. intros H. inversion H. auto. Qed.

Lemma defined_inv {A} (o : option A) a (w w' : world) :
  defined o w = (Ret a, w') -> o = Some a /\ w' = w.
Proof.
  destruct o as [a0|]; cbn; unfold ret, fail; intros H; inversion H; auto.
Qed.

Lemma draw_run (w : world) :
  draw w = (Ret (fst (random_element (rng w))),
            {| rng := snd (random_element (rng w)); trace := trace w |}).
Proof. unfold draw. destruct (random_element (rng w)); reflexivity. Qed.

Lemma assert_run (B : build) (c : bool) (w : world) :
  assert_ B (ret c) w =
  if NDEBUG B || c then (Ret tt, w) else (Fail AssertionFailed, w).
Proof. unfold assert_. destruct (NDEBUG B), c; reflexivity. Qed.

Lemma assert_inv (B : build) (c : bool) (w w' : world) u :
  assert_ B (ret c) w = (Ret u, w') -> w' = w /\ (NDEBUG B = true \/ c = true).
Proof.
  rewrite assert_run. destruct (NDEBUG B), c; cbn; intros H; inversion H; auto.
Qed.

Lemma assert_nonzero_run (B : build) (v : list Fr) (i : size_t) (w : world) :
  NDEBUG B = true \/ nonzero_at v i = true ->
  assert_ B (x <- defined (vec_at v i) ;; ret (negb (fr_is_zero x))) w = (Ret tt, w).
Proof.
  unfold assert_, nonzero_at. destruct (NDEBUG B); [reflexivity|].
  intros [H|H]; [discriminate|].
  destruct (vec_at v i) as [x|]; [|discriminate].
  cbn. unfold bind. cbn. now rewrite H.
Qed.

Lemma assert_nonzero_inv (B : build) (v : list Fr) (i : size_t) (w w' : world) u :
  assert_ B (x <- defined (vec_at v i) ;; ret (negb (fr_is_zero x))) w = (Ret u, w') ->
  w' = w /\ (NDEBUG B = true \/ nonzero_at v i = true).
Proof.
  unfold assert_, nonzero_at. destruct (NDEBUG B).
  - intros H. inversion H. auto.
  - destruct (vec_at v i) as [x|]; cbn; unfold bind; cbn.
    + destruct (fr_is_zero x); cbn; intros H; inversion H; auto.
    + intros H. inversion H.
Qed.

Lemma for_loop_nonzero_run (B : build) (v : list Fr) (count : nat) (i : nat)
    (w : world) :
  NDEBUG B = true \/
  forallb (fun j => nonzero_at v (Z.of_nat j)) (seq i count) = true ->
  for_loop count (Z.of_nat i)
    (fun i => assert_ B (x <- defined (vec_at v i) ;; ret (negb (fr_is_zero x)))) w
  = (Ret tt, w).
Proof.
  revert i. induction count as [|count IH]; intros i H; cbn [for_loop].
  - reflexivity.
  - erewrite bind_run.
    2:{ apply assert_nonzero_run. destruct H as [H|H]; [now left|right].
        cbn in H. now apply andb_true_iff in H. }
    replace (Z.of_nat i + 1) with (Z.of_nat (S i)) by lia.
    apply IH. destruct H as [H|H]; [now left|right].
    cbn in H. now apply andb_true_iff in H.
Qed.

Lemma for_loop_nonzero_inv (B : build) (v : list Fr) (count : nat) (i : nat)
    (w w' : world) u :
  for_loop count (Z.of_nat i)
    (fun i => assert_ B (x <- defined (vec_at v i) ;; ret (negb (fr_is_zero x)))) w
  = (Ret u, w') ->
  w' = w /\
  (NDEBUG B = true \/
   forallb (fun j => nonzero_at v (Z.of_nat j)) (seq i count) = true).
Proof.
  revert i w. induction count as [|count IH]; intros i w H; cbn [for_loop] in H.
  - apply ret_inv in H. destruct H as [_ ->]. split; [reflexivity|now right].
  - apply bind_inv in H. destruct H as (u1 & w1 & H1 & H2).
    apply assert_nonzero_inv in H1. destruct H1 as [-> H1].
    replace (Z.of_nat i + 1) with (Z.of_nat (S i)) in H2 by lia.
    apply IH in H2. destruct H2 as [-> H2]. split; [reflexivity|].
    destruct H1 as [H1|H1]; [now left|].
    destruct H2 as [H2|H2]; [now left|right].
    cbn. now rewrite H1, H2.
Qed.

End Runs.

(** ** Properties of the verifiers *)

Section VerifierProperties.

Context {C : Curve} {R : Reduction}.

Lemma after_nil (w : world) : after w [] = w.
Proof. destruct w; unfold after; cbn. now rewrite app_nil_r. Qed.

Lemma unless_one_true (X : gt_type) (b : bool) :
  unless_one X b = true <-> X = gt_one /\ b = true.
Proof.
  unfold unless_one. destruct (gt_eq_dec X gt_one); intuition congruence.
Qed.

Lemma weak_IC_verdict_true pvk x pi :
  weak_IC_verdict pvk x pi = true <-> accepting pvk x pi.
Proof.
  unfold weak_IC_verdict, accepting. rewrite !unless_one_true.
  destruct (is_well_formed pi); cbn; intuition congruence.
Qed.

Lemma online_verifier_weak_IC_run (B : build) pvk x pi w :
  online_verifier_weak_IC B pvk x pi w =
  if NDEBUG B || weak_IC_assertions pvk x
  then (Ret (weak_IC_verdict pvk x pi), after w weak_IC_calls)
  else (Fail AssertionFailed, w).
Proof.
  unfold online_verifier_weak_IC, weak_IC_assertions, assert_.
  destruct (NDEBUG B); cbn.
  - unfold after. cbn. repeat rewrite <- app_assoc. reflexivity.
  - unfold bind at 1. unfold bind at 1. cbn.
    destruct (vsize x <=? _); cbn; [|reflexivity].
    unfold bind at 1. unfold bind at 1. cbn.
    destruct (is_fully_accumulated _); cbn; [|reflexivity].
    unfold after. cbn. repeat rewrite <- app_assoc. reflexivity.
Qed.

(** X20: on every run that completes -- the input no longer than the
    domain of the encoded IC query and, where assertions are compiled in,
    the accumulated vector fully accumulated -- the online weak-IC verifier
    returns [true] exactly when the proof is well formed and each of the
    three pairing equations evaluates to the identity of GT; whatever the
    verdict, the run performs the well-formedness check and all three
    equations, in the same order. *)
Theorem online_verifier_weak_IC_accepts_iff (B : build) pvk x pi w :
  vsize x <= domain_size (pvk_encoded_IC_query pvk) ->
  NDEBUG B = true \/
  is_fully_accumulated (accumulate_chunk (pvk_encoded_IC_query pvk) x 0) = true ->
  exists verdict,
    online_verifier_weak_IC B pvk x pi w = (Ret verdict, after w weak_IC_calls) /\
    (verdict = true <-> accepting pvk x pi) /\
    count_occ event_eq_dec weak_IC_calls EvWellFormed = 1%nat /\
    count_occ event_eq_dec weak_IC_calls EvFinalExponentiation = 3%nat.
Proof.
  intros Hsize Hassert.
  exists (weak_IC_verdict pvk x pi).
  rewrite online_verifier_weak_IC_run.
  assert (Hrun : NDEBUG B || weak_IC_assertions pvk x = true).
  { destruct Hassert as [-> | Hfull]; [reflexivity|].
    unfold weak_IC_assertions. rewrite Hfull.
    apply Z.leb_le in Hsize. rewrite Hsize. apply orb_true_r. }
  rewrite Hrun. split; [reflexivity|].
  split; [apply weak_IC_verdict_true|]. split; reflexivity.
Qed.

(** Every run of the online weak-IC verifier that returns has made the
    same calls, whatever the proof and the verdict. *)
Lemma online_verifier_weak_IC_constant_work (B : build) pvk x pi w verdict w' :
  online_verifier_weak_IC B pvk x pi w = (Ret verdict, w') ->
  w' = after w weak_IC_calls /\ verdict = weak_IC_verdict pvk x pi.
Proof.
  rewrite online_verifier_weak_IC_run.
  destruct (NDEBUG B || weak_IC_assertions pvk x); intros H; inversion H; auto.
Qed.

(** C4: the online strong-IC verifier returns [false], leaving the world
    as it found it (no call to the pairing library is made), whenever the
    domain size of the encoded IC query differs from the input length; and
    otherwise it is the online weak-IC verifier. *)
Theorem online_verifier_strong_IC_cases (B : build) pvk x pi w :
  (domain_size (pvk_encoded_IC_query pvk) <> vsize x ->
   online_verifier_strong_IC B pvk x pi w = (Ret false, w)) /\
  (domain_size (pvk_encoded_IC_query pvk) = vsize x ->
   online_verifier_strong_IC B pvk x pi w = online_verifier_weak_IC B pvk x pi w).
Proof.
  unfold online_verifier_strong_IC. split; intros Hsize.
  - apply Z.eqb_neq in Hsize. rewrite Hsize. reflexivity.
  - apply Z.eqb_eq in Hsize. rewrite Hsize. cbn [negb].
    apply bind_ret_r.
Qed.

(** What processing a verification key asks of the pairing library. *)
Lemma verifier_process_vk_run vk0 w :
  verifier_process_vk vk0 w = (Ret (processed vk0), after w process_vk_calls).
Proof.
  unfold verifier_process_vk, processed, after, process_vk_calls. cbn.
  repeat rewrite <- app_assoc. reflexivity.
Qed.

Lemma verifier_weak_IC_run (B : build) vk0 x pi w :
  verifier_weak_IC B vk0 x pi w =
  online_verifier_weak_IC B (processed vk0) x pi (after w process_vk_calls).
Proof.
  unfold verifier_weak_IC.
  erewrite bind_run by apply verifier_process_vk_run. apply bind_ret_r.
Qed.

Lemma verifier_strong_IC_run (B : build) vk0 x pi w :
  verifier_strong_IC B vk0 x pi w =
  online_verifier_strong_IC B (processed vk0) x pi (after w process_vk_calls).
Proof.
  unfold verifier_strong_IC.
  erewrite bind_run by apply verifier_process_vk_run. apply bind_ret_r.
Qed.

Lemma online_verifier_strong_IC_run (B : build) pvk x pi w :
  online_verifier_strong_IC B pvk x pi w =
  if domain_size (pvk_encoded_IC_query pvk) =? vsize x
  then online_verifier_weak_IC B pvk x pi w
  else (Ret false, w).
Proof.
  unfold online_verifier_strong_IC.
  destruct (domain_size (pvk_encoded_IC_query pvk) =? vsize x); cbn [negb].
  - apply bind_ret_r.
  - reflexivity.
Qed.

(** C3: the processed verification key caches in [pairing_of_g1_and_g2]
    the Miller-loop value of the two generators: processing calls the
    Miller loop once and the final exponentiation never.  The final
    exponentiation is applied by the online verifier: its verdict is
    [true] exactly when the proof is well formed, equations V and alpha
    hold, and the one final exponentiation of the whole product
    [SSP_1^-1 * SSP_2 * miller_loop (G1, G2)] is the identity of GT. *)
Theorem verifier_process_vk_caches_miller_loop vk0 w :
  exists pvk w',
    verifier_process_vk vk0 w = (Ret pvk, w') /\
    pairing_of_g1_and_g2 pvk =
      miller_loop (precompute_g1 g_one) (precompute_g2 g_one) /\
    (exists calls,
       trace w' = trace w ++ calls /\
       count_occ event_eq_dec calls EvMillerLoop = 1%nat /\
       count_occ event_eq_dec calls EvFinalExponentiation = 0%nat) /\
    forall (B : build) x pi w2,
      exists verdict,
        online_verifier_weak_IC B pvk x pi w2 =
          (if NDEBUG B || weak_IC_assertions pvk x
           then (Ret verdict, after w2 weak_IC_calls)
           else (Fail AssertionFailed, w2)) /\
        (verdict = true <->
         is_well_formed pi = true /\
         equation_V pvk x pi = gt_one /\
         final_exponentiation
           (gt_mul
              (gt_mul
                 (unitary_inversed
                    (miller_loop
                       (precompute_g1 (g_add (V_g1 pi) (accumulated_input pvk x)))
                       (precompute_g2 (V_g2 pi))))
                 (miller_loop (precompute_g1 (H_g1 pi))
                              (precompute_g2 (Z_g2 vk0))))
              (miller_loop (precompute_g1 g_one) (precompute_g2 g_one))) = gt_one /\
         equation_alpha pvk pi = gt_one).
Proof.
  exists (processed vk0), (after w process_vk_calls).
  split; [apply verifier_process_vk_run|]. split; [reflexivity|].
  split; [exists process_vk_calls; repeat split; reflexivity|].
  intros B x pi w2. exists (weak_IC_verdict (processed vk0) x pi).
  split.
  - rewrite online_verifier_weak_IC_run.
    destruct (NDEBUG B || weak_IC_assertions (processed vk0) x); reflexivity.
  - exact (weak_IC_verdict_true (processed vk0) x pi).
Qed.

(** C6: each offline verifier is the online verifier of the same strength
    run on the processed key, in the world processing leaves behind. *)
Theorem offline_verifiers_process_then_online (B : build) vk0 x pi w :
  exists pvk w',
    verifier_process_vk vk0 w = (Ret pvk, w') /\
    verifier_weak_IC B vk0 x pi w = online_verifier_weak_IC B pvk x pi w' /\
    verifier_strong_IC B vk0 x pi w = online_verifier_strong_IC B pvk x pi w'.
Proof.
  exists (processed vk0), (after w process_vk_calls).
  split; [apply verifier_process_vk_run|].
  split; [apply verifier_weak_IC_run | apply verifier_strong_IC_run].
Qed.

End VerifierProperties.

(** ** Vectors *)

Section Vectors.

Context {A : Type}.

Lemma vsize_nonneg (v : list A) : 0 <= vsize v.
Proof. unfold vsize. lia. Qed.

Lemma vsize_app (v v' : list A) : vsize (v ++ v') = vsize v + vsize v'.
Proof. unfold vsize. rewrite length_app. lia. Qed.

Lemma vsize_map {A'} (f : A -> A') (v : list A) : vsize (map f v) = vsize v.
Proof. unfold vsize. now rewrite length_map. Qed.

Lemma vec_range_inv (v l : list A) (a b : size_t) :
  vec_range v a b = Some l ->
  0 <= a /\ a <= b /\ b <= vsize v /\
  l = firstn (Z.to_nat (b - a)) (skipn (Z.to_nat a) v) /\ vsize l = b - a.
Proof.
  unfold vec_range.
  destruct (0 <=? a) eqn:Ha, (a <=? b) eqn:Hab, (b <=? vsize v) eqn:Hb;
    cbn; intros H; inversion H.
  apply Z.leb_le in Ha, Hab, Hb. repeat split; try assumption.
  unfold vsize in *. rewrite length_firstn, length_skipn. lia.
Qed.

Lemma vec_range_defined (v : list A) (a b : size_t) :
  0 <= a -> a <= b -> b <= vsize v ->
  vec_range v a b = Some (firstn (Z.to_nat (b - a)) (skipn (Z.to_nat a) v)).
Proof.
  intros Ha Hab Hb. unfold vec_range.
  apply Z.leb_le in Ha, Hab, Hb. now rewrite Ha, Hab, Hb.
Qed.

Lemma vec_at_defined (v : list A) (i : size_t) :
  0 <= i < vsize v -> exists x, vec_at v i = Some x.
Proof.
  intros [Hi Hv]. unfold vec_at.
  apply Z.leb_le in Hi. rewrite Hi. pose proof Hv as Hv'.
  apply Z.ltb_lt in Hv. rewrite Hv. cbn.
  destruct (nth_error v (Z.to_nat i)) as [x|] eqn:E; [now exists x|].
  apply nth_error_None in E. unfold vsize in Hv'. apply Z.leb_le in Hi. lia.
Qed.

Lemma vec_at_inv (v : list A) (i : size_t) (x : A) :
  vec_at v i = Some x -> 0 <= i < vsize v /\ nth_error v (Z.to_nat i) = Some x.
Proof.
  unfold vec_at. destruct (0 <=? i) eqn:Hi, (i <? vsize v) eqn:Hv; cbn;
    intros H; try discriminate.
  apply Z.leb_le in Hi. apply Z.ltb_lt in Hv. auto.
Qed.

End Vectors.

Lemma wrap_small (z : Z) : 0 <= z < size_max -> wrap z = z.
Proof. intros H. unfold wrap. now apply Z.mod_small. Qed.

(** ** Properties of the generator *)

Section GeneratorProperties.

Context {C : Curve} {R : Reduction}.

Lemma encode_length (B : build) (G : group_type Fr) (v : list Fr) :
  vsize (encode B G v) = vsize v.
Proof.
  unfold encode. destruct (USE_MIXED_ADDITION B); now rewrite ?vsize_map.
Qed.

Lemma domain_size_make (G : group_type Fr) (base : G) (v : list G) :
  domain_size (make_accumulation_vector G base v) = vsize v.
Proof.
  unfold domain_size, make_accumulation_vector, vsize. cbn.
  now rewrite length_combine, length_map, length_seq, Nat.min_id.
Qed.

Lemma to_special_if_mixed_batch_exp (B : build) (G : group_type Fr)
    (bits window : size_t) (v : list Fr) :
  to_special_if_mixed B G
    (batch_exp bits window (get_window_table G bits window g_one) v)
  = encode B G v.
Proof. reflexivity. Qed.

Lemma to_special_if_mixed_batch_exp_with_coeff (B : build) (G : group_type Fr)
    (bits window : size_t) (coeff : Fr) (v : list Fr) :
  to_special_if_mixed B G
    (batch_exp_with_coeff bits window (get_window_table G bits window g_one)
       coeff v)
  = encode B G (map (fr_mul coeff) v).
Proof.
  unfold to_special_if_mixed, encode, batch_exp_with_coeff, batch_to_special.
  cbn. rewrite (map_map (fr_mul coeff)). reflexivity.
Qed.

Ltac step_inv H :=
  let a := fresh "a" in
  let w1 := fresh "w" in
  let H1 := fresh "Hstep" in
  apply bind_inv in H; destruct H as (a & w1 & H1 & H).

(** A run of the generator that returns has passed every check, and
    returns the keys assembled from the trapdoor it drew. *)
Lemma generator_inv (B : build) cs0 w kp w' :
  generator B cs0 w = (Ret kp, w') ->
  let inst := instance_map_with_evaluation cs0 (drawn_t w) in
  exists Xt VmX Xt_0 Xt_tail,
    vec_range (Vt_table_of inst) 0 (inst_num_inputs inst + 1) = Some Xt /\
    vec_range (Vt_table_of inst) (inst_num_inputs inst + 1)
              (vsize (Vt_table_of inst)) = Some VmX /\
    vec_at Xt 0 = Some Xt_0 /\
    vec_range Xt 1 (vsize Xt) = Some Xt_tail /\
    (NDEBUG B = true \/ generator_assertions inst Xt VmX = true) /\
    kp = generator_keypair B cs0 inst (drawn_alpha w) (drawn_tilde w)
                           Xt_0 Xt_tail VmX /\
    w' = after_generator w.
Proof.
  intros H inst. unfold generator in H.
  step_inv H. rewrite draw_run in Hstep. apply ret_inv in Hstep.
  destruct Hstep as [<- ->]. fold (drawn_t w) in H. fold inst in H.
  fold (Vt_table_of inst) in H.
  step_inv H. apply defined_inv in Hstep. destruct Hstep as [HXt ->].
  step_inv H. apply defined_inv in Hstep. destruct Hstep as [HVmX ->].
  step_inv H. apply assert_inv in Hstep. destruct Hstep as [-> A1].
  step_inv H. apply assert_inv in Hstep. destruct Hstep as [-> A2].
  step_inv H. apply assert_inv in Hstep. destruct Hstep as [-> A3].
  step_inv H. apply assert_inv in Hstep. destruct Hstep as [-> A4].
  step_inv H. apply (for_loop_nonzero_inv B _ _ 0) in Hstep.
  destruct Hstep as [-> A5].
  step_inv H. rewrite draw_run in Hstep. apply ret_inv in Hstep.
  destruct Hstep as [<- ->].
  step_inv H. rewrite draw_run in Hstep. apply ret_inv in Hstep.
  destruct Hstep as [<- ->].
  step_inv H. apply defined_inv in Hstep. destruct Hstep as [HXt0 ->].
  step_inv H. apply defined_inv in Hstep. destruct Hstep as [HXtail ->].
  apply ret_inv in H. destruct H as [<- ->].
  rename a into Xt, a0 into VmX, a6 into Xt_0, a7 into Xt_tail.
  exists Xt, VmX, Xt_0, Xt_tail.
  repeat (split; [assumption|]).
  split.
  - unfold generator_assertions.
    destruct (NDEBUG B); [now left|right].
    destruct A1 as [A1|A1]; [discriminate|].
    destruct A2 as [A2|A2]; [discriminate|].
    destruct A3 as [A3|A3]; [discriminate|].
    destruct A4 as [A4|A4]; [discriminate|].
    destruct A5 as [A5|A5]; [discriminate|].
    now rewrite A1, A2, A3, A4, A5.
  - split; [|reflexivity].
    unfold generator_keypair.
    rewrite !to_special_if_mixed_batch_exp,
            to_special_if_mixed_batch_exp_with_coeff.
    reflexivity.
Qed.

(** Conversely, the generator returns whenever its vector accesses are
    defined and its checks pass or are compiled out. *)
Lemma generator_run (B : build) cs0 w Xt VmX Xt_0 Xt_tail :
  let inst := instance_map_with_evaluation cs0 (drawn_t w) in
  vec_range (Vt_table_of inst) 0 (inst_num_inputs inst + 1) = Some Xt ->
  vec_range (Vt_table_of inst) (inst_num_inputs inst + 1)
            (vsize (Vt_table_of inst)) = Some VmX ->
  vec_at Xt 0 = Some Xt_0 ->
  vec_range Xt 1 (vsize Xt) = Some Xt_tail ->
  NDEBUG B = true \/ generator_assertions inst Xt VmX = true ->
  generator B cs0 w =
  (Ret (generator_keypair B cs0 inst (drawn_alpha w) (drawn_tilde w)
                          Xt_0 Xt_tail VmX),
   after_generator w).
Proof.
  intros inst HXt HVmX HXt0 HXtail Hchecks.
  assert (Hall : NDEBUG B = true \/
                 ((vsize (Vt_table_of inst) =?
                   size_add (inst_num_variables inst) 2) = true /\
                  (vsize (Ht inst) =? size_add (inst_degree inst) 1) = true /\
                  (vsize Xt =? size_add (inst_num_inputs inst) 1) = true /\
                  (vsize VmX =?
                   size_sub (size_sub (size_add (inst_num_variables inst) 2)
                                      (inst_num_inputs inst)) 1) = true /\
                  forallb (fun j => nonzero_at Xt (Z.of_nat j))
                    (seq 0 (Z.to_nat (size_add (inst_num_inputs inst) 1)))
                  = true)).
  { destruct Hchecks as [H|H]; [now left|right].
    unfold generator_assertions in H.
    repeat (apply andb_true_iff in H; destruct H as [H ?]). auto. }
  unfold generator.
  erewrite bind_run by apply draw_run.
  fold (drawn_t w). fold inst. fold (Vt_table_of inst).
  erewrite bind_run by (rewrite HXt; reflexivity).
  erewrite bind_run by (rewrite HVmX; reflexivity).
  erewrite bind_run.
  2:{ rewrite assert_run.
      destruct Hall as [-> | (-> & _)]; [reflexivity | now rewrite orb_true_r]. }
  erewrite bind_run.
  2:{ rewrite assert_run.
      destruct Hall as [-> | (_ & -> & _)]; [reflexivity | now rewrite orb_true_r]. }
  erewrite bind_run.
  2:{ rewrite assert_run.
      destruct Hall as [-> | (_ & _ & -> & _)];
        [reflexivity | now rewrite orb_true_r]. }
  erewrite bind_run.
  2:{ rewrite assert_run.
      destruct Hall as [-> | (_ & _ & _ & -> & _)];
        [reflexivity | now rewrite orb_true_r]. }
  erewrite bind_run.
  2:{ apply (for_loop_nonzero_run B Xt _ 0).
      destruct Hall as [H | (_ & _ & _ & _ & H)]; [now left | now right]. }
  erewrite bind_run by apply draw_run.
  erewrite bind_run by apply draw_run.
  erewrite bind_run by (rewrite HXt0; reflexivity).
  erewrite bind_run by (rewrite HXtail; reflexivity).
  unfold generator_keypair.
  rewrite !to_special_if_mixed_batch_exp,
          to_special_if_mixed_batch_exp_with_coeff.
  reflexivity.
Qed.

Lemma vec_at_prefix (v v' l : list Fr) (n j : size_t) :
  vec_range (v ++ v') 0 n = Some l -> n <= vsize v -> 0 <= j < n ->
  vec_at l j = vec_at v j.
Proof.
  intros Hl Hn Hj. apply vec_range_inv in Hl.
  destruct Hl as (_ & _ & _ & -> & Hsize).
  unfold vec_at. rewrite Hsize.
  replace (0 <=? j) with true by (symmetry; apply Z.leb_le; lia).
  replace (j <? n - 0) with true by (symmetry; apply Z.ltb_lt; lia).
  replace (j <? vsize v) with true by (symmetry; apply Z.ltb_lt; lia).
  cbn. rewrite nth_error_firstn.
  replace (Z.to_nat j <? Z.to_nat (n - 0))%nat with true
    by (symmetry; apply Nat.ltb_lt; lia).
  apply nth_error_app1. unfold vsize in Hn. lia.
Qed.

(** On a well-shaped instance the accesses of the generator are defined,
    and its tables have the sizes its checks ask for. *)
Lemma generator_tables (inst : ssp_instance_evaluation) :
  well_shaped_instance inst ->
  exists Xt VmX Xt_0 Xt_tail,
    vec_range (Vt_table_of inst) 0 (inst_num_inputs inst + 1) = Some Xt /\
    vec_range (Vt_table_of inst) (inst_num_inputs inst + 1)
              (vsize (Vt_table_of inst)) = Some VmX /\
    vec_at Xt 0 = Some Xt_0 /\
    vec_range Xt 1 (vsize Xt) = Some Xt_tail /\
    vsize Xt = inst_num_inputs inst + 1 /\
    vsize VmX = inst_num_variables inst - inst_num_inputs inst + 1 /\
    vsize Xt_tail = inst_num_inputs inst /\
    (forall j, 0 <= j <= inst_num_inputs inst -> vec_at Xt j = vec_at (Vt inst) j).
Proof.
  intros [Hni Hle Hnv Hdeg Hdegb HVt HHt].
  assert (Hsize : vsize (Vt_table_of inst) = inst_num_variables inst + 2).
  { unfold Vt_table_of. rewrite vsize_app, HVt. cbn. lia. }
  assert (Hni1 : inst_num_inputs inst + 1 <= vsize (Vt_table_of inst)) by lia.
  pose proof (@vec_range_defined _ (Vt_table_of inst) 0
                (inst_num_inputs inst + 1) ltac:(lia) ltac:(lia) Hni1) as HXt.
  pose proof (@vec_range_defined _ (Vt_table_of inst)
                (inst_num_inputs inst + 1) (vsize (Vt_table_of inst))
                ltac:(lia) Hni1 ltac:(lia)) as HVmX.
  pose proof (vec_range_inv _ _ _ _ HXt) as (_ & _ & _ & _ & HXtsize).
  pose proof (vec_range_inv _ _ _ _ HVmX) as (_ & _ & _ & _ & HVmXsize).
  set (Xt := firstn _ (skipn (Z.to_nat 0) _)) in *.
  set (VmX := firstn _ (skipn (Z.to_nat (inst_num_inputs inst + 1)) _)) in *.
  destruct (@vec_at_defined _ Xt 0 ltac:(lia)) as [Xt_0 HXt0].
  pose proof (@vec_range_defined _ Xt 1 (vsize Xt)
                ltac:(lia) ltac:(lia) ltac:(lia)) as HXtail.
  pose proof (vec_range_inv _ _ _ _ HXtail) as (_ & _ & _ & _ & HXtailsize).
  eexists Xt, VmX, Xt_0, _.
  repeat split; try reflexivity; try eassumption; try lia.
  intros j Hj. unfold Vt_table_of in HXt.
  eapply vec_at_prefix; [exact HXt | lia | lia].
Qed.

Lemma generator_assertions_hold (inst : ssp_instance_evaluation)
    (Xt VmX : list Fr) :
  well_shaped_instance inst ->
  inputs_nonzero inst ->
  vsize Xt = inst_num_inputs inst + 1 ->
  vsize VmX = inst_num_variables inst - inst_num_inputs inst + 1 ->
  (forall j, 0 <= j <= inst_num_inputs inst -> vec_at Xt j = vec_at (Vt inst) j) ->
  generator_assertions inst Xt VmX = true.
Proof.
  intros [Hni Hle Hnv Hdeg Hdegb HVt HHt] Hnz HXt HVmX Hat.
  unfold generator_assertions, size_add, size_sub.
  assert (Hsize : vsize (Vt_table_of inst) = inst_num_variables inst + 2).
  { unfold Vt_table_of. rewrite vsize_app, HVt. cbn. lia. }
  rewrite (wrap_small (inst_num_variables inst + 2)) by lia.
  rewrite (wrap_small (inst_degree inst + 1)) by lia.
  rewrite (wrap_small (inst_num_inputs inst + 1)) by lia.
  rewrite (wrap_small (inst_num_variables inst + 2 - inst_num_inputs inst)) by lia.
  rewrite (wrap_small (inst_num_variables inst + 2 - inst_num_inputs inst - 1))
    by lia.
  repeat (apply andb_true_iff; split); try (apply Z.eqb_eq; lia).
  apply forallb_forall. intros j Hj. apply in_seq in Hj.
  unfold nonzero_at. rewrite Hat by lia. apply Hnz. lia.
Qed.

(** C7: on a constraint system whose instance evaluation is well shaped
    (and, where assertions are compiled in, has [V_i(t)] non-zero on the
    inputs), the generator returns a key pair with
    [|V_g1_query| = |alpha_V_g1_query| = num_variables - num_inputs + 1],
    [|H_g1_query| = degree + 1], [|V_g2_query| = num_variables + 2] and an
    encoded IC query of domain size [num_inputs]; these are the sizes the
    prover asserts of its proving key. *)
Theorem generator_key_shapes (B : build) cs0 w :
  let inst := instance_map_with_evaluation cs0 (drawn_t w) in
  well_shaped_instance inst ->
  NDEBUG B = true \/ inputs_nonzero inst ->
  exists kp,
    generator B cs0 w = (Ret kp, after_generator w) /\
    vsize (V_g1_query (pk kp)) =
      inst_num_variables inst - inst_num_inputs inst + 1 /\
    vsize (alpha_V_g1_query (pk kp)) =
      inst_num_variables inst - inst_num_inputs inst + 1 /\
    vsize (H_g1_query (pk kp)) = inst_degree inst + 1 /\
    vsize (V_g2_query (pk kp)) = inst_num_variables inst + 2 /\
    domain_size (encoded_IC_query (vk kp)) = inst_num_inputs inst /\
    forall wit,
      wit_num_variables wit = inst_num_variables inst ->
      wit_num_inputs wit = inst_num_inputs inst ->
      wit_degree wit = inst_degree inst ->
      prover_size_assertions (pk kp) wit = true.
Proof.
  intros inst Hshape Hnz.
  destruct (generator_tables _ Hshape)
    as (Xt & VmX & Xt_0 & Xt_tail & HXt & HVmX & HXt0 & HXtail & SXt & SVmX
        & SXtail & Hat).
  eexists. split.
  - apply (generator_run B cs0 w _ _ _ _ HXt HVmX HXt0 HXtail).
    destruct Hnz as [Hnz|Hnz]; [now left|right].
    now apply generator_assertions_hold.
  - destruct Hshape as [Hni Hle Hnv Hdeg Hdegb HVt HHt].
    assert (Hsize : vsize (Vt_table_of inst) = inst_num_variables inst + 2).
    { unfold Vt_table_of. rewrite vsize_app, HVt. cbn. lia. }
    cbn [generator_keypair pk vk V_g1_query alpha_V_g1_query H_g1_query
         V_g2_query encoded_IC_query].
    rewrite !encode_length, vsize_map, domain_size_make, vsize_map.
    fold inst. do 5 (split; [lia|]).
    intros wit Hv Hi Hd.
    unfold prover_size_assertions, size_add, size_sub. rewrite Hv, Hi, Hd.
    cbn [generator_keypair pk vk V_g1_query alpha_V_g1_query H_g1_query
         V_g2_query encoded_IC_query].
    rewrite !encode_length, vsize_map. fold inst.
    rewrite (wrap_small (inst_num_variables inst + 2)) by lia.
    rewrite (wrap_small (inst_degree inst + 1)) by lia.
    rewrite (wrap_small (inst_num_variables inst + 2 - inst_num_inputs inst))
      by lia.
    rewrite (wrap_small (inst_num_variables inst + 2 - inst_num_inputs inst - 1))
      by lia.
    repeat (apply andb_true_iff; split); apply Z.eqb_eq; lia.
Qed.

Lemma Vt_table_of_length (inst : ssp_instance_evaluation) :
  vsize (Vt_table_of inst) = vsize (Vt inst) + 1.
Proof. unfold Vt_table_of. rewrite vsize_app. reflexivity. Qed.

(** No instance evaluation has both [num_variables + 2] entries in [Vt]
    and [num_variables + 2] entries in the table the generator builds
    from it. *)
Lemma Vt_table_of_length_conflict (inst : ssp_instance_evaluation) :
  vsize (Vt inst) = inst_num_variables inst + 2 ->
  vsize (Vt_table_of inst) <> inst_num_variables inst + 2.
Proof. rewrite Vt_table_of_length. lia. Qed.

(** C8: where assertions are compiled in, a run of the generator that
    returns has read an instance evaluation whose [Vt] has
    [num_variables + 1] entries, the [V_i(t)] for [i] in
    [[0, num_variables]]; appending [Zt] as the dummy slot, the generator's
    [Vt_table] (and with it [V_g2_query]) has [num_variables + 2]. *)
Theorem generator_Vt_table_length (B : build) cs0 w kp w' :
  let inst := instance_map_with_evaluation cs0 (drawn_t w) in
  NDEBUG B = false ->
  0 <= inst_num_variables inst ->
  inst_num_variables inst + 2 < size_max ->
  generator B cs0 w = (Ret kp, w') ->
  vsize (Vt inst) = inst_num_variables inst + 1 /\
  vsize (Vt_table_of inst) = inst_num_variables inst + 2 /\
  vsize (V_g2_query (pk kp)) = inst_num_variables inst + 2.
Proof.
  intros inst Hdebug Hnv0 Hnv Hrun.
  apply generator_inv in Hrun. fold inst in Hrun.
  destruct Hrun as (Xt & VmX & Xt_0 & Xt_tail & _ & _ & _ & _ & Hchecks & -> & _).
  destruct Hchecks as [Hchecks|Hchecks]; [congruence|].
  unfold generator_assertions in Hchecks.
  repeat (apply andb_true_iff in Hchecks; destruct Hchecks as [Hchecks ?]).
  apply Z.eqb_eq in Hchecks. unfold size_add in Hchecks.
  rewrite wrap_small in Hchecks by lia.
  cbn [generator_keypair pk V_g2_query]. rewrite encode_length.
  rewrite Vt_table_of_length in *. lia.
Qed.

End GeneratorProperties.

(** ** The generator and the caller's constraint system *)

Section ReferenceProperties.

Context {C : Curve} {R : Reduction}.

Lemma bindS_liftS {A A'} (m : M A) (k : A -> MS A') (s : store) (w : world) :
  bindS (liftS m) k s w = bind m (fun a => k a s) w.
Proof.
  unfold bindS, liftS, bind. destruct (m w) as [[a|f] w1]; reflexivity.
Qed.

Lemma bindS_read {A'} (l : reference) (k : constraint_system -> MS A')
    (s : store) (w : world) c :
  nth_error s l = Some (Holding c) ->
  bindS (read l) k s w = k c s w.
Proof. intros H. unfold bindS, read, bind. now rewrite H. Qed.

Lemma bind_ret_bind {A A' A''} (m : M A) (k : A -> M A') (k' : A' -> M A'')
    (w : world) :
  bind (bind m k) k' w = bind m (fun a => bind (k a) k') w.
Proof. unfold bind. destruct (m w) as [[a|f] w1]; reflexivity. Qed.

Lemma bind_ext_run {A A'} (m : M A) (k k' : A -> M A') (w : world) :
  (forall a w1, m w = (Ret a, w1) -> k a w1 = k' a w1) ->
  bind m k w = bind m k' w.
Proof.
  intros H. unfold bind. destruct (m w) as [[a|f] w1]; [now apply H | reflexivity].
Qed.

Lemma put_last (s : store) (o o' : cs_object) :
  put (length s) o' (s ++ [o]) = s ++ [o'].
Proof. induction s as [|x s IH]; cbn; [reflexivity | now rewrite IH]. Qed.

(** Copying the caller's object, moving the copy into the key and
    leaving the scope restores the store. *)
Lemma copy_move_scope {A'} (l : reference) (k : constraint_system -> MS A')
    (s : store) (w : world) c :
  nth_error s l = Some (Holding c) ->
  bindS (copy_construct l)
    (fun cs_copy => bindS (move_from cs_copy)
       (fun pk_cs => bindS end_of_scope (fun _ => k pk_cs))) s w =
  k c s w.
Proof.
  intros H. unfold copy_construct, bindS at 1 2, read, bind. rewrite H.
  cbn [ret fst snd]. unfold bindS at 1, move_from, bind.
  rewrite nth_error_app2 by lia. rewrite Nat.sub_diag. cbn [nth_error ret fst snd].
  unfold bindS, end_of_scope, bind. cbn [ret fst snd].
  now rewrite put_last, removelast_last.
Qed.

(** The generator on a reference runs as the generator on the value the
    reference holds, and returns the store as it found it. *)
Lemma generator_by_reference_run (B : build) (l : reference) (s : store) c
    (w : world) :
  nth_error s l = Some (Holding c) ->
  generator_by_reference B l s w =
  bind (generator B c) (fun kp => ret (kp, s)) w.
Proof.
  intros H. unfold generator_by_reference, generator. cbv zeta.
  rewrite bindS_liftS, bind_ret_bind. apply bind_ext_run. intros t w1 _.
  rewrite (bindS_read _ _ _ _ _ H).
  do 11 (rewrite bindS_liftS, bind_ret_bind; apply bind_ext_run; intros ? ? _).
  rewrite (copy_move_scope _ _ _ _ _ H). reflexivity.
Qed.

(** C10: the generator does not modify its argument.  Run on a reference
    to a constraint system of the caller, every run that returns yields a
    key pair whose proving key holds a constraint system equal to the
    caller's, taken from the generator's own copy, and leaves the store as
    it found it: the caller's object holds the value it held, and so does
    every other object.  The key pair and the sampler are those of the
    generator run on that value, which advances the sampler by three
    draws; and the generator returns on the reference whenever it returns
    on the value. *)
Theorem generator_copies_constraint_system (B : build) (l : reference)
    (s : store) c (w : world) :
  nth_error s l = Some (Holding c) ->
  (forall kp s' w',
     generator_by_reference B l s w = (Ret (kp, s'), w') ->
     cs (pk kp) = c /\
     nth_error s' l = Some (Holding c) /\
     s' = s /\
     generator B c w = (Ret kp, w') /\
     w' = after_generator w) /\
  (forall kp w',
     generator B c w = (Ret kp, w') ->
     generator_by_reference B l s w = (Ret (kp, s), w')).
Proof.
  intros H. split.
  - intros kp s' w' Hrun.
    rewrite (generator_by_reference_run B l s c w H) in Hrun.
    unfold bind in Hrun.
    destruct (generator B c w) as [[kp0|f] w0] eqn:Hgen; [|discriminate].
    inversion Hrun; subst kp0 s' w0.
    pose proof Hgen as Hkp. apply generator_inv in Hkp.
    destruct Hkp as (Xt & VmX & Xt_0 & Xt_tail & _ & _ & _ & _ & _ & Hkp & Hw).
    split; [now rewrite Hkp|]. split; [exact H|]. split; [reflexivity|].
    split; [reflexivity | exact Hw].
  - intros kp w' Hgen.
    rewrite (generator_by_reference_run B l s c w H).
    unfold bind. now rewrite Hgen.
Qed.

End ReferenceProperties.

(** ** Properties of the prover *)

Section ProverProperties.

Context {C : Curve} {R : Reduction}.

Lemma g_sum_ext (G : group_type Fr) (n : nat) (f f' : nat -> G) :
  (forall j, (j < n)%nat -> f j = f' j) -> g_sum G n f = g_sum G n f'.
Proof.
  revert f f'. induction n as [|n IH]; intros f f' H; cbn.
  - reflexivity.
  - rewrite (H O) by lia. f_equal. apply IH. intros j Hj. apply H. lia.
Qed.

(** The multi-exponentiation of two prefixes is the indexed sum. *)
Lemma multiexp_firstn (G : group_type Fr) (n : nat) (points : list G)
    (scalars : list Fr) (chunks0 : size_t) :
  (n <= length points)%nat -> (n <= length scalars)%nat ->
  multiexp G (firstn n points) (firstn n scalars) chunks0 =
  g_sum G n (fun j => g_mul (nth j scalars fr_zero) (nth j points g_zero)).
Proof.
  unfold multiexp. revert points scalars.
  induction n as [|n IH]; intros points scalars Hp Hs.
  - reflexivity.
  - destruct points as [|P points]; [cbn in Hp; lia|].
    destruct scalars as [|s scalars]; [cbn in Hs; lia|].
    cbn in Hp, Hs. cbn. f_equal. apply IH; lia.
Qed.

(** The multi-exponentiation over two iterator ranges of the same length
    is the sum the specification writes [MSM]. *)
Lemma multiexp_ranges (G : group_type Fr) (points ps : list G)
    (scalars ss : list Fr) (a b n : Z) (chunks0 : size_t) :
  0 <= n ->
  vec_range points a (a + n) = Some ps ->
  vec_range scalars b (b + n) = Some ss ->
  multiexp G ps ss chunks0 =
  MSM G points (Z.to_nat a) scalars (Z.to_nat b) (Z.to_nat n).
Proof.
  intros Hn Hps Hss.
  apply vec_range_inv in Hps. destruct Hps as (Ha & _ & Hpb & -> & _).
  apply vec_range_inv in Hss. destruct Hss as (Hb & _ & Hsb & -> & _).
  replace (a + n - a) with n by lia. replace (b + n - b) with n by lia.
  unfold vsize in *.
  rewrite multiexp_firstn by (rewrite length_skipn; lia).
  unfold MSM. apply g_sum_ext. intros j _. now rewrite !nth_skipn.
Qed.

Lemma vec_at_nth (G : group_type Fr) (v : list G) (i : size_t) :
  0 <= i < vsize v -> vec_at v i = Some (nth (Z.to_nat i) v g_zero).
Proof.
  intros Hi. destruct (vec_at_defined v i Hi) as [x Hx]. rewrite Hx.
  apply vec_at_inv in Hx. destruct Hx as [_ Hx].
  now rewrite (nth_error_nth _ _ _ Hx).
Qed.

Lemma vec_at_last (G : group_type Fr) (v : list G) :
  0 < vsize v -> vsize v < size_max ->
  vec_at v (size_sub (vsize v) 1) = Some (last_of G v).
Proof.
  intros Hpos Hmax. unfold size_sub. rewrite wrap_small by lia.
  rewrite vec_at_nth by lia. unfold last_of, vsize. do 2 f_equal. lia.
Qed.

Lemma multiexp_of_ranges (G : group_type Fr) (points : list G)
    (scalars : list Fr) (a a' b b' : Z) (chunks0 : size_t) :
  0 <= a -> a <= a' -> a' <= vsize points ->
  0 <= b -> b <= b' -> b' <= vsize scalars ->
  a' - a = b' - b ->
  exists ps ss,
    vec_range points a a' = Some ps /\
    vec_range scalars b b' = Some ss /\
    multiexp G ps ss chunks0 =
    MSM G points (Z.to_nat a) scalars (Z.to_nat b) (Z.to_nat (a' - a)).
Proof.
  intros Ha Haa Ha' Hb Hbb Hb' Hlen.
  pose proof (vec_range_defined points a a' Ha Haa Ha') as Hps.
  pose proof (vec_range_defined scalars b b' Hb Hbb Hb') as Hss.
  eexists. eexists. split; [exact Hps|]. split; [exact Hss|].
  apply multiexp_ranges.
  - lia.
  - replace (a + (a' - a)) with a' by lia. exact Hps.
  - replace (b + (a' - a)) with b' by lia. exact Hss.
Qed.

(** C2: on inputs that satisfy the constraint system of a proving key with
    the sizes the prover asserts, the prover draws the blinding scalar [d],
    maps the inputs to the witness, and returns exactly the proof of
    section 4.3: [V_g1] is [d * V_g1_query[last]] plus the sum over the
    auxiliary coefficients, [alpha_V_g1] the same over [alpha_V_g1_query],
    [H_g1] the sum over [H_g1_query], and [V_g2] is
    [V_g2_query[0] + d * V_g2_query[last]] plus the sum over all
    coefficients. *)
Theorem prover_returns_proof {L : CurveLaws C} (B : build) pk0 x y w :
  let d := drawn_t w in
  let wit := witness_map (cs pk0) x y d in
  is_satisfied (cs pk0) x y = true ->
  prover_shapes pk0 wit ->
  wit_d wit = d ->
  prover B pk0 x y w =
  (Ret (prover_proof pk0 d wit),
   {| rng := snd (random_element (rng w)); trace := trace w |}).
Proof.
  intros d wit Hsat [Hni Hle Hnv Hdeg Hdegb HV HaV HH HV2 HcV HcH] Hd.
  unfold prover.
  erewrite bind_run by apply draw_run.
  fold (drawn_t w). fold d. fold wit.
  set (w1 := {| rng := snd (random_element (rng w)); trace := trace w |}).
  assert (Hsub : size_sub (wit_num_variables wit) (wit_num_inputs wit) =
                 wit_num_variables wit - wit_num_inputs wit).
  { unfold size_sub. apply wrap_small. lia. }
  assert (Hsize : size_sub (size_sub (size_add (wit_num_variables wit) 2)
                                     (wit_num_inputs wit)) 1 =
                  wit_num_variables wit - wit_num_inputs wit + 1).
  { unfold size_sub, size_add.
    rewrite (wrap_small (wit_num_variables wit + 2)) by lia.
    rewrite (wrap_small (wit_num_variables wit + 2 - wit_num_inputs wit)) by lia.
    rewrite wrap_small by lia. lia. }
  assert (Hdeg1 : size_add (wit_degree wit) 1 = wit_degree wit + 1).
  { unfold size_add. apply wrap_small. lia. }
  assert (Hnv2 : size_add (wit_num_variables wit) 2 = wit_num_variables wit + 2).
  { unfold size_add. apply wrap_small. lia. }
  erewrite bind_run
    by (rewrite assert_run, Hsat, orb_true_r; reflexivity).
  erewrite bind_run
    by (rewrite assert_run, Hsize, HV, Z.eqb_refl, orb_true_r; reflexivity).
  erewrite bind_run
    by (rewrite assert_run, Hsize, HaV, Z.eqb_refl, orb_true_r; reflexivity).
  erewrite bind_run
    by (rewrite assert_run, Hdeg1, HH, Z.eqb_refl, orb_true_r; reflexivity).
  erewrite bind_run
    by (rewrite assert_run, Hnv2, HV2, Z.eqb_refl, orb_true_r; reflexivity).
  erewrite bind_run
    by (rewrite (vec_at_last g1_type) by lia; reflexivity).
  erewrite bind_run
    by (rewrite (vec_at_last g1_type) by lia; reflexivity).
  erewrite bind_run
    by (rewrite (vec_at_nth g2_type) by lia; reflexivity).
  erewrite bind_run
    by (rewrite (vec_at_last g2_type) by lia; reflexivity).
  rewrite Hsub.
  destruct (multiexp_of_ranges g1_type (V_g1_query pk0) (coefficients_for_Vs wit)
              0 (wit_num_variables wit - wit_num_inputs wit)
              (wit_num_inputs wit) (wit_num_variables wit) (chunks B))
    as (ps1 & ss1 & Hps1 & Hss1 & E1); try lia.
  destruct (multiexp_of_ranges g1_type (alpha_V_g1_query pk0)
              (coefficients_for_Vs wit)
              0 (wit_num_variables wit - wit_num_inputs wit)
              (wit_num_inputs wit) (wit_num_variables wit) (chunks B))
    as (ps2 & ss2 & Hps2 & Hss2 & E2); try lia.
  destruct (multiexp_of_ranges g1_type (H_g1_query pk0) (coefficients_for_H wit)
              0 (wit_degree wit + 1) 0 (wit_degree wit + 1) (chunks B))
    as (ps3 & ss3 & Hps3 & Hss3 & E3); try lia.
  destruct (multiexp_of_ranges g2_type (V_g2_query pk0) (coefficients_for_Vs wit)
              1 (wit_num_variables wit + 1) 0 (wit_num_variables wit) (chunks B))
    as (ps4 & ss4 & Hps4 & Hss4 & E4); try lia.
  erewrite bind_run by (rewrite Hps1; reflexivity).
  erewrite bind_run by (rewrite Hss1; reflexivity).
  erewrite bind_run by (rewrite Hps2; reflexivity).
  erewrite bind_run by (rewrite Hss2; reflexivity).
  erewrite bind_run by (rewrite Hps3; reflexivity).
  erewrite bind_run by (rewrite Hss3; reflexivity).
  erewrite bind_run by (rewrite Hps4; reflexivity).
  erewrite bind_run by (rewrite Hss4; reflexivity).
  unfold multiexp_with_mixed_addition. rewrite E1, E2, E3, E4, Hd.
  rewrite g1_add_zero_l.
  unfold ret, prover_proof. do 2 f_equal.
  replace (Z.to_nat (wit_num_variables wit - wit_num_inputs wit - 0))
    with (Z.to_nat (wit_num_variables wit) - Z.to_nat (wit_num_inputs wit))%nat
    by lia.
  replace (Z.to_nat (wit_degree wit + 1 - 0))
    with (Z.to_nat (wit_degree wit) + 1)%nat by lia.
  replace (Z.to_nat (wit_num_variables wit + 1 - 1))
    with (Z.to_nat (wit_num_variables wit)) by lia.
  reflexivity.
Qed.

End ProverProperties.

(** ** Weak input consistency: zero padding *)

Section Padding.

Context {C : Curve} {R : Reduction} {L : CurveLaws C}.

Lemma vec_at_padded (x : list Fr) (k : nat) (i : size_t) :
  vec_at (x ++ repeat fr_zero k) i =
  match vec_at x i with
  | Some s => Some s
  | None => if (vsize x <=? i) && (i <? vsize x + Z.of_nat k)
            then Some fr_zero else None
  end.
Proof.
  unfold vec_at. rewrite vsize_app.
  replace (vsize (repeat fr_zero k)) with (Z.of_nat k)
    by (unfold vsize; now rewrite repeat_length).
  destruct (Z.leb_spec 0 i) as [Hi|Hi]; cbn [andb].
  - destruct (Z.ltb_spec i (vsize x)) as [Hx|Hx].
    + replace (i <? vsize x + Z.of_nat k) with true
        by (symmetry; apply Z.ltb_lt; lia).
      rewrite nth_error_app1 by (unfold vsize in Hx; lia).
      destruct (nth_error x (Z.to_nat i)) as [s|] eqn:E; [reflexivity|].
      apply nth_error_None in E. unfold vsize in Hx. lia.
    + replace (vsize x <=? i) with true by (symmetry; apply Z.leb_le; lia).
      cbn [andb]. destruct (Z.ltb_spec i (vsize x + Z.of_nat k)) as [Hk|Hk];
        [|reflexivity].
      unfold vsize in *. rewrite nth_error_app2 by lia.
      apply nth_error_repeat. lia.
  - replace (vsize x <=? i) with false
      by (symmetry; apply Z.leb_gt; pose proof (vsize_nonneg x); lia).
    reflexivity.
Qed.

(** Scalars that are zero add nothing to the accumulated element. *)
Lemma accumulate_padded (x : list Fr) (k : nat) (offset : size_t)
    (entries : list (size_t * g1_type)) :
  fst (accumulate g1_type (x ++ repeat fr_zero k) offset entries) =
  fst (accumulate g1_type x offset entries).
Proof.
  induction entries as [|[p v] entries IH]; cbn [accumulate].
  - reflexivity.
  - destruct (accumulate g1_type (x ++ repeat fr_zero k) offset entries)
      as [sum' kept'].
    destruct (accumulate g1_type x offset entries) as [sum kept].
    cbn [fst] in IH. subst sum'.
    rewrite vec_at_padded.
    destruct (vec_at x (p - offset)) as [s|]; [reflexivity|].
    destruct ((vsize x <=? p - offset) && (p - offset <? vsize x + Z.of_nat k));
      [|reflexivity].
    cbn [fst]. now rewrite g1_mul_zero, g1_add_zero_l.
Qed.

Lemma accumulated_input_padded pvk (x : primary_input) (k : nat) :
  accumulated_input pvk (x ++ repeat fr_zero k) = accumulated_input pvk x.
Proof.
  unfold accumulated_input, accumulate_chunk.
  pose proof (accumulate_padded x k 0 (rest (pvk_encoded_IC_query pvk))) as H.
  destruct (accumulate g1_type (x ++ repeat fr_zero k) 0 _) as [sum' kept'].
  destruct (accumulate g1_type x 0 _) as [sum kept].
  cbn in *. now subst.
Qed.

(** The verdict the verifier computes does not change when zeros are
    appended to the input. *)
Lemma weak_IC_verdict_padded pvk (x : primary_input) (k : nat) pi :
  weak_IC_verdict pvk (x ++ repeat fr_zero k) pi = weak_IC_verdict pvk x pi.
Proof.
  unfold weak_IC_verdict, equation_V, equation_SSP.
  now rewrite accumulated_input_padded.
Qed.

(** X19: where assertions are compiled out, the weak-IC verifier runs
    alike on an input and on the input padded with zeros: same verdict,
    same calls, under every verification key. *)
Lemma verifier_weak_IC_padded_release (B : build) vk0 (x : primary_input)
    (k : nat) pi w :
  NDEBUG B = true ->
  verifier_weak_IC B vk0 (x ++ repeat fr_zero k) pi w =
  verifier_weak_IC B vk0 x pi w.
Proof.
  intros HB. rewrite !verifier_weak_IC_run, !online_verifier_weak_IC_run.
  rewrite HB. cbn [orb]. now rewrite weak_IC_verdict_padded.
Qed.

End Padding.

(** ** The default proof *)

Section DefaultProof.

Context {C : Curve} {R : Reduction} {L : CurveLaws C} {P : PairingLaws C}.

Lemma default_proof_well_formed : is_well_formed default_proof = true.
Proof.
  unfold is_well_formed, default_proof. cbn.
  now rewrite g1_one_well_formed, g2_one_well_formed.
Qed.

(** From equations V and SSP on values of the Miller loop: when
    [X / E] and [X^-1 * Zm * E] are both one after the final
    exponentiation, so is [Zm]. *)
Lemma equations_V_SSP_cancel (X E Zm : gt_type) :
  final_exponentiation (gt_mul X (unitary_inversed E)) = gt_one ->
  final_exponentiation (gt_mul (gt_mul (unitary_inversed X) Zm) E) = gt_one ->
  final_exponentiation Zm = gt_one.
Proof.
  intros HV HS.
  assert (HX : gt_mul (final_exponentiation (unitary_inversed X))
                      (final_exponentiation X) = gt_one).
  { destruct (unitary_inversed_or_zero X) as [H|H]; [exact H|].
    now apply H in HV. }
  assert (HE : gt_mul (final_exponentiation (unitary_inversed E))
                      (final_exponentiation E) = gt_one).
  { destruct (unitary_inversed_or_zero E) as [H|H]; [exact H|].
    rewrite gt_mul_comm in HS. now apply H in HS. }
  rewrite final_exponentiation_mul in HV.
  rewrite !final_exponentiation_mul in HS.
  assert (Hxe : final_exponentiation X = final_exponentiation E).
  { rewrite <- (gt_mul_one_l E), <- HV, <- gt_mul_assoc, HE.
    rewrite gt_mul_comm. now rewrite gt_mul_one_l. }
  assert (Hz : final_exponentiation Zm =
               gt_mul (gt_mul (final_exponentiation (unitary_inversed X))
                              (final_exponentiation X))
                      (final_exponentiation Zm))
    by (rewrite HX; symmetry; apply gt_mul_one_l).
  rewrite Hz, <- gt_mul_assoc.
  rewrite (gt_mul_comm (final_exponentiation X)), gt_mul_assoc, Hxe.
  exact HS.
Qed.

(** On the default proof, under a key of the generator, equations V
    and SSP together force [Z_g2] to be the identity, and equation alpha
    forces [alpha_tilde_g2 = tilde_g2]. *)
Lemma default_proof_accepting (B : build) cs0 w kp w1 x :
  generator B cs0 w = (Ret kp, w1) ->
  accepting (processed (vk kp)) x default_proof ->
  Z_g2 (vk kp) = g_zero /\
  alpha_tilde_g2 (vk kp) = tilde_g2 (vk kp) /\
  equation_V (processed (vk kp)) x default_proof = gt_one.
Proof.
  intros Hrun (_ & HV & HS & Ha). apply generator_inv in Hrun.
  destruct Hrun as (Xt & VmX & Xt_0 & Xt_tail & _ & _ & _ & _ & _ & -> & _).
  split; [|split; [|exact HV]].
  - cbn [generator_keypair vk Z_g2]. apply pairing_generator_nondegenerate.
    unfold equation_V, equation_SSP in HV, HS.
    cbn [processed pp_G1_one_precomp pp_G2_one_precomp vk_Z_g2_precomp
         pairing_of_g1_and_g2 default_proof V_g1 V_g2 H_g1 generator_keypair vk
         Z_g2] in HV, HS.
    exact (equations_V_SSP_cancel _ _ _ HV HS).
  - cbn [generator_keypair vk alpha_tilde_g2 tilde_g2].
    apply pairing_generator_injective. exact Ha.
Qed.

(** What a verifier that returns [true] has checked. *)
Lemma verifier_accepts_inv (B' : build) vk0 x pi w2 w' :
  verifier_weak_IC B' vk0 x pi w2 = (Ret true, w') \/
  verifier_strong_IC B' vk0 x pi w2 = (Ret true, w') ->
  accepting (processed vk0) x pi.
Proof.
  rewrite verifier_weak_IC_run, verifier_strong_IC_run,
          online_verifier_strong_IC_run.
  intros [H|H].
  - apply online_verifier_weak_IC_constant_work in H.
    destruct H as [_ H]. now apply weak_IC_verdict_true.
  - destruct (_ =? _); [|discriminate].
    apply online_verifier_weak_IC_constant_work in H.
    destruct H as [_ H]. now apply weak_IC_verdict_true.
Qed.

(** C9: the default proof has the generators as its four components and
    passes the well-formedness check.  Under a verification key the
    generator returned, a verifier (weak-IC or strong-IC, in any build)
    that accepts it on an input has found [Z_g2] to be the identity of
    [G2], [alpha_tilde_g2] equal to [tilde_g2], and equation V to hold on
    that input; so wherever [Z_g2] is not the identity, or
    [alpha_tilde_g2] differs from [tilde_g2], or equation V fails on the
    input, no run of a verifier accepts it, and where assertions are
    compiled out both verifiers return [false].  The three elements of
    the key are [Zt * G2], [tilde * G2] and [(alpha * tilde) * G2] for the
    scalars the generator drew. *)
Theorem default_proof_rejected (B : build) cs0 w kp w1 :
  generator B cs0 w = (Ret kp, w1) ->
  (V_g1 default_proof = g_one /\ alpha_V_g1 default_proof = g_one /\
   H_g1 default_proof = g_one /\ V_g2 default_proof = g_one) /\
  is_well_formed default_proof = true /\
  (Z_g2 (vk kp) =
     g_mul (Zt (instance_map_with_evaluation cs0 (drawn_t w))) g_one /\
   tilde_g2 (vk kp) = g_mul (drawn_tilde w) g_one /\
   alpha_tilde_g2 (vk kp) =
     g_mul (fr_mul (drawn_alpha w) (drawn_tilde w)) g_one) /\
  (forall (B' : build) x w2 w',
     verifier_weak_IC B' (vk kp) x default_proof w2 = (Ret true, w') \/
     verifier_strong_IC B' (vk kp) x default_proof w2 = (Ret true, w') ->
     Z_g2 (vk kp) = g_zero /\
     alpha_tilde_g2 (vk kp) = tilde_g2 (vk kp) /\
     equation_V (processed (vk kp)) x default_proof = gt_one) /\
  (forall (B' : build) x w2,
     Z_g2 (vk kp) <> g_zero \/
     alpha_tilde_g2 (vk kp) <> tilde_g2 (vk kp) \/
     equation_V (processed (vk kp)) x default_proof <> gt_one ->
     (forall verdict w',
        verifier_weak_IC B' (vk kp) x default_proof w2 = (Ret verdict, w') ->
        verdict = false) /\
     (forall verdict w',
        verifier_strong_IC B' (vk kp) x default_proof w2 = (Ret verdict, w') ->
        verdict = false) /\
     (NDEBUG B' = true ->
      fst (verifier_weak_IC B' (vk kp) x default_proof w2) = Ret false /\
      fst (verifier_strong_IC B' (vk kp) x default_proof w2) = Ret false)).
Proof.
  intros Hrun.
  assert (Haccept : forall (B' : build) x w2 w',
            verifier_weak_IC B' (vk kp) x default_proof w2 = (Ret true, w') \/
            verifier_strong_IC B' (vk kp) x default_proof w2 = (Ret true, w') ->
            Z_g2 (vk kp) = g_zero /\
            alpha_tilde_g2 (vk kp) = tilde_g2 (vk kp) /\
            equation_V (processed (vk kp)) x default_proof = gt_one).
  { intros B' x w2 w' H. apply verifier_accepts_inv in H.
    exact (default_proof_accepting B cs0 w kp w1 x Hrun H). }
  split; [repeat split|]. split; [apply default_proof_well_formed|].
  split.
  { pose proof Hrun as Hkp. apply generator_inv in Hkp.
    destruct Hkp as (Xt & VmX & Xt_0 & Xt_tail & _ & _ & _ & _ & _ & -> & _).
    repeat split; reflexivity. }
  split; [exact Haccept|].
  intros B' x w2 Hkey.
  assert (Hnever : forall w',
            verifier_weak_IC B' (vk kp) x default_proof w2 <> (Ret true, w') /\
            verifier_strong_IC B' (vk kp) x default_proof w2 <> (Ret true, w')).
  { intros w'. split; intros H.
    - destruct (Haccept B' x w2 w' (or_introl H)) as (HZ & Ht & HV).
      destruct Hkey as [?|[?|?]]; contradiction.
    - destruct (Haccept B' x w2 w' (or_intror H)) as (HZ & Ht & HV).
      destruct Hkey as [?|[?|?]]; contradiction. }
  split; [|split].
  - intros [|] w' H; [|reflexivity]. now apply Hnever in H.
  - intros [|] w' H; [|reflexivity]. now apply Hnever in H.
  - intros HB.
    assert (Hverdict : weak_IC_verdict (processed (vk kp)) x default_proof = false).
    { destruct (weak_IC_verdict (processed (vk kp)) x default_proof) eqn:E;
        [|reflexivity].
      apply weak_IC_verdict_true in E.
      destruct (default_proof_accepting B cs0 w kp w1 x Hrun E) as (HZ & Ht & HV).
      destruct Hkey as [?|[?|?]]; contradiction. }
    rewrite verifier_weak_IC_run, verifier_strong_IC_run,
            online_verifier_strong_IC_run, online_verifier_weak_IC_run.
    rewrite HB, Hverdict. cbn [orb].
    split; [reflexivity|]. now destruct (_ =? _).
Qed.

End DefaultProof.

(** ** The small instance: laws and sample runs *)

Import Toy.

Lemma indices_In (n u : Z) : 0 <= u < n -> In u (indices n).
Proof.
  intros Hu. unfold indices. apply in_map_iff. exists (Z.to_nat u).
  split; [lia|]. apply in_seq. lia.
Qed.

Lemma toy_pairing_table :
  forallb (fun u => forallb (fun v => implb (toy_pairing_quotient u v =? 1)
                                            (u =? v))
                            (indices r))
          (indices r) = true.
Proof. vm_compute. reflexivity. Qed.

Lemma toy_pairing_injective (u v : Z) :
  0 <= u < r -> 0 <= v < r -> toy_pairing_quotient u v = 1 -> u = v.
Proof.
  intros Hu Hv Hq. pose proof toy_pairing_table as T.
  rewrite forallb_forall in T. specialize (T u (indices_In r u Hu)).
  rewrite forallb_forall in T. specialize (T v (indices_In r v Hv)).
  rewrite Hq in T. cbn in T. now apply Z.eqb_eq.
Qed.

#[export] Instance toy_laws : CurveLaws toy_curve.
Proof.
  split.
  - intros P. cbn. unfold point_add.
    destruct (Z.eqb_spec P 0) as [->|_]; reflexivity.
  - intros P. reflexivity.
  - reflexivity.
  - reflexivity.
  - intros a b H. cbn in *.
    apply toy_pairing_injective; try (apply Z.mod_pos_bound; reflexivity).
    exact H.
Qed.

Lemma toy_final_exponentiation_mod (a : Z) :
  (a mod q) ^ 6 mod q = a ^ 6 mod q.
Proof. symmetry. apply Zpower_mod. reflexivity. Qed.

Lemma toy_unitary_inversed_mod (a : Z) :
  (a mod q) ^ 101 mod q = a ^ 101 mod q.
Proof. symmetry. apply Zpower_mod. reflexivity. Qed.

Lemma toy_unit_table :
  forallb (fun a => (a =? 0) ||
                    ((((a ^ 101 mod q) ^ 6 mod q) * (a ^ 6 mod q)) mod q =? 1))
          (indices q) = true.
Proof. vm_compute. reflexivity. Qed.

Lemma toy_nondegenerate_table :
  forallb (fun u => implb ((5 ^ (1 * u) mod q) ^ 6 mod q =? 1) (u =? 0))
          (indices r) = true.
Proof. vm_compute. reflexivity. Qed.

#[export] Instance toy_pairing_laws : PairingLaws toy_curve.
Proof.
  split.
  - intros a b. change (((a * b) mod q) ^ 6 mod q =
                        ((a ^ 6 mod q) * (b ^ 6 mod q)) mod q).
    rewrite toy_final_exponentiation_mod, Z.pow_mul_l.
    apply Zmult_mod.
  - intros a b c. change ((a * ((b * c) mod q)) mod q = (((a * b) mod q) * c) mod q).
    rewrite Z.mul_mod_idemp_r, Z.mul_mod_idemp_l by (unfold q; lia).
    now rewrite Z.mul_assoc.
  - intros a b. change ((a * b) mod q = (b * a) mod q). now rewrite Z.mul_comm.
  - intros a. change ((1 * (a ^ 6 mod q)) mod q = a ^ 6 mod q).
    rewrite Z.mul_1_l. apply Z.mod_mod. unfold q; lia.
  - intros a.
    change ((((a ^ 101 mod q) ^ 6 mod q) * (a ^ 6 mod q)) mod q = 1 \/
            forall b, ((a * b) mod q) ^ 6 mod q <> 1).
    assert (Hq : 0 <= a mod q < q) by (apply Z.mod_pos_bound; reflexivity).
    destruct (Z.eq_dec (a mod q) 0) as [Hz|Hnz].
    + right. intros b. rewrite <- Z.mul_mod_idemp_l by (unfold q; lia).
      rewrite Hz. vm_compute. discriminate.
    + left. rewrite <- toy_unitary_inversed_mod, <- (toy_final_exponentiation_mod a).
      pose proof toy_unit_table as T. rewrite forallb_forall in T.
      specialize (T (a mod q) (indices_In q (a mod q) Hq)).
      apply orb_true_iff in T. destruct T as [T|T].
      * apply Z.eqb_eq in T. contradiction.
      * now apply Z.eqb_eq in T.
  - intros a.
    change ((toy_miller_loop 1 ((a * 1) mod r)) ^ 6 mod q = 1 -> (a * 1) mod r = 0).
    assert (Hr : 0 <= (a * 1) mod r < r) by (apply Z.mod_pos_bound; reflexivity).
    unfold toy_miller_loop, point_is_well_formed.
    replace (0 <=? (a * 1) mod r) with true by (symmetry; apply Z.leb_le; lia).
    replace ((a * 1) mod r <? r) with true by (symmetry; apply Z.ltb_lt; lia).
    change ((0 <=? 1) && (1 <? r)) with true. cbn [andb].
    intros H.
    pose proof toy_nondegenerate_table as T. rewrite forallb_forall in T.
    specialize (T ((a * 1) mod r) (indices_In r _ Hr)).
    rewrite H in T. cbn in T. now apply Z.eqb_eq.
Qed.

(** The sample keys and the sample proof are those the generator and the
    prover compute; the verifiers accept the proof on its input. *)
Lemma keypair3_generated :
  generator debug_build cs3 (start [3; 2; 4]) = (Ret keypair3, start []).
Proof. reflexivity. Qed.

Lemma proof3_proved :
  prover debug_build (pk keypair3) [14; 0] [16] (start [9]) =
  (Ret proof3, start []).
Proof. reflexivity. Qed.

Lemma pvk3_processed : processed (vk keypair3) = pvk3.
Proof. reflexivity. Qed.

Lemma proof3_accepted :
  is_satisfied cs3 [14; 0] [16] = true /\
  fst (verifier_strong_IC debug_build (vk keypair3) [14; 0] proof3 (start []))
  = Ret true /\
  fst (verifier_weak_IC debug_build (vk keypair3) [14; 0] proof3 (start []))
  = Ret true.
Proof. repeat split; reflexivity. Qed.

Lemma degenerate_keypair_generated :
  generator debug_build cs2 (start [1; 1; 4]) = (Ret degenerate_keypair, start []).
Proof. reflexivity. Qed.

(** *** The online weak-IC verifier on the sample proof *)

Lemma online_verifier_weak_IC_accepts_iff_witness :
  vsize [14; 0] <= domain_size (pvk_encoded_IC_query pvk3) /\
  (NDEBUG debug_build = true \/
   is_fully_accumulated
     (accumulate_chunk (pvk_encoded_IC_query pvk3) [14; 0] 0) = true) /\
  exists verdict,
    online_verifier_weak_IC debug_build pvk3 [14; 0] proof3 (start []) =
      (Ret verdict, after (start []) weak_IC_calls) /\
    (verdict = true <-> accepting pvk3 [14; 0] proof3) /\
    count_occ event_eq_dec weak_IC_calls EvWellFormed = 1%nat /\
    count_occ event_eq_dec weak_IC_calls EvFinalExponentiation = 3%nat.
Proof.
  assert (H1 : vsize [14; 0] <= domain_size (pvk_encoded_IC_query pvk3))
    by (vm_compute; discriminate).
  assert (H2 : NDEBUG debug_build = true \/
               is_fully_accumulated
                 (accumulate_chunk (pvk_encoded_IC_query pvk3) [14; 0] 0) = true)
    by (right; reflexivity).
  split; [exact H1|]. split; [exact H2|].
  exact (online_verifier_weak_IC_accepts_iff debug_build pvk3 [14; 0] proof3
           (start []) H1 H2).
Defined.

(** C1: with assertions compiled in, the online weak-IC verifier does not
    return [true] on the input [(14)], which is shorter than the domain of
    the encoded IC query of the sample key, for the sample proof, though
    the proof is well formed and satisfies the three pairing equations on
    that input: the run aborts on the assertion that the accumulation is
    complete, before the well-formedness check and the equations are
    evaluated.  With assertions compiled out the same call returns [true],
    as the call on the padded input [(14, 0)] does with assertions
    compiled in. *)
Theorem online_verifier_weak_IC_debug_abort :
  vsize [14] <= domain_size (pvk_encoded_IC_query pvk3) /\
  accepting pvk3 [14] proof3 /\
  online_verifier_weak_IC debug_build pvk3 [14] proof3 (start []) =
    (Fail AssertionFailed, start []) /\
  fst (online_verifier_weak_IC debug_build pvk3 [14] proof3 (start [])) <>
    Ret true /\
  online_verifier_weak_IC release_build pvk3 [14] proof3 (start []) =
    (Ret true, after (start []) weak_IC_calls) /\
  online_verifier_weak_IC debug_build pvk3 [14; 0] proof3 (start []) =
    (Ret true, after (start []) weak_IC_calls).
Proof.
  split; [vm_compute; discriminate|].
  split; [repeat split; reflexivity|].
  split; [reflexivity|].
  split; [vm_compute; discriminate|].
  split; reflexivity.
Qed.

(** *** The cached pairing on the sample key *)

Lemma pairing_of_g1_and_g2_not_final_exponentiated :
  exists pvk w',
    verifier_process_vk (vk keypair3) (start []) = (Ret pvk, w') /\
    pairing_of_g1_and_g2 pvk = 5 /\
    final_exponentiation
      (miller_loop (precompute_g1 g_one) (precompute_g2 g_one)) = 72 /\
    pairing_of_g1_and_g2 pvk <>
    final_exponentiation
      (miller_loop (precompute_g1 g_one) (precompute_g2 g_one)).
Proof.
  eexists. eexists. split; [apply verifier_process_vk_run|].
  split; [reflexivity|]. split; [reflexivity|].
  vm_compute. discriminate.
Qed.

(** *** The online strong-IC verifier on the sample proof *)

Lemma online_verifier_strong_IC_cases_witness :
  domain_size (pvk_encoded_IC_query pvk3) <> vsize [14] /\
  online_verifier_strong_IC debug_build pvk3 [14] proof3 (start []) =
    (Ret false, start []) /\
  domain_size (pvk_encoded_IC_query pvk3) = vsize [14; 0] /\
  online_verifier_strong_IC debug_build pvk3 [14; 0] proof3 (start []) =
    online_verifier_weak_IC debug_build pvk3 [14; 0] proof3 (start []).
Proof.
  assert (H1 : domain_size (pvk_encoded_IC_query pvk3) <> vsize [14])
    by (vm_compute; discriminate).
  assert (H2 : domain_size (pvk_encoded_IC_query pvk3) = vsize [14; 0])
    by reflexivity.
  split; [exact H1|]. split.
  - exact (proj1 (online_verifier_strong_IC_cases debug_build pvk3 [14] proof3
                    (start [])) H1).
  - split; [exact H2|].
    exact (proj2 (online_verifier_strong_IC_cases debug_build pvk3 [14; 0]
                    proof3 (start [])) H2).
Defined.

(** *** Zero padding on the sample proof *)

(** C5: with assertions compiled in, the weak-IC verifier aborts on the
    input [(14)] and accepts on the padded input [(14, 0)], both within the
    domain of the encoded IC query of the sample key. *)
Theorem verifier_weak_IC_padding_abort :
  vsize [14] + 1 <= domain_size (encoded_IC_query (vk keypair3)) /\
  fst (verifier_weak_IC debug_build (vk keypair3) [14] proof3 (start [])) =
    Fail AssertionFailed /\
  fst (verifier_weak_IC debug_build (vk keypair3) ([14] ++ repeat fr_zero 1)
         proof3 (start [])) = Ret true /\
  fst (verifier_weak_IC release_build (vk keypair3) [14] proof3 (start [])) =
    Ret true.
Proof.
  split; [vm_compute; discriminate|].
  repeat split; reflexivity.
Qed.

(** *** The generator on the sample constraint system *)

Lemma generator_key_shapes_witness :
  well_shaped_instance
    (instance_map_with_evaluation cs3 (drawn_t (start [3; 2; 4]))) /\
  (NDEBUG debug_build = true \/
   inputs_nonzero
     (instance_map_with_evaluation cs3 (drawn_t (start [3; 2; 4])))) /\
  exists kp,
    generator debug_build cs3 (start [3; 2; 4]) =
      (Ret kp, after_generator (start [3; 2; 4])) /\
    vsize (V_g1_query (pk kp)) = 3 - 2 + 1 /\
    vsize (alpha_V_g1_query (pk kp)) = 3 - 2 + 1 /\
    vsize (H_g1_query (pk kp)) = 4 + 1 /\
    vsize (V_g2_query (pk kp)) = 3 + 2 /\
    domain_size (encoded_IC_query (vk kp)) = 2 /\
    forall wit,
      wit_num_variables wit = 3 ->
      wit_num_inputs wit = 2 ->
      wit_degree wit = 4 ->
      prover_size_assertions (pk kp) wit = true.
Proof.
  assert (H1 : well_shaped_instance
                 (instance_map_with_evaluation cs3 (drawn_t (start [3; 2; 4]))))
    by (split; vm_compute; try reflexivity; discriminate).
  assert (H2 : NDEBUG debug_build = true \/
               inputs_nonzero
                 (instance_map_with_evaluation cs3 (drawn_t (start [3; 2; 4])))).
  { right. intros i Hi. change (0 <= i <= 2) in Hi.
    assert (Hcases : i = 0 \/ i = 1 \/ i = 2) by lia.
    destruct Hcases as [-> | [-> | ->]]; reflexivity. }
  split; [exact H1|]. split; [exact H2|].
  exact (generator_key_shapes debug_build cs3 (start [3; 2; 4]) H1 H2).
Defined.

Lemma generator_Vt_table_length_witness :
  NDEBUG debug_build = false /\
  0 <= inst_num_variables
         (instance_map_with_evaluation cs3 (drawn_t (start [3; 2; 4]))) /\
  inst_num_variables
    (instance_map_with_evaluation cs3 (drawn_t (start [3; 2; 4]))) + 2
  < size_max /\
  generator debug_build cs3 (start [3; 2; 4]) = (Ret keypair3, start []) /\
  vsize (Vt (instance_map_with_evaluation cs3 (drawn_t (start [3; 2; 4])))) =
    3 + 1 /\
  vsize (Vt_table_of
           (instance_map_with_evaluation cs3 (drawn_t (start [3; 2; 4])))) =
    3 + 2 /\
  vsize (V_g2_query (pk keypair3)) = 3 + 2.
Proof.
  assert (H1 : NDEBUG debug_build = false) by reflexivity.
  assert (H2 : 0 <= inst_num_variables
                      (instance_map_with_evaluation cs3
                         (drawn_t (start [3; 2; 4]))))
    by (vm_compute; discriminate).
  assert (H3 : inst_num_variables
                 (instance_map_with_evaluation cs3 (drawn_t (start [3; 2; 4])))
               + 2 < size_max) by reflexivity.
  assert (H4 : generator debug_build cs3 (start [3; 2; 4]) =
               (Ret keypair3, start [])) by reflexivity.
  split; [exact H1|]. split; [exact H2|]. split; [exact H3|].
  split; [exact H4|].
  exact (generator_Vt_table_length debug_build cs3 (start [3; 2; 4]) keypair3
           (start []) H1 H2 H3 H4).
Defined.

(** Were [Vt] to hold [num_variables + 2] entries, the table the generator
    builds from it would hold [num_variables + 3], and the generator's
    sanity check on its size would fail. *)
Lemma Vt_of_length_plus_two_fails :
  vsize (Vt (padded_instance_map cs3 3)) =
    inst_num_variables (padded_instance_map cs3 3) + 2 /\
  vsize (Vt_table_of (padded_instance_map cs3 3)) =
    inst_num_variables (padded_instance_map cs3 3) + 3 /\
  vsize (Vt_table_of (padded_instance_map cs3 3)) <>
    inst_num_variables (padded_instance_map cs3 3) + 2 /\
  fst (@generator toy_curve padded_reduction debug_build cs3 (start [3; 2; 4]))
  = Fail AssertionFailed.
Proof.
  split; [reflexivity|]. split; [reflexivity|].
  split; [vm_compute; discriminate | reflexivity].
Qed.

Lemma generator_copies_constraint_system_witness :
  nth_error caller_store 1 = Some (Holding cs3) /\
  generator_by_reference debug_build 1%nat caller_store (start [3; 2; 4]) =
    (Ret (keypair3, caller_store), start []) /\
  (forall kp s' w',
     generator_by_reference debug_build 1%nat caller_store (start [3; 2; 4]) =
       (Ret (kp, s'), w') ->
     cs (pk kp) = cs3 /\
     nth_error s' 1 = Some (Holding cs3) /\
     s' = caller_store /\
     generator debug_build cs3 (start [3; 2; 4]) = (Ret kp, w') /\
     w' = after_generator (start [3; 2; 4])) /\
  (forall kp w',
     generator debug_build cs3 (start [3; 2; 4]) = (Ret kp, w') ->
     generator_by_reference debug_build 1%nat caller_store (start [3; 2; 4]) =
       (Ret (kp, caller_store), w')).
Proof.
  assert (H : nth_error caller_store 1 = Some (Holding cs3)) by reflexivity.
  split; [exact H|]. split; [reflexivity|].
  exact (generator_copies_constraint_system debug_build 1%nat caller_store cs3
           (start [3; 2; 4]) H).
Defined.

(** *** The prover on the sample inputs *)

Lemma prover_returns_proof_witness :
  is_satisfied (cs (pk keypair3)) [14; 0] [16] = true /\
  prover_shapes (pk keypair3)
    (witness_map (cs (pk keypair3)) [14; 0] [16] (drawn_t (start [9]))) /\
  wit_d (witness_map (cs (pk keypair3)) [14; 0] [16] (drawn_t (start [9]))) =
    drawn_t (start [9]) /\
  prover debug_build (pk keypair3) [14; 0] [16] (start [9]) =
  (Ret (prover_proof (pk keypair3) (drawn_t (start [9]))
          (witness_map (cs (pk keypair3)) [14; 0] [16] (drawn_t (start [9])))),
   {| rng := snd (random_element (rng (start [9]))); trace := trace (start [9]) |}).
Proof.
  assert (H1 : is_satisfied (cs (pk keypair3)) [14; 0] [16] = true)
    by reflexivity.
  assert (H2 : prover_shapes (pk keypair3)
                 (witness_map (cs (pk keypair3)) [14; 0] [16]
                    (drawn_t (start [9]))))
    by (split; vm_compute; try reflexivity; discriminate).
  assert (H3 : wit_d (witness_map (cs (pk keypair3)) [14; 0] [16]
                        (drawn_t (start [9]))) = drawn_t (start [9]))
    by reflexivity.
  split; [exact H1|]. split; [exact H2|]. split; [exact H3|].
  exact (prover_returns_proof debug_build (pk keypair3) [14; 0] [16] (start [9])
           H1 H2 H3).
Defined.

(** *** The default proof under the sample keys *)

Lemma default_proof_rejected_witness :
  generator debug_build cs3 (start [3; 1; 4]) =
    (Ret keypair3_alpha_one, start []) /\
  alpha_tilde_g2 (vk keypair3_alpha_one) = tilde_g2 (vk keypair3_alpha_one) /\
  Z_g2 (vk keypair3_alpha_one) <> g_zero /\
  (V_g1 default_proof = g_one /\ alpha_V_g1 default_proof = g_one /\
   H_g1 default_proof = g_one /\ V_g2 default_proof = g_one) /\
  is_well_formed default_proof = true /\
  (Z_g2 (vk keypair3_alpha_one) =
     g_mul (Zt (instance_map_with_evaluation cs3 (drawn_t (start [3; 1; 4]))))
           g_one /\
   tilde_g2 (vk keypair3_alpha_one) = g_mul (drawn_tilde (start [3; 1; 4])) g_one /\
   alpha_tilde_g2 (vk keypair3_alpha_one) =
     g_mul (fr_mul (drawn_alpha (start [3; 1; 4])) (drawn_tilde (start [3; 1; 4])))
           g_one) /\
  (forall (B' : build) x w2 w',
     verifier_weak_IC B' (vk keypair3_alpha_one) x default_proof w2 = (Ret true, w') \/
     verifier_strong_IC B' (vk keypair3_alpha_one) x default_proof w2 =
       (Ret true, w') ->
     Z_g2 (vk keypair3_alpha_one) = g_zero /\
     alpha_tilde_g2 (vk keypair3_alpha_one) = tilde_g2 (vk keypair3_alpha_one) /\
     equation_V (processed (vk keypair3_alpha_one)) x default_proof = gt_one) /\
  (forall (B' : build) x w2,
     Z_g2 (vk keypair3_alpha_one) <> g_zero \/
     alpha_tilde_g2 (vk keypair3_alpha_one) <> tilde_g2 (vk keypair3_alpha_one) \/
     equation_V (processed (vk keypair3_alpha_one)) x default_proof <> gt_one ->
     (forall verdict w',
        verifier_weak_IC B' (vk keypair3_alpha_one) x default_proof w2 =
          (Ret verdict, w') ->
        verdict = false) /\
     (forall verdict w',
        verifier_strong_IC B' (vk keypair3_alpha_one) x default_proof w2 =
          (Ret verdict, w') ->
        verdict = false) /\
     (NDEBUG B' = true ->
      fst (verifier_weak_IC B' (vk keypair3_alpha_one) x default_proof w2) =
        Ret false /\
      fst (verifier_strong_IC B' (vk keypair3_alpha_one) x default_proof w2) =
        Ret false)).
Proof.
  assert (H1 : generator debug_build cs3 (start [3; 1; 4]) =
               (Ret keypair3_alpha_one, start [])) by reflexivity.
  split; [exact H1|]. split; [reflexivity|].
  split; [vm_compute; discriminate|].
  exact (default_proof_rejected debug_build cs3 (start [3; 1; 4])
           keypair3_alpha_one (start []) H1).
Defined.

(** Under the keys of the degenerate trapdoor both verifiers accept the
    default proof on the input [(15)]. *)
Lemma default_proof_accepted_degenerate :
  generator debug_build cs2 (start [1; 1; 4]) =
    (Ret degenerate_keypair, start []) /\
  is_well_formed default_proof = true /\
  fst (verifier_weak_IC debug_build (vk degenerate_keypair) [15] default_proof
         (start [])) = Ret true /\
  fst (verifier_strong_IC debug_build (vk degenerate_keypair) [15] default_proof
         (start [])) = Ret true.
Proof. repeat split; reflexivity. Qed.

(** ** Further properties of the prover *)

Section ProverRuns.

Context {C : Curve} {R : Reduction}.

Lemma defined_bind {A A'} (o : option A) (k : A -> M A') (w : world) :
  bind (defined o) k w =
  match o with
  | Some a => k a w
  | None => (Fail UndefinedBehaviour, w)
  end.
Proof. destruct o; reflexivity. Qed.

Lemma assert_bind {A'} (B : build) (c : bool) (k : unit -> M A') (w : world) :
  bind (assert_ B (ret c)) k w =
  if NDEBUG B || c then k tt w else (Fail AssertionFailed, w).
Proof.
  unfold bind. rewrite assert_run. destruct (NDEBUG B || c); reflexivity.
Qed.

(** A run of the prover: one draw, then the checks, then the accesses. *)
Lemma prover_run (B : build) pk0 x y w :
  let wit := witness_map (cs pk0) x y (drawn_t w) in
  prover B pk0 x y w =
  if NDEBUG B || prover_assertions pk0 x y wit
  then match prover_computation B pk0 wit with
       | Some pi => (Ret pi, after_prover w)
       | None => (Fail UndefinedBehaviour, after_prover w)
       end
  else (Fail AssertionFailed, after_prover w).
Proof.
  intros wit. unfold prover.
  erewrite bind_run by apply draw_run.
  fold (drawn_t w). fold wit. fold (after_prover w).
  unfold prover_assertions, prover_size_assertions.
  rewrite !assert_bind.
  destruct (NDEBUG B); cbn [orb].
  - unfold prover_computation, option_bind, multiexp_with_mixed_addition.
    rewrite !defined_bind.
    repeat match goal with
           | |- context [match ?o with Some _ => _ | None => _ end] =>
               lazymatch o with
               | vec_at _ _ => destruct o
               | vec_range _ _ _ => destruct o
               end
           end; reflexivity.
  - destruct (is_satisfied (cs pk0) x y); cbn [andb]; [|reflexivity].
    destruct (vsize (V_g1_query pk0) =? _); cbn [andb]; [|reflexivity].
    destruct (vsize (alpha_V_g1_query pk0) =? _); cbn [andb]; [|reflexivity].
    destruct (vsize (H_g1_query pk0) =? _); cbn [andb]; [|reflexivity].
    destruct (vsize (V_g2_query pk0) =? _); cbn [andb]; [|reflexivity].
    unfold prover_computation, option_bind, multiexp_with_mixed_addition.
    rewrite !defined_bind.
    repeat match goal with
           | |- context [match ?o with Some _ => _ | None => _ end] =>
               lazymatch o with
               | vec_at _ _ => destruct o
               | vec_range _ _ _ => destruct o
               end
           end; reflexivity.
Qed.

Lemma option_bind_inv {A A'} (o : option A) (k : A -> option A') (b : A') :
  option_bind o k = Some b -> exists a, o = Some a /\ k a = Some b.
Proof. destruct o as [a|]; cbn; [eauto | discriminate]. Qed.

Lemma prover_returns_inv (B : build) pk0 x y w pi w' :
  prover B pk0 x y w = (Ret pi, w') ->
  let wit := witness_map (cs pk0) x y (drawn_t w) in
  NDEBUG B || prover_assertions pk0 x y wit = true /\
  prover_computation B pk0 wit = Some pi /\
  w' = after_prover w.
Proof.
  intros H wit. rewrite prover_run in H. fold wit in H.
  destruct (NDEBUG B || prover_assertions pk0 x y wit); [|discriminate].
  destruct (prover_computation B pk0 wit); inversion H. auto.
Qed.

(** X1: where assertions are compiled in, the prover aborts on an
    assertion, having drawn its blinding scalar and touched no query, as
    soon as the inputs do not satisfy the constraint system of the proving
    key or a query of the key has not the size the witness asks for. *)
Theorem prover_aborts_on_failed_check (B : build) pk0 x y w :
  NDEBUG B = false ->
  is_satisfied (cs pk0) x y = false \/
  prover_size_assertions pk0 (witness_map (cs pk0) x y (drawn_t w)) = false ->
  prover B pk0 x y w = (Fail AssertionFailed, after_prover w).
Proof.
  intros HB Hcheck. rewrite prover_run, HB. unfold prover_assertions.
  destruct Hcheck as [-> | ->]; [reflexivity|].
  now rewrite andb_false_r.
Qed.

(** X2: every proof the prover returns was computed under
    [0 <= num_inputs <= num_variables], from non-empty queries and from
    coefficient vectors that cover the ranges read; and where assertions
    are compiled in, on inputs that satisfy the constraint system and
    queries of the asserted sizes. *)
Theorem prover_returns_only_on_shaped_inputs (B : build) pk0 x y w pi w' :
  prover B pk0 x y w = (Ret pi, w') ->
  let wit := witness_map (cs pk0) x y (drawn_t w) in
  0 <= wit_num_inputs wit /\
  wit_num_inputs wit <= wit_num_variables wit /\
  wit_num_variables wit <= vsize (coefficients_for_Vs wit) /\
  wit_num_variables wit + 1 <= vsize (V_g2_query pk0) /\
  wit_degree wit + 1 <= vsize (H_g1_query pk0) /\
  wit_degree wit + 1 <= vsize (coefficients_for_H wit) /\
  0 < vsize (V_g1_query pk0) /\
  0 < vsize (alpha_V_g1_query pk0) /\
  (NDEBUG B = false ->
   is_satisfied (cs pk0) x y = true /\ prover_size_assertions pk0 wit = true).
Proof.
  intros H wit. apply prover_returns_inv in H. fold wit in H.
  destruct H as (Hchecks & Hcomp & _).
  unfold prover_computation in Hcomp.
  apply option_bind_inv in Hcomp. destruct Hcomp as (V1 & HV1 & Hcomp).
  apply option_bind_inv in Hcomp. destruct Hcomp as (aV1 & HaV1 & Hcomp).
  apply option_bind_inv in Hcomp. destruct Hcomp as (V20 & _ & Hcomp).
  apply option_bind_inv in Hcomp. destruct Hcomp as (V2l & _ & Hcomp).
  apply option_bind_inv in Hcomp. destruct Hcomp as (ps1 & _ & Hcomp).
  apply option_bind_inv in Hcomp. destruct Hcomp as (ss1 & Hss1 & Hcomp).
  apply option_bind_inv in Hcomp. destruct Hcomp as (ps2 & _ & Hcomp).
  apply option_bind_inv in Hcomp. destruct Hcomp as (ss2 & _ & Hcomp).
  apply option_bind_inv in Hcomp. destruct Hcomp as (ps3 & Hps3 & Hcomp).
  apply option_bind_inv in Hcomp. destruct Hcomp as (ss3 & Hss3 & Hcomp).
  apply option_bind_inv in Hcomp. destruct Hcomp as (ps4 & Hps4 & _).
  apply vec_range_inv in Hss1, Hps3, Hss3, Hps4.
  apply vec_at_inv in HV1, HaV1.
  do 8 (split; [lia|]).
  intros HB. rewrite HB in Hchecks. cbn in Hchecks.
  unfold prover_assertions in Hchecks. now apply andb_true_iff in Hchecks.
Qed.

(** X3: assertions only check: whenever the prover returns a proof in a
    build, it returns the same proof, from the same draw, in the build that
    differs only in having assertions compiled out. *)
Theorem prover_assertions_only_check (B : build) pk0 x y w pi w' :
  prover B pk0 x y w = (Ret pi, w') ->
  prover (without_assertions B) pk0 x y w = (Ret pi, w').
Proof.
  intros H. apply prover_returns_inv in H. destruct H as (_ & Hcomp & ->).
  rewrite prover_run. cbn [NDEBUG without_assertions orb].
  change (prover_computation (without_assertions B))
    with (prover_computation B).
  now rewrite Hcomp.
Qed.

(** On a key and a witness of the asserted shapes every access of the
    prover is defined, and the proof computed is that of section 4.3. *)
Lemma prover_computation_shaped {L : CurveLaws C} (B : build) pk0 wit :
  prover_shapes pk0 wit ->
  prover_computation B pk0 wit = Some (prover_proof pk0 (wit_d wit) wit).
Proof.
  intros [Hni Hle Hnv Hdeg Hdegb HV HaV HH HV2 HcV HcH].
  assert (Hsub : size_sub (wit_num_variables wit) (wit_num_inputs wit) =
                 wit_num_variables wit - wit_num_inputs wit).
  { unfold size_sub. apply wrap_small. lia. }
  destruct (multiexp_of_ranges g1_type (V_g1_query pk0) (coefficients_for_Vs wit)
              0 (wit_num_variables wit - wit_num_inputs wit)
              (wit_num_inputs wit) (wit_num_variables wit) (chunks B))
    as (ps1 & ss1 & Hps1 & Hss1 & E1); try lia.
  destruct (multiexp_of_ranges g1_type (alpha_V_g1_query pk0)
              (coefficients_for_Vs wit)
              0 (wit_num_variables wit - wit_num_inputs wit)
              (wit_num_inputs wit) (wit_num_variables wit) (chunks B))
    as (ps2 & ss2 & Hps2 & Hss2 & E2); try lia.
  destruct (multiexp_of_ranges g1_type (H_g1_query pk0) (coefficients_for_H wit)
              0 (wit_degree wit + 1) 0 (wit_degree wit + 1) (chunks B))
    as (ps3 & ss3 & Hps3 & Hss3 & E3); try lia.
  destruct (multiexp_of_ranges g2_type (V_g2_query pk0) (coefficients_for_Vs wit)
              1 (wit_num_variables wit + 1) 0 (wit_num_variables wit) (chunks B))
    as (ps4 & ss4 & Hps4 & Hss4 & E4); try lia.
  rewrite Hss1 in Hss2. injection Hss2 as <-.
  unfold prover_computation.
  rewrite !(vec_at_last g1_type) by lia.
  rewrite (vec_at_last g2_type) by lia.
  rewrite (vec_at_nth g2_type) by lia.
  rewrite Hsub, Hps1, Hss1, Hps2, Hps3, Hss3, Hps4, Hss4.
  cbn [option_bind]. rewrite E1, E2, E3, E4, g1_add_zero_l.
  replace (Z.to_nat (wit_num_variables wit - wit_num_inputs wit - 0))
    with (Z.to_nat (wit_num_variables wit) - Z.to_nat (wit_num_inputs wit))%nat
    by lia.
  replace (Z.to_nat (wit_degree wit + 1 - 0))
    with (Z.to_nat (wit_degree wit) + 1)%nat by lia.
  replace (Z.to_nat (wit_num_variables wit + 1 - 1))
    with (Z.to_nat (wit_num_variables wit)) by lia.
  reflexivity.
Qed.

(** X4: with assertions compiled out the prover does not look at
    satisfaction: on a key and a witness of the asserted shapes it returns
    the proof of section 4.3 whether or not the inputs satisfy the
    constraint system. *)
Theorem prover_release_trusts_caller {L : CurveLaws C} (B : build) pk0 x y w :
  let wit := witness_map (cs pk0) x y (drawn_t w) in
  NDEBUG B = true ->
  prover_shapes pk0 wit ->
  prover B pk0 x y w = (Ret (prover_proof pk0 (wit_d wit) wit), after_prover w).
Proof.
  intros wit HB Hshapes. rewrite prover_run, HB. fold wit. cbn [orb].
  now rewrite (prover_computation_shaped B pk0 wit Hshapes).
Qed.

End ProverRuns.

(** ** Further properties of the verifiers *)

Section VerifierRuns.

Context {C : Curve} {R : Reduction}.

Lemma weak_IC_verdict_malformed pvk x pi :
  is_well_formed pi = false -> weak_IC_verdict pvk x pi = false.
Proof.
  intros H. unfold weak_IC_verdict, unless_one. rewrite H. cbn.
  repeat match goal with |- context [gt_eq_dec ?a ?b] => destruct (gt_eq_dec a b) end;
    reflexivity.
Qed.

(** The outcome of a run of the online weak-IC verifier, whatever the
    build: the verdict of its body or an assertion failure, the sampler
    untouched. *)
Lemma online_verifier_weak_IC_outcome (B : build) pvk x pi w :
  (fst (online_verifier_weak_IC B pvk x pi w) = Ret (weak_IC_verdict pvk x pi) \/
   NDEBUG B = false /\
   fst (online_verifier_weak_IC B pvk x pi w) = Fail AssertionFailed) /\
  rng (snd (online_verifier_weak_IC B pvk x pi w)) = rng w.
Proof.
  rewrite online_verifier_weak_IC_run.
  destruct (NDEBUG B); cbn [orb]; [split; [now left | reflexivity]|].
  destruct (weak_IC_assertions pvk x); cbn; split; auto.
Qed.

Lemma online_verifier_strong_IC_outcome (B : build) pvk x pi w :
  (fst (online_verifier_strong_IC B pvk x pi w) = Ret (weak_IC_verdict pvk x pi) \/
   fst (online_verifier_strong_IC B pvk x pi w) = Ret false \/
   NDEBUG B = false /\
   fst (online_verifier_strong_IC B pvk x pi w) = Fail AssertionFailed) /\
  rng (snd (online_verifier_strong_IC B pvk x pi w)) = rng w.
Proof.
  rewrite online_verifier_strong_IC_run.
  destruct (_ =? _).
  - destruct (online_verifier_weak_IC_outcome B pvk x pi w) as [[H|H] Hr];
      split; auto.
  - cbn. auto.
Qed.

(** X5: a proof that fails the well-formedness check is accepted by none
    of the four verifiers, although every pairing equation is still
    evaluated; where assertions are compiled out the weak-IC verifiers
    return [false] on it. *)
Theorem malformed_proof_never_accepted (B : build) vk0 pvk x pi w :
  is_well_formed pi = false ->
  fst (online_verifier_weak_IC B pvk x pi w) <> Ret true /\
  fst (online_verifier_strong_IC B pvk x pi w) <> Ret true /\
  fst (verifier_weak_IC B vk0 x pi w) <> Ret true /\
  fst (verifier_strong_IC B vk0 x pi w) <> Ret true /\
  (NDEBUG B = true ->
   online_verifier_weak_IC B pvk x pi w = (Ret false, after w weak_IC_calls) /\
   verifier_weak_IC B vk0 x pi w =
     (Ret false, after (after w process_vk_calls) weak_IC_calls)).
Proof.
  intros Hwf.
  assert (Hweak : forall k v, fst (online_verifier_weak_IC B k x pi v) <> Ret true).
  { intros k v.
    destruct (online_verifier_weak_IC_outcome B k x pi v) as [[H|[_ H]] _];
      rewrite H; [rewrite weak_IC_verdict_malformed by exact Hwf|]; discriminate. }
  assert (Hstrong : forall k v,
            fst (online_verifier_strong_IC B k x pi v) <> Ret true).
  { intros k v.
    destruct (online_verifier_strong_IC_outcome B k x pi v)
      as [[H|[H|[_ H]]] _];
      rewrite H; [rewrite weak_IC_verdict_malformed by exact Hwf| |];
      discriminate. }
  split; [apply Hweak|]. split; [apply Hstrong|].
  split; [rewrite verifier_weak_IC_run; apply Hweak|].
  split; [rewrite verifier_strong_IC_run; apply Hstrong|].
  intros HB.
  rewrite verifier_weak_IC_run, !online_verifier_weak_IC_run, HB.
  cbn [orb]. rewrite !weak_IC_verdict_malformed by exact Hwf. auto.
Qed.

(** X6: when the online strong-IC verifier accepts, the input has exactly
    the length of the domain of the encoded IC query, the online weak-IC
    verifier accepts in the same run, and the proof is well formed and
    satisfies the three pairing equations. *)
Theorem online_strong_IC_acceptance (B : build) pvk x pi w w' :
  online_verifier_strong_IC B pvk x pi w = (Ret true, w') ->
  domain_size (pvk_encoded_IC_query pvk) = vsize x /\
  online_verifier_weak_IC B pvk x pi w = (Ret true, w') /\
  accepting pvk x pi /\
  w' = after w weak_IC_calls.
Proof.
  rewrite online_verifier_strong_IC_run.
  destruct (Z.eqb_spec (domain_size (pvk_encoded_IC_query pvk)) (vsize x))
    as [Hsize|_]; [|discriminate].
  intros H. split; [exact Hsize|]. split; [exact H|].
  rewrite online_verifier_weak_IC_run in H.
  destruct (NDEBUG B || weak_IC_assertions pvk x); [|discriminate].
  inversion H as [[Hverdict Hw]]. split; [|reflexivity].
  now apply weak_IC_verdict_true.
Qed.

(** X7: no verifier draws from the sampler or has undefined behaviour: a
    run ends with a verdict or, where assertions are compiled in, with an
    assertion failure; with assertions compiled out every verifier returns
    a verdict on every input. *)
Theorem verifiers_only_fail_assertions (B : build) vk0 pvk x pi w :
  (rng (snd (online_verifier_weak_IC B pvk x pi w)) = rng w /\
   rng (snd (online_verifier_strong_IC B pvk x pi w)) = rng w /\
   rng (snd (verifier_weak_IC B vk0 x pi w)) = rng w /\
   rng (snd (verifier_strong_IC B vk0 x pi w)) = rng w) /\
  (fst (online_verifier_weak_IC B pvk x pi w) <> Fail UndefinedBehaviour /\
   fst (online_verifier_strong_IC B pvk x pi w) <> Fail UndefinedBehaviour /\
   fst (verifier_weak_IC B vk0 x pi w) <> Fail UndefinedBehaviour /\
   fst (verifier_strong_IC B vk0 x pi w) <> Fail UndefinedBehaviour) /\
  (NDEBUG B = true ->
   (exists v, fst (online_verifier_weak_IC B pvk x pi w) = Ret v) /\
   (exists v, fst (online_verifier_strong_IC B pvk x pi w) = Ret v) /\
   (exists v, fst (verifier_weak_IC B vk0 x pi w) = Ret v) /\
   (exists v, fst (verifier_strong_IC B vk0 x pi w) = Ret v)).
Proof.
  assert (Hweak : forall k v,
            rng (snd (online_verifier_weak_IC B k x pi v)) = rng v /\
            fst (online_verifier_weak_IC B k x pi v) <> Fail UndefinedBehaviour /\
            (NDEBUG B = true ->
             exists r, fst (online_verifier_weak_IC B k x pi v) = Ret r)).
  { intros k v.
    destruct (online_verifier_weak_IC_outcome B k x pi v) as [[H|[HB H]] Hr];
      rewrite H; repeat split; try assumption; try discriminate.
    - intros _. eauto.
    - intros HB'. congruence. }
  assert (Hstrong : forall k v,
            rng (snd (online_verifier_strong_IC B k x pi v)) = rng v /\
            fst (online_verifier_strong_IC B k x pi v) <> Fail UndefinedBehaviour /\
            (NDEBUG B = true ->
             exists r, fst (online_verifier_strong_IC B k x pi v) = Ret r)).
  { intros k v.
    destruct (online_verifier_strong_IC_outcome B k x pi v)
      as [[H|[H|[HB H]]] Hr];
      rewrite H; repeat split; try assumption; try discriminate.
    - intros _. eauto.
    - intros _. eauto.
    - intros HB'. congruence. }
  rewrite verifier_weak_IC_run, verifier_strong_IC_run.
  destruct (Hweak pvk w) as (A1 & A2 & A3).
  destruct (Hstrong pvk w) as (B1 & B2 & B3).
  destruct (Hweak (processed vk0) (after w process_vk_calls)) as (C1 & C2 & C3).
  destruct (Hstrong (processed vk0) (after w process_vk_calls)) as (D1 & D2 & D3).
  cbn [after rng] in C1, D1.
  repeat split; auto.
Qed.

(** X8: assertions only check: whenever a verifier returns a verdict in a
    build, it returns the same verdict, with the same calls, in the build
    that differs only in having assertions compiled out. *)
Theorem verifier_assertions_only_check (B : build) vk0 pvk x pi w v w' :
  (online_verifier_weak_IC B pvk x pi w = (Ret v, w') ->
   online_verifier_weak_IC (without_assertions B) pvk x pi w = (Ret v, w')) /\
  (online_verifier_strong_IC B pvk x pi w = (Ret v, w') ->
   online_verifier_strong_IC (without_assertions B) pvk x pi w = (Ret v, w')) /\
  (verifier_weak_IC B vk0 x pi w = (Ret v, w') ->
   verifier_weak_IC (without_assertions B) vk0 x pi w = (Ret v, w')) /\
  (verifier_strong_IC B vk0 x pi w = (Ret v, w') ->
   verifier_strong_IC (without_assertions B) vk0 x pi w = (Ret v, w')).
Proof.
  assert (Hweak : forall k u,
            online_verifier_weak_IC B k x pi u = (Ret v, w') ->
            online_verifier_weak_IC (without_assertions B) k x pi u = (Ret v, w')).
  { intros k u. rewrite !online_verifier_weak_IC_run.
    cbn [NDEBUG without_assertions orb].
    destruct (NDEBUG B || weak_IC_assertions k x); [auto | discriminate]. }
  assert (Hstrong : forall k u,
            online_verifier_strong_IC B k x pi u = (Ret v, w') ->
            online_verifier_strong_IC (without_assertions B) k x pi u =
              (Ret v, w')).
  { intros k u. rewrite !online_verifier_strong_IC_run.
    destruct (_ =? _); [apply Hweak | auto]. }
  rewrite !verifier_weak_IC_run, !verifier_strong_IC_run.
  repeat split; auto.
Qed.

End VerifierRuns.

(** ** Further properties of the generator *)

Section GeneratorRuns.

Context {C : Curve} {R : Reduction}.

(** The loop of the generator fails its assertion at the first entry
    that is zero. *)
Lemma for_loop_nonzero_fail (B : build) (v : list Fr) (count i : nat) (w : world) :
  NDEBUG B = false ->
  (forall j, (i <= j < i + count)%nat -> exists s, vec_at v (Z.of_nat j) = Some s) ->
  (exists j, (i <= j < i + count)%nat /\ nonzero_at v (Z.of_nat j) = false) ->
  for_loop count (Z.of_nat i)
    (fun i => assert_ B (x <- defined (vec_at v i) ;; ret (negb (fr_is_zero x)))) w
  = (Fail AssertionFailed, w).
Proof.
  intros HB. revert i. induction count as [|count IH]; intros i Hdef (j & Hj & Hz).
  - lia.
  - cbn [for_loop].
    destruct (nonzero_at v (Z.of_nat i)) eqn:Hi.
    + erewrite bind_run by (apply assert_nonzero_run; now right).
      replace (Z.of_nat i + 1) with (Z.of_nat (S i)) by lia.
      apply IH.
      * intros k Hk. apply Hdef. lia.
      * exists j. split; [|exact Hz].
        assert (j <> i) by (intros ->; congruence). lia.
    + apply bind_fail. unfold assert_. rewrite HB.
      destruct (Hdef i ltac:(lia)) as [s Hs].
      unfold nonzero_at in Hi. rewrite Hs in *. cbn. unfold bind. cbn.
      now rewrite Hi.
Qed.

(** X10: where assertions are compiled in, the generator aborts on a
    well-shaped instance evaluation as soon as some [V_i(t)] with [i] in
    [[0, num_inputs]] is zero, having drawn [t] only. *)
Theorem generator_aborts_on_zero_input_evaluation (B : build) cs0 w i :
  let inst := instance_map_with_evaluation cs0 (drawn_t w) in
  NDEBUG B = false ->
  well_shaped_instance inst ->
  0 <= i <= inst_num_inputs inst ->
  nonzero_at (Vt inst) i = false ->
  generator B cs0 w = (Fail AssertionFailed, after_prover w).
Proof.
  intros inst HB Hshape Hi Hzero.
  destruct (generator_tables inst Hshape)
    as (Xt & VmX & Xt_0 & Xt_tail & HXt & HVmX & HXt0 & HXtail & SXt & SVmX
        & SXtail & Hat).
  destruct Hshape as [Hni Hle Hnv Hdeg Hdegb HVt HHt].
  assert (Hsize : vsize (Vt_table_of inst) = inst_num_variables inst + 2).
  { rewrite Vt_table_of_length. lia. }
  unfold generator.
  erewrite bind_run by apply draw_run.
  fold (drawn_t w). fold inst. fold (Vt_table_of inst). fold (after_prover w).
  rewrite defined_bind, HXt, defined_bind, HVmX.
  unfold size_add, size_sub.
  rewrite (wrap_small (inst_num_variables inst + 2)) by lia.
  rewrite (wrap_small (inst_degree inst + 1)) by lia.
  rewrite (wrap_small (inst_num_inputs inst + 1)) by lia.
  rewrite (wrap_small (inst_num_variables inst + 2 - inst_num_inputs inst)) by lia.
  rewrite (wrap_small (inst_num_variables inst + 2 - inst_num_inputs inst - 1))
    by lia.
  rewrite !assert_bind.
  replace (vsize (Vt_table_of inst) =? inst_num_variables inst + 2) with true
    by (symmetry; apply Z.eqb_eq; lia).
  replace (vsize (Ht inst) =? inst_degree inst + 1) with true
    by (symmetry; apply Z.eqb_eq; lia).
  replace (vsize Xt =? inst_num_inputs inst + 1) with true
    by (symmetry; apply Z.eqb_eq; lia).
  replace (vsize VmX =? inst_num_variables inst + 2 - inst_num_inputs inst - 1)
    with true by (symmetry; apply Z.eqb_eq; lia).
  rewrite !orb_true_r.
  apply bind_fail. apply (for_loop_nonzero_fail B Xt _ 0 _ HB).
  - intros j Hj. apply vec_at_defined. lia.
  - exists (Z.to_nat i). split; [lia|].
    unfold nonzero_at. rewrite Z2Nat.id by lia. rewrite Hat by lia.
    exact Hzero.
Qed.

(** The tables of a run of the generator that returns, as slices of
    [Vt_table]. *)
Lemma generator_returns_tables (B : build) cs0 w kp w' :
  generator B cs0 w = (Ret kp, w') ->
  let inst := instance_map_with_evaluation cs0 (drawn_t w) in
  let T := Vt_table_of inst in
  let n := Z.to_nat (inst_num_inputs inst + 1) in
  0 <= inst_num_inputs inst /\
  inst_num_inputs inst + 1 <= vsize T /\
  (NDEBUG B = true \/ generator_assertions inst (firstn n T) (skipn n T) = true) /\
  exists Xt_0,
    nth_error T 0 = Some Xt_0 /\
    kp = generator_keypair B cs0 inst (drawn_alpha w) (drawn_tilde w)
           Xt_0 (skipn 1 (firstn n T)) (skipn n T) /\
    w' = after_generator w.
Proof.
  intros Hrun inst T n. apply generator_inv in Hrun.
  fold inst in Hrun. fold T in Hrun.
  destruct Hrun as (Xt & VmX & Xt_0 & Xt_tail & HXt & HVmX & HXt0 & HXtail
                    & Hchecks & -> & ->).
  apply vec_range_inv in HXt. destruct HXt as (_ & HXa & HXb & EXt & SXt).
  apply vec_range_inv in HVmX. destruct HVmX as (_ & _ & _ & EVmX & SVmX).
  apply vec_range_inv in HXtail. destruct HXtail as (_ & _ & _ & EXtail & _).
  apply vec_at_inv in HXt0. destruct HXt0 as (HXt0 & EXt0).
  replace (inst_num_inputs inst + 1 - 0) with (inst_num_inputs inst + 1)
    in EXt by lia.
  cbn [Z.to_nat skipn] in EXt. fold n in EXt.
  assert (EVmX' : VmX = skipn n T).
  { rewrite EVmX. apply firstn_all2. rewrite length_skipn.
    unfold vsize, n. lia. }
  assert (EXtail' : Xt_tail = skipn 1 Xt).
  { rewrite EXtail. change (Z.to_nat 1) with 1%nat.
    apply firstn_all2. rewrite length_skipn. unfold vsize. lia. }
  clear EVmX EXtail. subst VmX Xt_tail Xt.
  split; [lia|]. split; [lia|]. split; [exact Hchecks|].
  exists Xt_0. split; [|split; reflexivity].
  cbn [Z.to_nat] in EXt0. rewrite nth_error_firstn in EXt0.
  destruct (0 <? n)%nat eqn:Hn; [exact EXt0 | discriminate].
Qed.

Lemma map_fst_combine {A A'} (l : list A) (l' : list A') :
  length l = length l' -> map fst (combine l l') = l.
Proof.
  revert l'. induction l as [|a l IH]; intros [|a' l'] H; cbn in *;
    try discriminate; [reflexivity|].
  f_equal. apply IH. now injection H.
Qed.

Lemma map_snd_combine {A A'} (l : list A) (l' : list A') :
  length l = length l' -> map snd (combine l l') = l'.
Proof.
  revert l'. induction l as [|a l IH]; intros [|a' l'] H; cbn in *;
    try discriminate; [reflexivity|].
  f_equal. apply IH. now injection H.
Qed.

Lemma last_of_encode (B : build) (G : group_type Fr) (v : list Fr) (s : Fr) :
  last_of G (encode B G (v ++ [s])) = special_if_mixed B G (g_mul s g_one).
Proof.
  unfold last_of, encode, special_if_mixed.
  destruct (USE_MIXED_ADDITION B).
  - rewrite !length_map, length_app, !map_app. cbn [length map].
    rewrite app_nth2 by (rewrite !length_map; lia).
    rewrite !length_map.
    replace (length v + 1 - 1 - length v)%nat with 0%nat by lia. reflexivity.
  - rewrite !length_map, length_app, !map_app. cbn [length map].
    rewrite app_nth2 by (rewrite !length_map; lia).
    rewrite !length_map.
    replace (length v + 1 - 1 - length v)%nat with 0%nat by lia. reflexivity.
Qed.

Lemma nth_encode (B : build) (G : group_type Fr) (v : list Fr) (i : nat) (s : Fr) :
  nth_error v i = Some s ->
  nth i (encode B G v) g_zero = special_if_mixed B G (g_mul s g_one).
Proof.
  intros H. unfold encode, special_if_mixed.
  destruct (USE_MIXED_ADDITION B).
  - apply nth_error_nth. rewrite map_map.
    now apply map_nth_error
      with (f := fun x : Fr => g_to_special (g_mul x (g_one : G))).
  - apply nth_error_nth.
    now apply map_nth_error with (f := fun x : Fr => g_mul x (g_one : G)).
Qed.

(** X11: every query of a key pair the generator returns encodes a slice
    of the one table [Vt_table = Vt ++ [Zt]]: [V_g2_query] the whole table,
    [V_g1_query] and (times [alpha]) [alpha_V_g1_query] the entries after
    the first [num_inputs + 1], the encoded IC query the first
    [num_inputs + 1] (base, then positions [0 .. num_inputs)), and
    [H_g1_query] the table [Ht].  So the constant slot is shared by
    [V_g2_query[0]] and the IC base, and the dummy slot [V_g2_query[last]]
    is [Z_g2] of the verification key. *)
Theorem generator_key_layout (B : build) cs0 w kp w' :
  generator B cs0 w = (Ret kp, w') ->
  let inst := instance_map_with_evaluation cs0 (drawn_t w) in
  let T := Vt_table_of inst in
  let n := Z.to_nat (inst_num_inputs inst + 1) in
  V_g2_query (pk kp) = encode B g2_type T /\
  V_g1_query (pk kp) = encode B g1_type (skipn n T) /\
  alpha_V_g1_query (pk kp) =
    encode B g1_type (map (fr_mul (drawn_alpha w)) (skipn n T)) /\
  H_g1_query (pk kp) = encode B g1_type (Ht inst) /\
  (exists V_0,
     nth_error T 0 = Some V_0 /\
     first (encoded_IC_query (vk kp)) = g_mul V_0 g_one /\
     nth 0 (V_g2_query (pk kp)) g_zero =
       special_if_mixed B g2_type (g_mul V_0 g_one)) /\
  map snd (rest (encoded_IC_query (vk kp))) =
    map (fun s => g_mul s g_one) (skipn 1 (firstn n T)) /\
  map fst (rest (encoded_IC_query (vk kp))) =
    map Z.of_nat (seq 0 (Z.to_nat (inst_num_inputs inst))) /\
  last_of g2_type (V_g2_query (pk kp)) =
    special_if_mixed B g2_type (Z_g2 (vk kp)).
Proof.
  intros Hrun inst T n.
  apply generator_returns_tables in Hrun. fold inst T n in Hrun.
  destruct Hrun as (Hni & HT & _ & V_0 & HV0 & -> & _).
  cbn [generator_keypair pk vk V_g1_query alpha_V_g1_query H_g1_query
       V_g2_query encoded_IC_query Z_g2].
  do 4 (split; [reflexivity|]).
  assert (Hlen : length (skipn 1 (firstn n T)) = Z.to_nat (inst_num_inputs inst)).
  { rewrite length_skipn, length_firstn. unfold vsize, n in *. lia. }
  split; [|split; [|split]].
  - exists V_0. split; [exact HV0|]. split; [reflexivity|].
    now apply nth_encode.
  - unfold make_accumulation_vector. cbn [rest].
    apply map_snd_combine. now rewrite length_map, length_seq, length_map.
  - unfold make_accumulation_vector. cbn [rest].
    rewrite length_map, Hlen.
    apply map_fst_combine. now rewrite !length_map, length_seq.
  - apply last_of_encode.
Qed.

Lemma generator_keypair_sizes (B : build) cs0 inst alpha tilde Xt_0 Xt_tail VmX :
  let kp := generator_keypair B cs0 inst alpha tilde Xt_0 Xt_tail VmX in
  vsize (V_g1_query (pk kp)) = vsize VmX /\
  vsize (alpha_V_g1_query (pk kp)) = vsize VmX /\
  vsize (H_g1_query (pk kp)) = vsize (Ht inst) /\
  vsize (V_g2_query (pk kp)) = vsize (Vt inst) + 1 /\
  domain_size (encoded_IC_query (vk kp)) = vsize Xt_tail.
Proof.
  cbn [generator_keypair pk vk V_g1_query alpha_V_g1_query H_g1_query
       V_g2_query encoded_IC_query].
  rewrite !encode_length, vsize_map, domain_size_make, vsize_map,
          Vt_table_of_length.
  repeat split; reflexivity.
Qed.

Lemma generator_slice_sizes (inst : ssp_instance_evaluation) :
  let T := Vt_table_of inst in
  let n := Z.to_nat (inst_num_inputs inst + 1) in
  0 <= inst_num_inputs inst ->
  inst_num_inputs inst + 1 <= vsize T ->
  vsize (firstn n T) = inst_num_inputs inst + 1 /\
  vsize (skipn n T) = vsize (Vt inst) - inst_num_inputs inst /\
  vsize (skipn 1 (firstn n T)) = inst_num_inputs inst.
Proof.
  intros T n Hni HT.
  pose proof (Vt_table_of_length inst) as HTl. fold T in HTl.
  unfold vsize in *.
  rewrite !length_skipn, !length_firstn. unfold n. lia.
Qed.

(** X12: the sizes of the queries of every key pair the generator
    returns, in any build, are tied to the tables it read: [V_g1_query]
    and [alpha_V_g1_query] have [|Vt| - num_inputs] entries, [V_g2_query]
    has [num_inputs + 1] more, [H_g1_query] has [|Ht|], and the domain of
    the encoded IC query is [num_inputs], which lies in [[0, |Vt|]]. *)
Theorem generator_key_size_invariants (B : build) cs0 w kp w' :
  generator B cs0 w = (Ret kp, w') ->
  let inst := instance_map_with_evaluation cs0 (drawn_t w) in
  0 <= inst_num_inputs inst <= vsize (Vt inst) /\
  domain_size (encoded_IC_query (vk kp)) = inst_num_inputs inst /\
  vsize (V_g1_query (pk kp)) = vsize (Vt inst) - inst_num_inputs inst /\
  vsize (alpha_V_g1_query (pk kp)) = vsize (Vt inst) - inst_num_inputs inst /\
  vsize (V_g2_query (pk kp)) =
    vsize (V_g1_query (pk kp)) + inst_num_inputs inst + 1 /\
  vsize (H_g1_query (pk kp)) = vsize (Ht inst).
Proof.
  intros Hrun inst. apply generator_returns_tables in Hrun. fold inst in Hrun.
  destruct Hrun as (Hni & HT & _ & V_0 & _ & -> & _).
  destruct (generator_slice_sizes inst Hni HT) as (_ & S2 & S3).
  pose proof (Vt_table_of_length inst) as HTl.
  match goal with |- context [generator_keypair ?b ?c ?i ?a ?t ?x ?xt ?v] =>
    pose proof (generator_keypair_sizes b c i a t x xt v) as HS end.
  cbv zeta in HS. destruct HS as (-> & -> & -> & -> & ->).
  fold inst in S2, S3. rewrite S2, S3. repeat split; lia.
Qed.

Lemma vec_at_firstn (v : list Fr) (n : nat) (i : size_t) :
  0 <= i < Z.of_nat n -> (n <= length v)%nat ->
  vec_at (firstn n v) i = vec_at v i.
Proof.
  intros Hi Hn. unfold vec_at, vsize. rewrite length_firstn.
  replace (i <? Z.of_nat (Nat.min n (length v))) with true
    by (symmetry; apply Z.ltb_lt; lia).
  replace (i <? Z.of_nat (length v)) with true
    by (symmetry; apply Z.ltb_lt; lia).
  destruct (0 <=? i); cbn [andb]; [|reflexivity].
  rewrite nth_error_firstn.
  replace (Z.to_nat i <? n)%nat with true by (symmetry; apply Nat.ltb_lt; lia).
  reflexivity.
Qed.

(** X13: where assertions are compiled in, every key pair the generator
    returns has passed its sanity checks: for shape parameters below
    [2^64] the queries have the sizes [num_variables - num_inputs + 1]
    (twice), [degree + 1] and [num_variables + 2], the encoded IC query has
    domain size [num_inputs <= num_variables + 1], and the first
    [num_inputs + 1] entries of [Vt_table] are non-zero. *)
Theorem generator_checked_key_shapes (B : build) cs0 w kp w' :
  let inst := instance_map_with_evaluation cs0 (drawn_t w) in
  NDEBUG B = false ->
  0 <= inst_num_variables inst ->
  inst_num_variables inst + 2 < size_max ->
  0 <= inst_degree inst ->
  inst_degree inst + 1 < size_max ->
  generator B cs0 w = (Ret kp, w') ->
  inst_num_inputs inst <= inst_num_variables inst + 1 /\
  vsize (V_g1_query (pk kp)) =
    inst_num_variables inst - inst_num_inputs inst + 1 /\
  vsize (alpha_V_g1_query (pk kp)) =
    inst_num_variables inst - inst_num_inputs inst + 1 /\
  vsize (H_g1_query (pk kp)) = inst_degree inst + 1 /\
  vsize (V_g2_query (pk kp)) = inst_num_variables inst + 2 /\
  domain_size (encoded_IC_query (vk kp)) = inst_num_inputs inst /\
  forall i, 0 <= i <= inst_num_inputs inst ->
            nonzero_at (Vt_table_of inst) i = true.
Proof.
  intros inst HB Hnv0 Hnv Hdeg0 Hdeg Hrun.
  apply generator_returns_tables in Hrun. fold inst in Hrun.
  destruct Hrun as (Hni & HT & Hchecks & V_0 & _ & -> & _).
  destruct Hchecks as [Hchecks|Hchecks]; [congruence|].
  destruct (generator_slice_sizes inst Hni HT) as (S1 & S2 & S3).
  pose proof (Vt_table_of_length inst) as HTl.
  unfold generator_assertions in Hchecks.
  apply andb_true_iff in Hchecks. destruct Hchecks as [Hchecks A5].
  apply andb_true_iff in Hchecks. destruct Hchecks as [Hchecks _].
  apply andb_true_iff in Hchecks. destruct Hchecks as [Hchecks _].
  apply andb_true_iff in Hchecks. destruct Hchecks as [A1 A2].
  apply Z.eqb_eq in A1, A2. unfold size_add in A1, A2, A5.
  rewrite wrap_small in A1 by lia. rewrite wrap_small in A2 by lia.
  rewrite wrap_small in A5 by lia.
  match goal with |- context [generator_keypair ?b ?c ?i ?a ?t ?x ?xt ?v] =>
    pose proof (generator_keypair_sizes b c i a t x xt v) as HS end.
  cbv zeta in HS. destruct HS as (-> & -> & -> & -> & ->).
  fold inst in S2, S3. rewrite S2, S3.
  do 6 (split; [lia|]).
  intros i Hi. rewrite forallb_forall in A5.
  specialize (A5 (Z.to_nat i)).
  rewrite Z2Nat.id in A5 by lia. unfold nonzero_at in *.
  rewrite vec_at_firstn in A5 by (unfold vsize in *; lia).
  apply A5. apply in_seq. lia.
Qed.

(** X14: assertions only check: whenever the generator returns a key
    pair in a build, it returns the same key pair, from the same draws, in
    the build that differs only in having assertions compiled out. *)
Theorem generator_assertions_only_check (B : build) cs0 w kp w' :
  generator B cs0 w = (Ret kp, w') ->
  generator (without_assertions B) cs0 w = (Ret kp, w').
Proof.
  intros Hrun. apply generator_inv in Hrun.
  destruct Hrun as (Xt & VmX & Xt_0 & Xt_tail & HXt & HVmX & HXt0 & HXtail
                    & _ & -> & ->).
  rewrite (generator_run (without_assertions B) cs0 w Xt VmX Xt_0 Xt_tail
             HXt HVmX HXt0 HXtail (or_introl eq_refl)).
  reflexivity.
Qed.

(** X15: the size accounting of a proving key the generator returns:
    [G1_size] counts [2 (|Vt| - num_inputs) + |Ht|] elements and [G2_size]
    counts [|Vt| + 1]; the sparse sizes are the same; and [size_in_bits]
    is their weighted sum, as long as the counts stay below [2^64]. *)
Theorem generated_proving_key_size (B : build) cs0 w kp w' :
  let inst := instance_map_with_evaluation cs0 (drawn_t w) in
  let G1_count := 2 * (vsize (Vt inst) - inst_num_inputs inst) + vsize (Ht inst) in
  let G2_count := vsize (Vt inst) + 1 in
  generator B cs0 w = (Ret kp, w') ->
  0 <= g_value_bits g1_type ->
  0 <= g_value_bits g2_type ->
  g_value_bits g1_type * G1_count + g_value_bits g2_type * G2_count < size_max ->
  G1_count < size_max ->
  pk_G1_size (pk kp) = G1_count /\
  pk_G2_size (pk kp) = G2_count /\
  pk_G1_sparse_size (pk kp) = G1_count /\
  pk_G2_sparse_size (pk kp) = G2_count /\
  pk_size_in_bits (pk kp) =
    g_value_bits g1_type * G1_count + g_value_bits g2_type * G2_count.
Proof.
  intros inst G1_count G2_count Hrun Hb1 Hb2 Hbits HG1.
  apply generator_returns_tables in Hrun. fold inst in Hrun.
  destruct Hrun as (Hni & HT & _ & V_0 & _ & -> & _).
  destruct (generator_slice_sizes inst Hni HT) as (_ & S2 & _).
  pose proof (Vt_table_of_length inst) as HTl.
  pose proof (vsize_nonneg (Ht inst)) as HHt.
  pose proof (vsize_nonneg (Vt inst)) as HVt.
  unfold pk_size_in_bits, pk_G1_sparse_size, pk_G2_sparse_size, pk_G1_size,
    pk_G2_size, size_add, size_mul.
  match goal with |- context [generator_keypair ?b ?c ?i ?a ?t ?x ?xt ?v] =>
    pose proof (generator_keypair_sizes b c i a t x xt v) as HS end.
  cbv zeta in HS. destruct HS as (-> & -> & -> & -> & _).
  fold inst in S2. rewrite S2.
  assert (E1 : wrap (wrap (vsize (Vt inst) - inst_num_inputs inst +
                           (vsize (Vt inst) - inst_num_inputs inst)) +
                     vsize (Ht inst)) = G1_count).
  { unfold G1_count in *.
    rewrite (wrap_small (vsize (Vt inst) - inst_num_inputs inst +
                         (vsize (Vt inst) - inst_num_inputs inst))) by lia.
    rewrite wrap_small by lia. lia. }
  rewrite E1. fold G2_count.
  assert (HG2 : 0 <= G2_count) by (unfold G2_count; lia).
  assert (HG1' : 0 <= G1_count) by (unfold G1_count; lia).
  rewrite (wrap_small (g_value_bits g1_type * G1_count)) by nia.
  rewrite (wrap_small (g_value_bits g2_type * G2_count)) by nia.
  rewrite wrap_small by nia.
  repeat split; reflexivity.
Qed.

End GeneratorRuns.

(** ** The verifiers under keys of the generator *)

Section GeneratedKeys.

Context {C : Curve} {R : Reduction}.

Lemma filter_none {A} (f : A -> bool) (l : list A) :
  (forall a, In a l -> f a = false) -> filter f l = [].
Proof.
  induction l as [|a l IH]; intros H; cbn; [reflexivity|].
  rewrite (H a) by now left. apply IH. intros a' Ha'. apply H. now right.
Qed.

Lemma nth_error_combine_some {A A'} (l : list A) (l' : list A') (i : nat) a a' :
  nth_error l i = Some a -> nth_error l' i = Some a' ->
  nth_error (combine l l') i = Some (a, a').
Proof.
  revert l l'. induction i as [|i IH]; intros [|b l] [|b' l'] H H'; cbn in *;
    try discriminate.
  - now injection H as ->; injection H' as ->.
  - now apply IH.
Qed.

(** What [accumulate_chunk] keeps: the entries no scalar was given for. *)
Lemma accumulate_kept (G : group_type Fr) (x : list Fr) (offset : size_t)
    (entries : list (size_t * G)) :
  snd (accumulate G x offset entries) =
  filter (fun pv => match vec_at x (fst pv - offset) with
                    | Some _ => false
                    | None => true
                    end) entries.
Proof.
  induction entries as [|[p v] entries IH]; cbn [accumulate filter fst].
  - reflexivity.
  - destruct (accumulate G x offset entries) as [sum kept]. cbn [snd] in IH.
    destruct (vec_at x (p - offset)); cbn [snd]; now rewrite IH.
Qed.

(** On a dense vector, accumulation is complete exactly when there are at
    least as many scalars as positions. *)
Lemma is_fully_accumulated_dense (G : group_type Fr) (base : G) (vals : list G)
    (x : list Fr) :
  is_fully_accumulated (accumulate_chunk (make_accumulation_vector G base vals) x 0)
  = (vsize vals <=? vsize x).
Proof.
  unfold is_fully_accumulated, accumulate_chunk.
  pose proof (accumulate_kept G x 0 (rest (make_accumulation_vector G base vals)))
    as Hkept.
  destruct (accumulate G x 0 _) as [sum kept]. cbn [snd rest] in *.
  unfold make_accumulation_vector in Hkept. cbn [rest] in Hkept.
  destruct (Z.leb_spec (vsize vals) (vsize x)) as [Hle|Hlt].
  - assert (kept = []) as ->; [|reflexivity].
    rewrite Hkept. apply filter_none.
    intros [p v] Hin. apply in_combine_l in Hin. apply in_map_iff in Hin.
    destruct Hin as (j & <- & Hj). apply in_seq in Hj. cbn [fst].
    destruct (vec_at_defined x (Z.of_nat j - 0)) as [s ->]; [|reflexivity].
    unfold vsize in *. lia.
  - assert (Hin : In (vsize x, nth (length x) vals base)
                     (combine (map Z.of_nat (seq 0 (length vals))) vals)).
    { unfold vsize in *.
      assert (Hnth : nth_error (combine (map Z.of_nat (seq 0 (length vals))) vals)
                       (length x) =
                     Some (Z.of_nat (length x), nth (length x) vals base)).
      { apply nth_error_combine_some.
        - erewrite map_nth_error; [reflexivity|].
          rewrite nth_error_seq.
          replace (length x <? length vals)%nat with true
            by (symmetry; apply Nat.ltb_lt; lia).
          reflexivity.
        - apply nth_error_nth'. lia. }
      eapply nth_error_In. exact Hnth. }
    assert (Hk : In (vsize x, nth (length x) vals base) kept).
    { rewrite Hkept. apply filter_In. split; [exact Hin|]. cbn [fst].
      unfold vec_at.
      replace (vsize x - 0 <? vsize x) with false
        by (symmetry; apply Z.ltb_ge; lia).
      now rewrite andb_false_r. }
    destruct kept; [contradiction | reflexivity].
Qed.

(** Under a key of the generator the two assertions of the weak-IC
    verifier hold exactly for the inputs of [num_inputs] scalars. *)
Lemma generated_key_weak_IC_assertions (B : build) cs0 w kp w' x :
  generator B cs0 w = (Ret kp, w') ->
  let inst := instance_map_with_evaluation cs0 (drawn_t w) in
  domain_size (encoded_IC_query (vk kp)) = inst_num_inputs inst /\
  weak_IC_assertions (processed (vk kp)) x = (vsize x =? inst_num_inputs inst).
Proof.
  intros Hrun inst. apply generator_returns_tables in Hrun. fold inst in Hrun.
  destruct Hrun as (Hni & HT & _ & V_0 & _ & -> & _).
  destruct (generator_slice_sizes inst Hni HT) as (_ & _ & S3).
  unfold weak_IC_assertions.
  cbn [generator_keypair vk processed pvk_encoded_IC_query encoded_IC_query].
  rewrite is_fully_accumulated_dense, domain_size_make, vsize_map.
  fold inst in S3. rewrite S3. split; [reflexivity|].
  destruct (Z.eqb_spec (vsize x) (inst_num_inputs inst)) as [->|Hne].
  - now rewrite Z.leb_refl.
  - destruct (Z.leb_spec (vsize x) (inst_num_inputs inst));
      destruct (Z.leb_spec (inst_num_inputs inst) (vsize x)); try reflexivity.
    lia.
Qed.

(** X16: under a verification key the generator returned, the strong-IC
    verifiers return [false] on every input whose length is not
    [num_inputs], in every build and whatever the proof: the online one at
    once, the offline one after it has processed the key. *)
Theorem generated_key_strong_IC_length_check (B B' : build) cs0 w kp w' x pi w2 :
  let inst := instance_map_with_evaluation cs0 (drawn_t w) in
  generator B cs0 w = (Ret kp, w') ->
  vsize x <> inst_num_inputs inst ->
  online_verifier_strong_IC B' (processed (vk kp)) x pi w2 = (Ret false, w2) /\
  verifier_strong_IC B' (vk kp) x pi w2 = (Ret false, after w2 process_vk_calls).
Proof.
  intros inst Hrun Hne.
  destruct (generated_key_weak_IC_assertions B cs0 w kp w' x Hrun) as [Hdom _].
  fold inst in Hdom.
  rewrite verifier_strong_IC_run, !online_verifier_strong_IC_run.
  cbn [processed pvk_encoded_IC_query]. rewrite Hdom.
  replace (inst_num_inputs inst =? vsize x) with false
    by (symmetry; apply Z.eqb_neq; congruence).
  split; reflexivity.
Qed.

(** X17: under a verification key the generator returned, on an input of
    exactly [num_inputs] scalars no assertion of a verifier fails: in
    every build the weak-IC and the strong-IC verifier both return the
    verdict of the three pairing equations, after the same calls. *)
Theorem generated_key_exact_input_verdict (B B' : build) cs0 w kp w' x pi w2 :
  let inst := instance_map_with_evaluation cs0 (drawn_t w) in
  generator B cs0 w = (Ret kp, w') ->
  vsize x = inst_num_inputs inst ->
  verifier_weak_IC B' (vk kp) x pi w2 =
    (Ret (weak_IC_verdict (processed (vk kp)) x pi),
     after (after w2 process_vk_calls) weak_IC_calls) /\
  verifier_strong_IC B' (vk kp) x pi w2 = verifier_weak_IC B' (vk kp) x pi w2.
Proof.
  intros inst Hrun Hlen.
  destruct (generated_key_weak_IC_assertions B cs0 w kp w' x Hrun)
    as [Hdom Hassert].
  fold inst in Hdom, Hassert.
  rewrite verifier_strong_IC_run, verifier_weak_IC_run,
          online_verifier_strong_IC_run, online_verifier_weak_IC_run.
  cbn [processed pvk_encoded_IC_query] in *. rewrite Hdom, Hassert, Hlen.
  rewrite !Z.eqb_refl, orb_true_r. split; reflexivity.
Qed.

(** X18: where assertions are compiled in, the weak-IC verifier aborts
    under a verification key the generator returned on every input whose
    length is not [num_inputs]: a longer input fails the first assertion,
    a shorter one the assertion that the accumulation is complete. *)
Theorem generated_key_weak_IC_aborts (B B' : build) cs0 w kp w' x pi w2 :
  let inst := instance_map_with_evaluation cs0 (drawn_t w) in
  generator B cs0 w = (Ret kp, w') ->
  NDEBUG B' = false ->
  vsize x <> inst_num_inputs inst ->
  online_verifier_weak_IC B' (processed (vk kp)) x pi w2 =
    (Fail AssertionFailed, w2) /\
  verifier_weak_IC B' (vk kp) x pi w2 =
    (Fail AssertionFailed, after w2 process_vk_calls).
Proof.
  intros inst Hrun HB Hne.
  destruct (generated_key_weak_IC_assertions B cs0 w kp w' x Hrun)
    as [_ Hassert].
  fold inst in Hassert.
  rewrite verifier_weak_IC_run, !online_verifier_weak_IC_run.
  rewrite Hassert, HB.
  replace (vsize x =? inst_num_inputs inst) with false
    by (symmetry; apply Z.eqb_neq; congruence).
  split; reflexivity.
Qed.

End GeneratedKeys.

(** ** Sample runs of the further properties *)

(** *** The prover *)

Lemma prover_aborts_on_failed_check_witness :
  NDEBUG debug_build = false /\
  (is_satisfied (cs (pk keypair3)) [14; 0] [15] = false \/
   prover_size_assertions (pk keypair3)
     (witness_map (cs (pk keypair3)) [14; 0] [15] (drawn_t (start [9]))) = false) /\
  prover debug_build (pk keypair3) [14; 0] [15] (start [9]) =
    (Fail AssertionFailed, after_prover (start [9])).
Proof.
  assert (H1 : NDEBUG debug_build = false) by reflexivity.
  assert (H2 : is_satisfied (cs (pk keypair3)) [14; 0] [15] = false \/
               prover_size_assertions (pk keypair3)
                 (witness_map (cs (pk keypair3)) [14; 0] [15]
                    (drawn_t (start [9]))) = false)
    by (left; reflexivity).
  split; [exact H1|]. split; [exact H2|].
  exact (prover_aborts_on_failed_check debug_build (pk keypair3) [14; 0] [15]
           (start [9]) H1 H2).
Defined.

Lemma prover_returns_only_on_shaped_inputs_witness :
  prover debug_build (pk keypair3) [14; 0] [16] (start [9]) =
    (Ret proof3, start []) /\
  let wit := witness_map (cs (pk keypair3)) [14; 0] [16] (drawn_t (start [9])) in
  0 <= wit_num_inputs wit /\
  wit_num_inputs wit <= wit_num_variables wit /\
  wit_num_variables wit <= vsize (coefficients_for_Vs wit) /\
  wit_num_variables wit + 1 <= vsize (V_g2_query (pk keypair3)) /\
  wit_degree wit + 1 <= vsize (H_g1_query (pk keypair3)) /\
  wit_degree wit + 1 <= vsize (coefficients_for_H wit) /\
  0 < vsize (V_g1_query (pk keypair3)) /\
  0 < vsize (alpha_V_g1_query (pk keypair3)) /\
  (NDEBUG debug_build = false ->
   is_satisfied (cs (pk keypair3)) [14; 0] [16] = true /\
   prover_size_assertions (pk keypair3) wit = true).
Proof.
  assert (H : prover debug_build (pk keypair3) [14; 0] [16] (start [9]) =
              (Ret proof3, start [])) by reflexivity.
  split; [exact H|].
  exact (prover_returns_only_on_shaped_inputs debug_build (pk keypair3) [14; 0]
           [16] (start [9]) proof3 (start []) H).
Defined.

Lemma prover_assertions_only_check_witness :
  prover debug_build (pk keypair3) [14; 0] [16] (start [9]) =
    (Ret proof3, start []) /\
  prover (without_assertions debug_build) (pk keypair3) [14; 0] [16] (start [9]) =
    (Ret proof3, start []).
Proof.
  assert (H : prover debug_build (pk keypair3) [14; 0] [16] (start [9]) =
              (Ret proof3, start [])) by reflexivity.
  split; [exact H|].
  exact (prover_assertions_only_check debug_build (pk keypair3) [14; 0] [16]
           (start [9]) proof3 (start []) H).
Defined.

(** The inputs [x = (14, 0)], [y = (15)] do not satisfy [cs3]; the build
    without assertions returns a proof for them all the same. *)
Lemma prover_release_trusts_caller_witness :
  NDEBUG release_build = true /\
  prover_shapes (pk keypair3)
    (witness_map (cs (pk keypair3)) [14; 0] [15] (drawn_t (start [9]))) /\
  is_satisfied (cs (pk keypair3)) [14; 0] [15] = false /\
  let wit := witness_map (cs (pk keypair3)) [14; 0] [15] (drawn_t (start [9])) in
  prover release_build (pk keypair3) [14; 0] [15] (start [9]) =
    (Ret (prover_proof (pk keypair3) (wit_d wit) wit), after_prover (start [9])).
Proof.
  assert (H1 : NDEBUG release_build = true) by reflexivity.
  assert (H2 : prover_shapes (pk keypair3)
                 (witness_map (cs (pk keypair3)) [14; 0] [15]
                    (drawn_t (start [9]))))
    by (split; vm_compute; try reflexivity; discriminate).
  split; [exact H1|]. split; [exact H2|]. split; [reflexivity|].
  exact (prover_release_trusts_caller release_build (pk keypair3) [14; 0] [15]
           (start [9]) H1 H2).
Defined.

(** *** The verifiers *)

Lemma malformed_proof_never_accepted_witness :
  is_well_formed malformed_proof = false /\
  fst (online_verifier_weak_IC release_build pvk3 [14; 0] malformed_proof (start []))
    <> Ret true /\
  fst (online_verifier_strong_IC release_build pvk3 [14; 0] malformed_proof
         (start [])) <> Ret true /\
  fst (verifier_weak_IC release_build (vk keypair3) [14; 0] malformed_proof
         (start [])) <> Ret true /\
  fst (verifier_strong_IC release_build (vk keypair3) [14; 0] malformed_proof
         (start [])) <> Ret true /\
  (NDEBUG release_build = true ->
   online_verifier_weak_IC release_build pvk3 [14; 0] malformed_proof (start []) =
     (Ret false, after (start []) weak_IC_calls) /\
   verifier_weak_IC release_build (vk keypair3) [14; 0] malformed_proof (start []) =
     (Ret false, after (after (start []) process_vk_calls) weak_IC_calls)).
Proof.
  assert (H : is_well_formed malformed_proof = false) by reflexivity.
  split; [exact H|].
  exact (malformed_proof_never_accepted release_build (vk keypair3) pvk3 [14; 0]
           malformed_proof (start []) H).
Defined.

Lemma online_strong_IC_acceptance_witness :
  online_verifier_strong_IC debug_build pvk3 [14; 0] proof3 (start []) =
    (Ret true, after (start []) weak_IC_calls) /\
  domain_size (pvk_encoded_IC_query pvk3) = vsize [14; 0] /\
  online_verifier_weak_IC debug_build pvk3 [14; 0] proof3 (start []) =
    (Ret true, after (start []) weak_IC_calls) /\
  accepting pvk3 [14; 0] proof3 /\
  after (start []) weak_IC_calls = after (start []) weak_IC_calls.
Proof.
  assert (H : online_verifier_strong_IC debug_build pvk3 [14; 0] proof3 (start []) =
              (Ret true, after (start []) weak_IC_calls)) by reflexivity.
  split; [exact H|].
  exact (online_strong_IC_acceptance debug_build pvk3 [14; 0] proof3 (start [])
           (after (start []) weak_IC_calls) H).
Defined.

(** Zero padding where assertions are compiled out. *)
Lemma verifier_weak_IC_padded_release_witness :
  NDEBUG release_build = true /\
  verifier_weak_IC release_build (vk keypair3) ([14] ++ repeat fr_zero 1) proof3
    (start []) =
  verifier_weak_IC release_build (vk keypair3) [14] proof3 (start []).
Proof.
  assert (H : NDEBUG release_build = true) by reflexivity.
  split; [exact H|].
  exact (verifier_weak_IC_padded_release release_build (vk keypair3) [14] 1 proof3
           (start []) H).
Defined.

(** *** The generator *)

Lemma generator_aborts_on_zero_input_evaluation_witness :
  NDEBUG debug_build = false /\
  well_shaped_instance
    (instance_map_with_evaluation cs_unused_input (drawn_t (start [3; 2; 4]))) /\
  0 <= 2 <= inst_num_inputs
              (instance_map_with_evaluation cs_unused_input
                 (drawn_t (start [3; 2; 4]))) /\
  nonzero_at
    (Vt (instance_map_with_evaluation cs_unused_input (drawn_t (start [3; 2; 4]))))
    2 = false /\
  generator debug_build cs_unused_input (start [3; 2; 4]) =
    (Fail AssertionFailed, after_prover (start [3; 2; 4])).
Proof.
  assert (H1 : NDEBUG debug_build = false) by reflexivity.
  assert (H2 : well_shaped_instance
                 (instance_map_with_evaluation cs_unused_input
                    (drawn_t (start [3; 2; 4]))))
    by (split; vm_compute; try reflexivity; discriminate).
  assert (H3 : 0 <= 2 <= inst_num_inputs
                           (instance_map_with_evaluation cs_unused_input
                              (drawn_t (start [3; 2; 4]))))
    by (split; vm_compute; discriminate).
  assert (H4 : nonzero_at
                 (Vt (instance_map_with_evaluation cs_unused_input
                        (drawn_t (start [3; 2; 4])))) 2 = false)
    by reflexivity.
  split; [exact H1|]. split; [exact H2|]. split; [exact H3|]. split; [exact H4|].
  exact (generator_aborts_on_zero_input_evaluation debug_build cs_unused_input
           (start [3; 2; 4]) 2 H1 H2 H3 H4).
Defined.

Lemma generator_key_layout_witness :
  generator debug_build cs3 (start [3; 2; 4]) = (Ret keypair3, start []) /\
  let inst := instance_map_with_evaluation cs3 (drawn_t (start [3; 2; 4])) in
  let T := Vt_table_of inst in
  let n := Z.to_nat (inst_num_inputs inst + 1) in
  V_g2_query (pk keypair3) = encode debug_build g2_type T /\
  V_g1_query (pk keypair3) = encode debug_build g1_type (skipn n T) /\
  alpha_V_g1_query (pk keypair3) =
    encode debug_build g1_type
      (map (fr_mul (drawn_alpha (start [3; 2; 4]))) (skipn n T)) /\
  H_g1_query (pk keypair3) = encode debug_build g1_type (Ht inst) /\
  (exists V_0,
     nth_error T 0 = Some V_0 /\
     first (encoded_IC_query (vk keypair3)) = g_mul V_0 g_one /\
     nth 0 (V_g2_query (pk keypair3)) g_zero =
       special_if_mixed debug_build g2_type (g_mul V_0 g_one)) /\
  map snd (rest (encoded_IC_query (vk keypair3))) =
    map (fun s => g_mul s g_one) (skipn 1 (firstn n T)) /\
  map fst (rest (encoded_IC_query (vk keypair3))) =
    map Z.of_nat (seq 0 (Z.to_nat (inst_num_inputs inst))) /\
  last_of g2_type (V_g2_query (pk keypair3)) =
    special_if_mixed debug_build g2_type (Z_g2 (vk keypair3)).
Proof.
  assert (H : generator debug_build cs3 (start [3; 2; 4]) =
              (Ret keypair3, start [])) by reflexivity.
  split; [exact H|].
  exact (generator_key_layout debug_build cs3 (start [3; 2; 4]) keypair3
           (start []) H).
Defined.

Lemma generator_key_size_invariants_witness :
  generator debug_build cs3 (start [3; 2; 4]) = (Ret keypair3, start []) /\
  let inst := instance_map_with_evaluation cs3 (drawn_t (start [3; 2; 4])) in
  0 <= inst_num_inputs inst <= vsize (Vt inst) /\
  domain_size (encoded_IC_query (vk keypair3)) = inst_num_inputs inst /\
  vsize (V_g1_query (pk keypair3)) = vsize (Vt inst) - inst_num_inputs inst /\
  vsize (alpha_V_g1_query (pk keypair3)) =
    vsize (Vt inst) - inst_num_inputs inst /\
  vsize (V_g2_query (pk keypair3)) =
    vsize (V_g1_query (pk keypair3)) + inst_num_inputs inst + 1 /\
  vsize (H_g1_query (pk keypair3)) = vsize (Ht inst).
Proof.
  assert (H : generator debug_build cs3 (start [3; 2; 4]) =
              (Ret keypair3, start [])) by reflexivity.
  split; [exact H|].
  exact (generator_key_size_invariants debug_build cs3 (start [3; 2; 4]) keypair3
           (start []) H).
Defined.

Lemma generator_checked_key_shapes_witness :
  NDEBUG debug_build = false /\
  0 <= inst_num_variables
         (instance_map_with_evaluation cs3 (drawn_t (start [3; 2; 4]))) /\
  inst_num_variables
    (instance_map_with_evaluation cs3 (drawn_t (start [3; 2; 4]))) + 2
  < size_max /\
  0 <= inst_degree (instance_map_with_evaluation cs3 (drawn_t (start [3; 2; 4]))) /\
  inst_degree (instance_map_with_evaluation cs3 (drawn_t (start [3; 2; 4]))) + 1
  < size_max /\
  generator debug_build cs3 (start [3; 2; 4]) = (Ret keypair3, start []) /\
  let inst := instance_map_with_evaluation cs3 (drawn_t (start [3; 2; 4])) in
  inst_num_inputs inst <= inst_num_variables inst + 1 /\
  vsize (V_g1_query (pk keypair3)) =
    inst_num_variables inst - inst_num_inputs inst + 1 /\
  vsize (alpha_V_g1_query (pk keypair3)) =
    inst_num_variables inst - inst_num_inputs inst + 1 /\
  vsize (H_g1_query (pk keypair3)) = inst_degree inst + 1 /\
  vsize (V_g2_query (pk keypair3)) = inst_num_variables inst + 2 /\
  domain_size (encoded_IC_query (vk keypair3)) = inst_num_inputs inst /\
  forall i, 0 <= i <= inst_num_inputs inst ->
            nonzero_at (Vt_table_of inst) i = true.
Proof.
  assert (H1 : NDEBUG debug_build = false) by reflexivity.
  assert (H2 : 0 <= inst_num_variables
                      (instance_map_with_evaluation cs3
                         (drawn_t (start [3; 2; 4]))))
    by (vm_compute; discriminate).
  assert (H3 : inst_num_variables
                 (instance_map_with_evaluation cs3 (drawn_t (start [3; 2; 4])))
               + 2 < size_max) by reflexivity.
  assert (H4 : 0 <= inst_degree
                      (instance_map_with_evaluation cs3
                         (drawn_t (start [3; 2; 4]))))
    by (vm_compute; discriminate).
  assert (H5 : inst_degree
                 (instance_map_with_evaluation cs3 (drawn_t (start [3; 2; 4])))
               + 1 < size_max) by reflexivity.
  assert (H6 : generator debug_build cs3 (start [3; 2; 4]) =
               (Ret keypair3, start [])) by reflexivity.
  split; [exact H1|]. split; [exact H2|]. split; [exact H3|].
  split; [exact H4|]. split; [exact H5|]. split; [exact H6|].
  exact (generator_checked_key_shapes debug_build cs3 (start [3; 2; 4]) keypair3
           (start []) H1 H2 H3 H4 H5 H6).
Defined.

Lemma generator_assertions_only_check_witness :
  generator debug_build cs3 (start [3; 2; 4]) = (Ret keypair3, start []) /\
  generator (without_assertions debug_build) cs3 (start [3; 2; 4]) =
    (Ret keypair3, start []).
Proof.
  assert (H : generator debug_build cs3 (start [3; 2; 4]) =
              (Ret keypair3, start [])) by reflexivity.
  split; [exact H|].
  exact (generator_assertions_only_check debug_build cs3 (start [3; 2; 4])
           keypair3 (start []) H).
Defined.

Lemma generated_proving_key_size_witness :
  generator debug_build cs3 (start [3; 2; 4]) = (Ret keypair3, start []) /\
  0 <= g_value_bits g1_type /\
  0 <= g_value_bits g2_type /\
  (let inst := instance_map_with_evaluation cs3 (drawn_t (start [3; 2; 4])) in
   g_value_bits g1_type *
     (2 * (vsize (Vt inst) - inst_num_inputs inst) + vsize (Ht inst)) +
   g_value_bits g2_type * (vsize (Vt inst) + 1) < size_max) /\
  (let inst := instance_map_with_evaluation cs3 (drawn_t (start [3; 2; 4])) in
   2 * (vsize (Vt inst) - inst_num_inputs inst) + vsize (Ht inst) < size_max) /\
  let inst := instance_map_with_evaluation cs3 (drawn_t (start [3; 2; 4])) in
  let G1_count := 2 * (vsize (Vt inst) - inst_num_inputs inst) + vsize (Ht inst) in
  let G2_count := vsize (Vt inst) + 1 in
  pk_G1_size (pk keypair3) = G1_count /\
  pk_G2_size (pk keypair3) = G2_count /\
  pk_G1_sparse_size (pk keypair3) = G1_count /\
  pk_G2_sparse_size (pk keypair3) = G2_count /\
  pk_size_in_bits (pk keypair3) =
    g_value_bits g1_type * G1_count + g_value_bits g2_type * G2_count.
Proof.
  assert (H1 : generator debug_build cs3 (start [3; 2; 4]) =
               (Ret keypair3, start [])) by reflexivity.
  assert (H2 : 0 <= g_value_bits g1_type) by (vm_compute; discriminate).
  assert (H3 : 0 <= g_value_bits g2_type) by (vm_compute; discriminate).
  assert (H4 : let inst := instance_map_with_evaluation cs3
                             (drawn_t (start [3; 2; 4])) in
               g_value_bits g1_type *
                 (2 * (vsize (Vt inst) - inst_num_inputs inst) + vsize (Ht inst)) +
               g_value_bits g2_type * (vsize (Vt inst) + 1) < size_max)
    by reflexivity.
  assert (H5 : let inst := instance_map_with_evaluation cs3
                             (drawn_t (start [3; 2; 4])) in
               2 * (vsize (Vt inst) - inst_num_inputs inst) + vsize (Ht inst)
               < size_max)
    by reflexivity.
  split; [exact H1|]. split; [exact H2|]. split; [exact H3|].
  split; [exact H4|]. split; [exact H5|].
  exact (generated_proving_key_size debug_build cs3 (start [3; 2; 4]) keypair3
           (start []) H1 H2 H3 H4 H5).
Defined.

(** *** The verifiers under the sample key *)

Lemma generated_key_strong_IC_length_check_witness :
  generator debug_build cs3 (start [3; 2; 4]) = (Ret keypair3, start []) /\
  vsize [14] <>
    inst_num_inputs
      (instance_map_with_evaluation cs3 (drawn_t (start [3; 2; 4]))) /\
  online_verifier_strong_IC release_build (processed (vk keypair3)) [14] proof3
    (start []) = (Ret false, start []) /\
  verifier_strong_IC release_build (vk keypair3) [14] proof3 (start []) =
    (Ret false, after (start []) process_vk_calls).
Proof.
  assert (H1 : generator debug_build cs3 (start [3; 2; 4]) =
               (Ret keypair3, start [])) by reflexivity.
  assert (H2 : vsize [14] <>
               inst_num_inputs
                 (instance_map_with_evaluation cs3 (drawn_t (start [3; 2; 4]))))
    by (vm_compute; discriminate).
  split; [exact H1|]. split; [exact H2|].
  exact (generated_key_strong_IC_length_check debug_build release_build cs3
           (start [3; 2; 4]) keypair3 (start []) [14] proof3 (start []) H1 H2).
Defined.

Lemma generated_key_exact_input_verdict_witness :
  generator debug_build cs3 (start [3; 2; 4]) = (Ret keypair3, start []) /\
  vsize [14; 0] =
    inst_num_inputs
      (instance_map_with_evaluation cs3 (drawn_t (start [3; 2; 4]))) /\
  verifier_weak_IC debug_build (vk keypair3) [14; 0] proof3 (start []) =
    (Ret (weak_IC_verdict (processed (vk keypair3)) [14; 0] proof3),
     after (after (start []) process_vk_calls) weak_IC_calls) /\
  verifier_strong_IC debug_build (vk keypair3) [14; 0] proof3 (start []) =
    verifier_weak_IC debug_build (vk keypair3) [14; 0] proof3 (start []).
Proof.
  assert (H1 : generator debug_build cs3 (start [3; 2; 4]) =
               (Ret keypair3, start [])) by reflexivity.
  assert (H2 : vsize [14; 0] =
               inst_num_inputs
                 (instance_map_with_evaluation cs3 (drawn_t (start [3; 2; 4]))))
    by reflexivity.
  split; [exact H1|]. split; [exact H2|].
  exact (generated_key_exact_input_verdict debug_build debug_build cs3
           (start [3; 2; 4]) keypair3 (start []) [14; 0] proof3 (start []) H1 H2).
Defined.

Lemma generated_key_weak_IC_aborts_witness :
  generator debug_build cs3 (start [3; 2; 4]) = (Ret keypair3, start []) /\
  NDEBUG debug_build = false /\
  vsize [14] <>
    inst_num_inputs
      (instance_map_with_evaluation cs3 (drawn_t (start [3; 2; 4]))) /\
  online_verifier_weak_IC debug_build (processed (vk keypair3)) [14] proof3
    (start []) = (Fail AssertionFailed, start []) /\
  verifier_weak_IC debug_build (vk keypair3) [14] proof3 (start []) =
    (Fail AssertionFailed, after (start []) process_vk_calls).
Proof.
  assert (H1 : generator debug_build cs3 (start [3; 2; 4]) =
               (Ret keypair3, start [])) by reflexivity.
  assert (H2 : NDEBUG debug_build = false) by reflexivity.
  assert (H3 : vsize [14] <>
               inst_num_inputs
                 (instance_map_with_evaluation cs3 (drawn_t (start [3; 2; 4]))))
    by (vm_compute; discriminate).
  split; [exact H1|]. split; [exact H2|]. split; [exact H3|].
  exact (generated_key_weak_IC_aborts debug_build debug_build cs3
           (start [3; 2; 4]) keypair3 (start []) [14] proof3 (start []) H1 H2 H3).
Defined.
